(** * EVA ERP backend: conversation memory, context extraction and chat orchestration

    A shallow embedding of [services/conversationMemory.js] (class
    [ConversationMemory]), of [GroqService] ([chat], [directChat],
    [generateResponse] and the parsing of ERP replies), of the chat router's
    [POST /] and [DELETE /clear/:sessionId] handlers, of the input
    validators and of the session ids of the auth middleware, together with
    the properties the specification states about them and further
    properties the code has.

    Conventions of the embedding.
    - A JavaScript string is a [string] whose characters are the code units
      0..255 (the Latin-1 range); [toLowerCase] and [trim] are written out
      for that range.
    - An array is a [list]; [Array.prototype.slice] keeps its treatment of
      negative indices, on [Z].
    - The [Map] of sessions is a [gmap string Session]; methods that mutate
      the instance take the memory and return the new one.
    - A [Date] is its number of milliseconds, a [Z]. One method call reads
      the clock at one instant, passed as [now]; the random suffix of a
      generated id is passed as [rnd].
    - A property of an options object or of a request body that the code
      destructures with a default is absent, [null], or a value of the
      expected type; the default replaces an absent property only. *)

From Stdlib Require Import ZArith Ascii DecimalString DecimalPos.
From stdpp Require Import gmap strings list fin_maps.

Local Open Scope Z_scope.

(* ===================================================================== *)
(** ** JavaScript built-ins used by the code *)
(* ===================================================================== *)

Module JS.

(** [String.prototype.toLowerCase] on one Latin-1 code unit: A-Z and the
    accented capitals U+00C0..U+00DE (but not the multiplication sign
    U+00D7) move up by 32. *)
Definition lowerChar (c : ascii) : ascii :=
  let n := N_of_ascii c in
  if ((65 <=? n) && (n <=? 90))%N then ascii_of_N (n + 32)
  else if ((192 <=? n) && (n <=? 222) && negb (n =? 215))%N
       then ascii_of_N (n + 32)
       else c.

Fixpoint toLowerCase (s : string) : string :=
  match s with
  | EmptyString => EmptyString
  | String c s' => String (lowerChar c) (toLowerCase s')
  end.

(** [s.startsWith(p)] *)
Fixpoint startsWith (s p : string) {struct p} : bool :=
  match p, s with
  | EmptyString, _ => true
  | String _ _, EmptyString => false
  | String a p', String b s' => bool_decide (a = b) && startsWith s' p'
  end.

(** [s.includes(needle)] *)
Fixpoint includes (s needle : string) : bool :=
  startsWith s needle ||
  match s with
  | EmptyString => false
  | String _ s' => includes s' needle
  end.

(** The separator class of the regular expression [/[.!?]+/]. *)
Definition isSep (c : ascii) : bool :=
  bool_decide (c = "."%char) || bool_decide (c = "!"%char)
  || bool_decide (c = "?"%char).

(** [s.split(/[.!?]+/)]: the pieces between maximal runs of separators.
    A leading or trailing run leaves an empty piece, and the empty string
    splits into one empty piece. *)
Fixpoint splitSentences (s : string) : list string :=
  match s with
  | EmptyString => [EmptyString]
  | String c s' =>
      let rest := splitSentences s' in
      if isSep c then
        match s' with
        | String c' _ => if isSep c' then rest else EmptyString :: rest
        | EmptyString => EmptyString :: rest
        end
      else
        match rest with
        | p :: ps => String c p :: ps
        | [] => [String c EmptyString]
        end
  end.

(** White space and line terminators of ECMAScript within Latin-1:
    TAB, LF, VT, FF, CR, SPACE and NO-BREAK SPACE. *)
Definition isWhite (c : ascii) : bool :=
  let n := N_of_ascii c in
  (((9 <=? n) && (n <=? 13)) || (n =? 32) || (n =? 160))%N.

Fixpoint trimStart (s : string) : string :=
  match s with
  | EmptyString => EmptyString
  | String c s' => if isWhite c then trimStart s' else s
  end.

Fixpoint trimEnd (s : string) : string :=
  match s with
  | EmptyString => EmptyString
  | String c s' =>
      match trimEnd s' with
      | EmptyString => if isWhite c then EmptyString else String c EmptyString
      | t => String c t
      end
  end.

(** [s.trim()] *)
Definition trim (s : string) : string := trimEnd (trimStart s).

(** [s.substring(a, b)] for non-negative indices: both are clamped to the
    length and swapped when out of order. *)
Definition substring (s : string) (a b : nat) : string :=
  let n := String.length s in
  let a' := Nat.min a n in
  let b' := Nat.min b n in
  String.substring (Nat.min a' b') (Nat.max a' b' - Nat.min a' b') s.

(** [arr.slice(start)]: a negative [start] counts from the end, and
    either way the index is clamped to the array. *)
Definition slice {A} (l : list A) (start : Z) : list A :=
  let len := Z.of_nat (length l) in
  let k := if start <? 0 then Z.max (len + start) 0 else Z.min start len in
  drop (Z.to_nat k) l.

(** [arr.includes(x)] on an array of strings. *)
Definition arrayIncludes (l : list string) (x : string) : bool :=
  bool_decide (x ∈ l).

(** [arr.join(sep)] *)
Definition join (sep : string) (l : list string) : string :=
  String.concat sep l.

(** Truthiness of a value that is a string or [null]. *)
Definition truthy (v : option string) : bool :=
  match v with
  | Some s => negb (bool_decide (s = EmptyString))
  | None => false
  end.

(** [`${n}`] for a non-negative integer and for an integer. *)
Definition natToString (n : nat) : string :=
  NilEmpty.string_of_uint (Nat.to_uint n).

Definition intToString (z : Z) : string :=
  NilEmpty.string_of_int (Z.to_int z).

Definition newline : string := String (ascii_of_N 10) EmptyString.

End JS.

(* ===================================================================== *)
(** ** Data model of [ConversationMemory] *)
(* ===================================================================== *)

(** The values [session.context.implementationPhase] takes. *)
Inductive Phase :=
  | discovery | requirements | design | implementation | testing | deployment.

Definition phaseName (p : Phase) : string :=
  match p with
  | discovery => "discovery"
  | requirements => "requirements"
  | design => "design"
  | implementation => "implementation"
  | testing => "testing"
  | deployment => "deployment"
  end.

Record MessageMetadata := {
  snapshot_persona : string;
  snapshot_phase : Phase
}.

Record Message := {
  msg_id : string;
  role : string;
  content : string;
  timestamp : Z;
  msg_metadata : MessageMetadata
}.

Record Decision := {
  decision : string;
  decision_timestamp : Z;
  decision_messageId : string
}.

Inductive IssueStatus := open | resolved.

Record Issue := {
  issue : string;
  issue_timestamp : Z;
  status : IssueStatus;
  issue_messageId : string;
  resolvedAt : option Z
}.

Record SessionContext := {
  currentProject : option string;
  businessRequirements : list string;
  technicalSpecs : list string;
  implementationPhase : Phase;
  stakeholders : list string;
  decisions : list Decision;
  openIssues : list Issue
}.

Record Artifact := {
  artifact_id : string;
  artifact_type : string;
  artifact_payload : string;
  artifact_timestamp : Z
}.

Record SessionMetadata := {
  createdAt : Z;
  lastActivity : Z;
  messageCount : nat;
  analysisResults : list Artifact;
  generatedArtifacts : list Artifact
}.

Record Session := {
  session_id : string;
  persona : string;
  messages : list Message;
  session_context : SessionContext;
  session_metadata : SessionMetadata
}.

Record ConversationMemory := {
  conversations : gmap string Session;
  maxHistoryLength : Z;
  sessionTimeout : Z
}.

#[global] Instance IssueStatus_eq_dec : EqDecision IssueStatus.
Proof. solve_decision. Defined.

#[global] Instance Phase_eq_dec : EqDecision Phase.
Proof. solve_decision. Defined.

(** [new ConversationMemory()] *)
Definition newConversationMemory : ConversationMemory :=
  {| conversations := ∅;
     maxHistoryLength := 50;
     sessionTimeout := 24 * 60 * 60 * 1000 |}.

(** Field updates, as the assignments of the source. *)
Definition with_conversations (f : gmap string Session → gmap string Session)
    (cm : ConversationMemory) : ConversationMemory :=
  {| conversations := f (conversations cm);
     maxHistoryLength := maxHistoryLength cm;
     sessionTimeout := sessionTimeout cm |}.

Definition with_context (f : SessionContext → SessionContext) (s : Session) : Session :=
  {| session_id := session_id s; persona := persona s; messages := messages s;
     session_context := f (session_context s);
     session_metadata := session_metadata s |}.

Definition set_phase (p : Phase) (c : SessionContext) : SessionContext :=
  {| currentProject := currentProject c;
     businessRequirements := businessRequirements c;
     technicalSpecs := technicalSpecs c;
     implementationPhase := p;
     stakeholders := stakeholders c;
     decisions := decisions c;
     openIssues := openIssues c |}.

Definition push_businessRequirement (r : string) (c : SessionContext) : SessionContext :=
  {| currentProject := currentProject c;
     businessRequirements := businessRequirements c ++ [r];
     technicalSpecs := technicalSpecs c;
     implementationPhase := implementationPhase c;
     stakeholders := stakeholders c;
     decisions := decisions c;
     openIssues := openIssues c |}.

Definition push_technicalSpec (r : string) (c : SessionContext) : SessionContext :=
  {| currentProject := currentProject c;
     businessRequirements := businessRequirements c;
     technicalSpecs := technicalSpecs c ++ [r];
     implementationPhase := implementationPhase c;
     stakeholders := stakeholders c;
     decisions := decisions c;
     openIssues := openIssues c |}.

Definition push_stakeholder (r : string) (c : SessionContext) : SessionContext :=
  {| currentProject := currentProject c;
     businessRequirements := businessRequirements c;
     technicalSpecs := technicalSpecs c;
     implementationPhase := implementationPhase c;
     stakeholders := stakeholders c ++ [r];
     decisions := decisions c;
     openIssues := openIssues c |}.

Definition push_decision (d : Decision) (c : SessionContext) : SessionContext :=
  {| currentProject := currentProject c;
     businessRequirements := businessRequirements c;
     technicalSpecs := technicalSpecs c;
     implementationPhase := implementationPhase c;
     stakeholders := stakeholders c;
     decisions := decisions c ++ [d];
     openIssues := openIssues c |}.

Definition push_openIssue (i : Issue) (c : SessionContext) : SessionContext :=
  {| currentProject := currentProject c;
     businessRequirements := businessRequirements c;
     technicalSpecs := technicalSpecs c;
     implementationPhase := implementationPhase c;
     stakeholders := stakeholders c;
     decisions := decisions c;
     openIssues := openIssues c ++ [i] |}.

(* ===================================================================== *)
(** ** Context extraction *)
(* ===================================================================== *)

(** The loop shared by the five [extract...FromMessage] helpers: split the
    text into sentences and return the first one, trimmed, whose lowercased
    text includes one of three keywords; [null] when none does. *)
Definition sentenceMatches (k1 k2 k3 : string) (sentence : string) : bool :=
  JS.includes (JS.toLowerCase sentence) k1
  || JS.includes (JS.toLowerCase sentence) k2
  || JS.includes (JS.toLowerCase sentence) k3.

Fixpoint firstMatching (k1 k2 k3 : string) (sentences : list string) : option string :=
  match sentences with
  | [] => None
  | sentence :: rest =>
      if sentenceMatches k1 k2 k3 sentence then Some (JS.trim sentence)
      else firstMatching k1 k2 k3 rest
  end.

Definition extractRequirementFromMessage (content : string) : option string :=
  firstMatching "requirement" "need" "must" (JS.splitSentences content).

Definition extractTechnicalSpecFromMessage (content : string) : option string :=
  firstMatching "system" "technical" "integration" (JS.splitSentences content).

Definition extractStakeholderFromMessage (content : string) : option string :=
  firstMatching "team" "user" "stakeholder" (JS.splitSentences content).

Definition extractDecisionFromMessage (content : string) : option string :=
  firstMatching "decide" "choose" "select" (JS.splitSentences content).

Definition extractIssueFromMessage (content : string) : option string :=
  firstMatching "issue" "problem" "challenge" (JS.splitSentences content).

(** The steps of [updateContextFromMessage], in the order of the source.
    [lc] is [message.content.toLowerCase()]. *)

(** Detect implementation phase: one [if / else if] chain. *)
Definition detectPhase (lc : string) (c : SessionContext) : SessionContext :=
  if JS.includes lc "requirement" || JS.includes lc "analyze" then
    set_phase requirements c
  else if JS.includes lc "design" || JS.includes lc "architect" then
    set_phase design c
  else if JS.includes lc "implement" || JS.includes lc "configure" then
    set_phase implementation c
  else if JS.includes lc "test" || JS.includes lc "validate" then
    set_phase testing c
  else if JS.includes lc "deploy" || JS.includes lc "go-live" then
    set_phase deployment c
  else c.

Definition extractBusinessRequirements (lc : string) (m : Message)
    (c : SessionContext) : SessionContext :=
  if JS.includes lc "business"
     && (JS.includes lc "requirement" || JS.includes lc "process") then
    let requirement := extractRequirementFromMessage (content m) in
    match requirement with
    | Some r =>
        if JS.truthy requirement && negb (JS.arrayIncludes (businessRequirements c) r)
        then push_businessRequirement r c else c
    | None => c
    end
  else c.

Definition extractTechnicalSpecs (lc : string) (m : Message)
    (c : SessionContext) : SessionContext :=
  if JS.includes lc "technical" || JS.includes lc "system"
     || JS.includes lc "integration" then
    let techSpec := extractTechnicalSpecFromMessage (content m) in
    match techSpec with
    | Some t =>
        if JS.truthy techSpec && negb (JS.arrayIncludes (technicalSpecs c) t)
        then push_technicalSpec t c else c
    | None => c
    end
  else c.

Definition extractStakeholders (lc : string) (m : Message)
    (c : SessionContext) : SessionContext :=
  if JS.includes lc "stakeholder" || JS.includes lc "team"
     || JS.includes lc "user" then
    let stakeholder := extractStakeholderFromMessage (content m) in
    match stakeholder with
    | Some t =>
        if JS.truthy stakeholder && negb (JS.arrayIncludes (stakeholders c) t)
        then push_stakeholder t c else c
    | None => c
    end
  else c.

Definition extractDecisions (lc : string) (m : Message)
    (c : SessionContext) : SessionContext :=
  if JS.includes lc "decide" || JS.includes lc "choose"
     || JS.includes lc "select" then
    let found := extractDecisionFromMessage (content m) in
    match found with
    | Some d =>
        if JS.truthy found then
          push_decision {| decision := d;
                           decision_timestamp := timestamp m;
                           decision_messageId := msg_id m |} c
        else c
    | None => c
    end
  else c.

Definition extractOpenIssues (lc : string) (m : Message)
    (c : SessionContext) : SessionContext :=
  if JS.includes lc "issue" || JS.includes lc "problem"
     || JS.includes lc "challenge" then
    let found := extractIssueFromMessage (content m) in
    match found with
    | Some i =>
        if JS.truthy found then
          push_openIssue {| issue := i;
                            issue_timestamp := timestamp m;
                            status := open;
                            issue_messageId := msg_id m;
                            resolvedAt := None |} c
        else c
    | None => c
    end
  else c.

(** [updateContextFromMessage(session, message)], on the context. *)
Definition updateContext (m : Message) (c : SessionContext) : SessionContext :=
  let lc := JS.toLowerCase (content m) in
  extractOpenIssues lc m
    (extractDecisions lc m
      (extractStakeholders lc m
        (extractTechnicalSpecs lc m
          (extractBusinessRequirements lc m
            (detectPhase lc c))))).

Definition updateContextFromMessage (session : Session) (message : Message) : Session :=
  with_context (updateContext message) session.

(* ===================================================================== *)
(** ** The session store *)
(* ===================================================================== *)

(** [initializeSession(sessionId, persona = 'general')] *)
Definition initializeSession (sessionId persona0 : string) (now : Z)
    (cm : ConversationMemory) : Session * ConversationMemory :=
  let session :=
    {| session_id := sessionId;
       persona := persona0;
       messages := [];
       session_context :=
         {| currentProject := None;
            businessRequirements := [];
            technicalSpecs := [];
            implementationPhase := discovery;
            stakeholders := [];
            decisions := [];
            openIssues := [] |};
       session_metadata :=
         {| createdAt := now;
            lastActivity := now;
            messageCount := 0;
            analysisResults := [];
            generatedArtifacts := [] |} |} in
  (session, with_conversations (insert sessionId session) cm).

(** The three statements of [addMessage] that touch the session before the
    context is extracted: push, stamp and count, then trim. *)
Definition pushMessage (maxLen : Z) (now : Z) (messageObj : Message)
    (session : Session) : Session :=
  let pushed := messages session ++ [messageObj] in
  {| session_id := session_id session;
     persona := persona session;
     messages :=
       if Z.of_nat (length pushed) >? maxLen
       then JS.slice pushed (- maxLen)
       else pushed;
     session_context := session_context session;
     session_metadata :=
       {| createdAt := createdAt (session_metadata session);
          lastActivity := now;
          messageCount := S (messageCount (session_metadata session));
          analysisResults := analysisResults (session_metadata session);
          generatedArtifacts := generatedArtifacts (session_metadata session) |} |}.

(** [addMessage(sessionId, message, role = 'user')] *)
Definition addMessage (sessionId message role0 : string) (now : Z) (rnd : string)
    (cm : ConversationMemory) : Message * ConversationMemory :=
  let '(session, cm1) :=
    match conversations cm !! sessionId with
    | Some session => (session, cm)
    | None => initializeSession sessionId "general" now cm
    end in
  let messageObj :=
    {| msg_id := "msg_" +:+ JS.intToString now +:+ "_" +:+ rnd;
       role := role0;
       content := message;
       timestamp := now;
       msg_metadata :=
         {| snapshot_persona := persona session;
            snapshot_phase := implementationPhase (session_context session) |} |} in
  let session1 := pushMessage (maxHistoryLength cm1) now messageObj session in
  let session2 := updateContextFromMessage session1 messageObj in
  (messageObj, with_conversations (insert sessionId session2) cm1).

(** [getConversationHistory(sessionId, limit = null)]; [if (limit)] is false
    for [null] and for [0]. *)
Definition getConversationHistory (sessionId : string) (limit : option Z)
    (cm : ConversationMemory) : list Message :=
  match conversations cm !! sessionId with
  | None => []
  | Some session =>
      match limit with
      | Some l => if l =? 0 then messages session else JS.slice (messages session) (- l)
      | None => messages session
      end
  end.

Record SessionSnapshot := {
  snap_sessionId : string;
  snap_persona : string;
  snap_context : SessionContext;
  snap_metadata : SessionMetadata;
  recentMessages : list Message
}.

(** [getSessionContext(sessionId)] *)
Definition getSessionContext (sessionId : string) (cm : ConversationMemory)
    : option SessionSnapshot :=
  match conversations cm !! sessionId with
  | None => None
  | Some session =>
      Some {| snap_sessionId := sessionId;
              snap_persona := persona session;
              snap_context := session_context session;
              snap_metadata := session_metadata session;
              recentMessages := JS.slice (messages session) (-10) |}
  end.

(** [updatePersona(sessionId, newPersona)] *)
Definition updatePersona (sessionId newPersona : string) (now : Z)
    (cm : ConversationMemory) : bool * ConversationMemory :=
  match conversations cm !! sessionId with
  | None => (false, cm)
  | Some session =>
      let session' :=
        {| session_id := session_id session;
           persona := newPersona;
           messages := messages session;
           session_context := session_context session;
           session_metadata :=
             {| createdAt := createdAt (session_metadata session);
                lastActivity := now;
                messageCount := messageCount (session_metadata session);
                analysisResults := analysisResults (session_metadata session);
                generatedArtifacts := generatedArtifacts (session_metadata session) |} |} in
      (true, with_conversations (insert sessionId session') cm)
  end.

(** [cleanupExpiredSessions()]: collect the ids of the expired sessions
    while iterating over the entries, delete them, return how many. *)
Definition isExpired (now timeout : Z) (session : Session) : bool :=
  let timeSinceLastActivity := now - lastActivity (session_metadata session) in
  timeSinceLastActivity >? timeout.

Definition cleanupExpiredSessions (now : Z) (cm : ConversationMemory)
    : nat * ConversationMemory :=
  let expiredSessions :=
    (map_to_list (conversations cm))
      ≫= (λ entry, if isExpired now (sessionTimeout cm) entry.2
                     then [entry.1] else []) in
  let conversations' :=
    foldl (λ m sessionId, delete sessionId m) (conversations cm) expiredSessions in
  (length expiredSessions, with_conversations (λ _, conversations') cm).

(* ===================================================================== *)
(** ** The context summary *)
(* ===================================================================== *)

Section Summary.

(** [`${date}`], that is [Date.prototype.toString], depends on the locale
    and the time zone of the host. *)
Variable dateToString : Z → string.

Record SummaryMessage := {
  sm_role : string;
  sm_content : string;
  sm_timestamp : Z
}.

(** The [summary] object of [generateContextSummary]. *)
Record Summary := {
  sum_persona : string;
  sum_phase : Phase;
  sum_messageCount : nat;
  sum_businessRequirements : list string;
  sum_technicalSpecs : list string;
  sum_recentDecisions : list Decision;
  sum_openIssues : list Issue;
  sum_recentMessages : list SummaryMessage
}.

Definition summarizeMessage (msg : Message) : SummaryMessage :=
  {| sm_role := role msg;
     sm_content :=
       JS.substring (content msg) 0 200
       +:+ (if (200 <? String.length (content msg))%nat then "..." else "");
     sm_timestamp := timestamp msg |}.

Definition buildSummary (session : Session) : Summary :=
  {| sum_persona := persona session;
     sum_phase := implementationPhase (session_context session);
     sum_messageCount := messageCount (session_metadata session);
     sum_businessRequirements :=
       JS.slice (businessRequirements (session_context session)) (-5);
     sum_technicalSpecs :=
       JS.slice (technicalSpecs (session_context session)) (-3);
     sum_recentDecisions :=
       JS.slice (decisions (session_context session)) (-3);
     sum_openIssues :=
       JS.slice
         (filter (λ i, status i = open) (openIssues (session_context session)))
         (-3);
     sum_recentMessages :=
       summarizeMessage <$> JS.slice (messages session) (-5) |}.

(** The template literal. *)
Definition renderSummary (summary : Summary) : string :=
  JS.newline +:+
  "CONVERSATION CONTEXT:" +:+ JS.newline +:+
  "- Current Persona: " +:+ sum_persona summary +:+ JS.newline +:+
  "- Implementation Phase: " +:+ phaseName (sum_phase summary) +:+ JS.newline +:+
  "- Total Messages: " +:+ JS.natToString (sum_messageCount summary) +:+ JS.newline +:+
  JS.newline +:+
  "BUSINESS REQUIREMENTS IDENTIFIED:" +:+ JS.newline +:+
  JS.join JS.newline
    ((λ req, "- " +:+ req) <$> sum_businessRequirements summary) +:+ JS.newline +:+
  JS.newline +:+
  "TECHNICAL SPECIFICATIONS:" +:+ JS.newline +:+
  JS.join JS.newline
    ((λ spec, "- " +:+ spec) <$> sum_technicalSpecs summary) +:+ JS.newline +:+
  JS.newline +:+
  "RECENT DECISIONS:" +:+ JS.newline +:+
  JS.join JS.newline
    ((λ dec, "- " +:+ decision dec +:+ " ("
               +:+ dateToString (decision_timestamp dec) +:+ ")")
       <$> sum_recentDecisions summary) +:+ JS.newline +:+
  JS.newline +:+
  "OPEN ISSUES:" +:+ JS.newline +:+
  JS.join JS.newline
    ((λ i, "- " +:+ issue i +:+ " ("
             +:+ dateToString (issue_timestamp i) +:+ ")")
       <$> sum_openIssues summary) +:+ JS.newline +:+
  JS.newline +:+
  "RECENT CONVERSATION:" +:+ JS.newline +:+
  JS.join JS.newline
    ((λ msg, sm_role msg +:+ ": " +:+ sm_content msg)
       <$> sum_recentMessages summary) +:+ JS.newline +:+
  "    ".

(** [generateContextSummary(sessionId)] *)
Definition generateContextSummary (sessionId : string) (cm : ConversationMemory)
    : string :=
  match conversations cm !! sessionId with
  | None => "No previous context available."
  | Some session => renderSummary (buildSummary session)
  end.

End Summary.

(* ===================================================================== *)
(** ** Exceptions *)
(* ===================================================================== *)

(** The outcome of evaluating code that may throw: a value, or the message
    of the [Error] thrown. *)
Inductive Completion (A : Type) :=
  | Normal (a : A)
  | Throw (message : string).
Arguments Normal {A} a.
Arguments Throw {A} message.

Definition bindC {A B} (c : Completion A) (k : A → Completion B) : Completion B :=
  match c with
  | Normal a => k a
  | Throw e => Throw e
  end.

(** [try { body } catch (error) { handler(error.message) }] *)
Definition tryCatch {A} (body : Completion A) (handler : string → Completion A)
    : Completion A :=
  match body with
  | Normal a => Normal a
  | Throw e => handler e
  end.

Notation "x ←! c ;; k" := (bindC c (λ x, k))
  (at level 100, c at next level, right associativity).

Fixpoint mapC {A B} (f : A → Completion B) (l : list A) : Completion (list B) :=
  match l with
  | [] => Normal []
  | a :: l' => b ←! f a ;; bs ←! mapC f l' ;; Normal (b :: bs)
  end.

(* ===================================================================== *)
(** ** The chat orchestrator, [GroqService.chat] *)
(* ===================================================================== *)

Module Groq.

(** A property that is present holds [null] or a value of the expected
    type. The default of a destructuring pattern applies to an absent
    property only, so [null] is kept. *)
Inductive Nullable (A : Type) :=
  | JsNull
  | JsValue (a : A).
Arguments JsNull {A}.
Arguments JsValue {A} a.

#[global] Instance Nullable_eq_dec {A} `{EqDecision A} : EqDecision (Nullable A).
Proof. solve_decision. Defined.

(** The [context] option; the orchestrator reads its [type] only and
    hands the value to the prompt templates. *)
Record PromptContext := { context_type : option string }.

(** A provider message [{role, content}]. *)
Record ChatMessage := { chat_role : string; chat_content : string }.

(** The options object; an absent property, [None], takes the default of
    the destructuring pattern, a [null] one does not. An entry of the
    history that is [null] or [undefined] is [None]. *)
Record ChatOptions := {
  opt_persona : option (Nullable string);
  opt_context : option (Nullable PromptContext);
  opt_conversationHistory : option (Nullable (list (option ChatMessage)));
  opt_maxTokens : option (Nullable nat)
}.

(** The completion request, without its constant sampling parameters. *)
Record ProviderRequest := {
  req_messages : list ChatMessage;
  req_model : string;
  req_max_tokens : Nullable nat
}.

Record ChoiceMessage := { choice_content : option string }.
Record Choice := { choice_message : option ChoiceMessage }.
Record Usage := { total_tokens : option nat }.
Record ProviderResponse := {
  choices : option (list Choice);
  usage : option Usage
}.

(** What the provider's promise does within the 30 seconds of the race:
    it settles, fulfilled or rejected, or it is still pending when the
    timer fires. *)
Inductive Settlement :=
  | Settled (outcome : Completion ProviderResponse)
  | Pending.

(** The [prompts] module: a template may be missing, and may throw. *)
Record PromptLibrary := {
  sapConsultantPrompt : option (Nullable PromptContext → Completion string);
  erpAnalystPrompt : option (Nullable PromptContext → Completion string);
  technicalArchitectPrompt : option (Nullable PromptContext → Completion string);
  businessAnalystPrompt : option (Nullable PromptContext → Completion string);
  implementationSpecialistPrompt :
    option (Nullable PromptContext → Completion string);
  generalERPPrompt : option (Nullable PromptContext → Completion string)
}.

(** The metadata of a reply: the object of the normal return, or the
    object of the [catch] block, the only one with [error: true]. *)
Inductive ReplyMetadata :=
  | ReplyInfo (persona0 : Nullable string) (model : string) (tokensUsed : nat)
              (responseTime : Z) (context0 : string)
  | ReplyError (errorMessage : string).


Record ChatReply := {
  reply_content : string;
  reply_metadata : ReplyMetadata;
  suggestions : list string
}.

Definition apologyText : string :=
  "I apologize, but I encountered an error processing your request. Please try again.".

Definition timeoutMessage : string := "Groq API timeout after 30 seconds".
Definition emptyMessage : string := "No content in Groq response".
Definition nullLengthMessage : string :=
  "Cannot read properties of null (reading 'length')".
Definition nullTypeMessage : string :=
  "Cannot read properties of null (reading 'type')".

(** The defaults of the destructuring patterns of [chat] and of the chat
    route. *)
Definition defaultPersona : Nullable string := JsValue "general".
Definition defaultContext : Nullable PromptContext :=
  JsValue {| context_type := None |}.

(** [context.type]: reading a property of [null] throws. *)
Definition readContextType (context0 : Nullable PromptContext)
    : Completion (option string) :=
  match context0 with
  | JsNull => Throw nullTypeMessage
  | JsValue c => Normal (context_type c)
  end.

Section Service.

Variable prompts : PromptLibrary.
Variable create : ProviderRequest → Settlement.
Variable defaultModel : string.
(** [Date.now() - startTime] *)
Variable responseTime : Z.

Definition promptOr (template : option (Nullable PromptContext → Completion string))
    (fallback : string) (context0 : Nullable PromptContext) : Completion string :=
  match template with
  | Some f => f context0
  | None => Normal fallback
  end.

(** [getSystemPrompt(persona, context)]: its own [try / catch] falls
    back to a fixed prompt, so an error of a template ends there and the
    call itself raises nothing. *)
Definition getSystemPrompt (persona0 : Nullable string)
    (context0 : Nullable PromptContext) : string :=
  let attempt :=
    if bool_decide (persona0 = JsValue "sap_consultant") then
      promptOr (sapConsultantPrompt prompts) "You are EVA, a SAP consultant." context0
    else if bool_decide (persona0 = JsValue "erp_analyst") then
      promptOr (erpAnalystPrompt prompts) "You are EVA, an ERP analyst." context0
    else if bool_decide (persona0 = JsValue "technical_architect") then
      promptOr (technicalArchitectPrompt prompts)
        "You are EVA, a technical architect." context0
    else if bool_decide (persona0 = JsValue "business_analyst") then
      promptOr (businessAnalystPrompt prompts)
        "You are EVA, a business analyst." context0
    else if bool_decide (persona0 = JsValue "implementation_specialist") then
      promptOr (implementationSpecialistPrompt prompts)
        "You are EVA, an implementation specialist." context0
    else
      promptOr (generalERPPrompt prompts)
        "You are EVA, an expert ERP assistant." context0 in
  match attempt with
  | Normal p => p
  | Throw _ =>
      "You are EVA, an expert ERP assistant. Help the user with their ERP-related questions."
  end.

(** [buildDirectMessages]; reading [msg.role] of a [null] entry throws. *)
Definition buildDirectMessages (systemPrompt : string)
    (conversationHistory : list (option ChatMessage)) (currentMessage : string)
    : Completion (list ChatMessage) :=
  history ←! mapC (λ msg : option ChatMessage,
               match msg with
               | Some m => Normal {| chat_role := chat_role m;
                                     chat_content := chat_content m |}
               | None => Throw "Cannot read properties of undefined (reading 'role')"
               end) conversationHistory ;;
  Normal ({| chat_role := "system"; chat_content := systemPrompt |}
            :: history
            ++ [{| chat_role := "user"; chat_content := currentMessage |}]).

(** [Promise.race([create(request), timeout])] *)
Definition raceWithTimeout (request : ProviderRequest) : Completion ProviderResponse :=
  match create request with
  | Settled outcome => outcome
  | Pending => Throw timeoutMessage
  end.

(** [response.choices[0]?.message?.content] *)
Definition firstChoiceContent (response : ProviderResponse) : Completion (option string) :=
  match choices response with
  | None => Throw "Cannot read properties of undefined (reading '0')"
  | Some [] => Normal None
  | Some (c :: _) =>
      Normal (match choice_message c with
              | Some m => choice_content m
              | None => None
              end)
  end.

Definition generateSAPSuggestions : list string :=
  ["Explore SAP modules integration"; "Review technical specifications";
   "Consider customization options"; "Plan implementation timeline"].

Definition generateAnalysisSuggestions : list string :=
  ["Analyze business requirements"; "Review current processes";
   "Identify improvement areas"; "Estimate implementation costs"].

(** [processResponse(content, persona, context)] *)
Definition processResponse (content0 : string) (persona0 : Nullable string)
    : string * list string :=
  (content0,
   if bool_decide (persona0 = JsValue "sap_consultant") then generateSAPSuggestions
   else if bool_decide (persona0 = JsValue "erp_analyst")
        then generateAnalysisSuggestions
        else []).

(** The messages of the request, from the options and their defaults. The
    log line before them reads [conversationHistory.length], which throws
    for a history that is [null]. *)
Definition builtMessages (message : string) (options : ChatOptions)
    : Completion (list ChatMessage) :=
  let persona0 := default defaultPersona (opt_persona options) in
  let context0 := default defaultContext (opt_context options) in
  match default (JsValue []) (opt_conversationHistory options) with
  | JsNull => Throw nullLengthMessage
  | JsValue conversationHistory =>
      let systemPrompt := getSystemPrompt persona0 context0 in
      buildDirectMessages systemPrompt conversationHistory message
  end.

Definition requestOf (options : ChatOptions) (messages0 : list ChatMessage)
    : ProviderRequest :=
  let maxTokens := default (JsValue 4000%nat) (opt_maxTokens options) in
  {| req_messages := messages0;
     req_model := defaultModel;
     req_max_tokens := maxTokens |}.

(** The [try] block of [chat]. The logging statements are left out; those
    before the [try] do not throw for a string message and a plain options
    object. *)
Definition chatBody (message : string) (options : ChatOptions) : Completion ChatReply :=
  let persona0 := default defaultPersona (opt_persona options) in
  let context0 := default defaultContext (opt_context options) in
  messages0 ←! builtMessages message options ;;
  response ←! raceWithTimeout (requestOf options messages0) ;;
  found ←! firstChoiceContent response ;;
  match found with
  | Some content0 =>
      if JS.truthy found then
        let processed := processResponse content0 persona0 in
        contextType ←! readContextType context0 ;;
        Normal {| reply_content := processed.1;
                  reply_metadata :=
                    ReplyInfo persona0 defaultModel
                      (match usage response with
                       | Some u => default 0%nat (total_tokens u)
                       | None => 0%nat
                       end)
                      responseTime
                      (match contextType with
                       | Some t => if JS.truthy (Some t) then t else "general"
                       | None => "general"
                       end);
                  suggestions := processed.2 |}
      else Throw emptyMessage
  | None => Throw emptyMessage
  end.


(** The reply of the [catch] block. *)
Definition errorReply (errorMessage : string) : ChatReply :=
  {| reply_content := apologyText;
     reply_metadata := ReplyError errorMessage;
     suggestions := [] |}.

(** [chat(message, options)] *)
Definition chat (message : string) (options : ChatOptions) : Completion ChatReply :=
  tryCatch (chatBody message options) (λ e, Normal (errorReply e)).

End Service.

End Groq.

(* ===================================================================== *)
(** ** The chat router's clear handler *)
(* ===================================================================== *)

Module ChatRoutes.

(** The members the class body of [ConversationMemory] declares. *)
Inductive Member :=
  | m_initializeSession | m_addMessage | m_getConversationHistory
  | m_getSessionContext | m_updateContextFromMessage
  | m_extractRequirementFromMessage | m_extractTechnicalSpecFromMessage
  | m_extractStakeholderFromMessage | m_extractDecisionFromMessage
  | m_extractIssueFromMessage | m_addAnalysisResult | m_addGeneratedArtifact
  | m_updatePersona | m_generateContextSummary | m_resolveIssue
  | m_cleanupExpiredSessions | m_exportSession | m_getConversationStats.

Definition memberNames : list (string * Member) :=
  [("initializeSession", m_initializeSession);
   ("addMessage", m_addMessage);
   ("getConversationHistory", m_getConversationHistory);
   ("getSessionContext", m_getSessionContext);
   ("updateContextFromMessage", m_updateContextFromMessage);
   ("extractRequirementFromMessage", m_extractRequirementFromMessage);
   ("extractTechnicalSpecFromMessage", m_extractTechnicalSpecFromMessage);
   ("extractStakeholderFromMessage", m_extractStakeholderFromMessage);
   ("extractDecisionFromMessage", m_extractDecisionFromMessage);
   ("extractIssueFromMessage", m_extractIssueFromMessage);
   ("addAnalysisResult", m_addAnalysisResult);
   ("addGeneratedArtifact", m_addGeneratedArtifact);
   ("updatePersona", m_updatePersona);
   ("generateContextSummary", m_generateContextSummary);
   ("resolveIssue", m_resolveIssue);
   ("cleanupExpiredSessions", m_cleanupExpiredSessions);
   ("exportSession", m_exportSession);
   ("getConversationStats", m_getConversationStats)].

(** Property lookup [conversationMemory.name] on the instance. *)
Definition getMember (name : string) : option Member :=
  snd <$> List.find (λ entry, bool_decide (entry.1 = name)) memberNames.

(** The JSON body sent: [{success: true, message}] or [{error, message}]. *)
Inductive ResponseBody :=
  | SuccessBody (message : string)
  | ErrorBody (error message : string).

Record HttpResponse := {
  http_status : nat;
  http_body : ResponseBody
}.

Section Router.

(** What a declared member does when called with the given arguments:
    it completes or throws, and leaves a memory behind. *)
Variable invoke :
  Member → list string → ConversationMemory → Completion unit * ConversationMemory.

(** [conversationMemory.name(...args)]: calling a property that is
    [undefined] throws a [TypeError] before anything else happens. *)
Definition callMethod (name : string) (args : list string)
    (cm : ConversationMemory) : Completion unit * ConversationMemory :=
  match getMember name with
  | Some m => invoke m args cm
  | None => (Throw ("conversationMemory." +:+ name +:+ " is not a function"), cm)
  end.

(** [router.delete('/clear/:sessionId', ...)] *)
Definition clearRoute (sessionId : string) (cm : ConversationMemory)
    : HttpResponse * ConversationMemory :=
  match callMethod "clearMemory" [sessionId] cm with
  | (Normal _, cm') =>
      ({| http_status := 200;
          http_body := SuccessBody "Conversation cleared successfully" |}, cm')
  | (Throw _, cm') =>
      ({| http_status := 500;
          http_body := ErrorBody "Failed to clear conversation"
                         "Unable to clear conversation history" |}, cm')
  end.

End Router.

End ChatRoutes.

(* ===================================================================== *)
(** ** Definitions used to state the properties *)
(* ===================================================================== *)

(** The phase checks in the order in which [updateContextFromMessage]
    lists them, each with its two keywords. *)
Definition phaseChecks : list (Phase * (string * string)) :=
  [(requirements, ("requirement", "analyze"));
   (design, ("design", "architect"));
   (implementation, ("implement", "configure"));
   (testing, ("test", "validate"));
   (deployment, ("deploy", "go-live"))].

Definition checkMatches (lc : string) (chk : Phase * (string * string)) : bool :=
  JS.includes lc chk.2.1 || JS.includes lc chk.2.2.

(** The last [n] elements of a list, in their order. *)
Definition lastN {A} (n : nat) (l : list A) : list A :=
  drop (length l - n) l.

(** A message object with the given text, as [addMessage] builds it. *)
Definition messageOf (text : string) (now : Z) (rnd : string) (session : Session)
    : Message :=
  {| msg_id := "msg_" +:+ JS.intToString now +:+ "_" +:+ rnd;
     role := "user";
     content := text;
     timestamp := now;
     msg_metadata :=
       {| snapshot_persona := persona session;
          snapshot_phase := implementationPhase (session_context session) |} |}.

(** The session [initializeSession] creates. *)
Definition freshSession (sessionId : string) (now : Z) : Session :=
  (initializeSession sessionId "general" now newConversationMemory).1.

(** The content of a summary as the specification words it: a text of at
    most 200 characters is kept, a longer one is cut to its first 200
    characters and "..." is appended. *)
Definition truncate200 (text : string) : string :=
  if (String.length text <=? 200)%nat then text
  else String.substring 0 200 text +:+ "...".

(** The fields of the summary as the specification lists them. *)
Definition specSummary (session : Session) : Summary :=
  {| sum_persona := persona session;
     sum_phase := implementationPhase (session_context session);
     sum_messageCount := messageCount (session_metadata session);
     sum_businessRequirements :=
       lastN 5 (businessRequirements (session_context session));
     sum_technicalSpecs := lastN 3 (technicalSpecs (session_context session));
     sum_recentDecisions := lastN 3 (decisions (session_context session));
     sum_openIssues :=
       lastN 3 (filter (λ i, status i = open) (openIssues (session_context session)));
     sum_recentMessages :=
       (λ msg, {| sm_role := role msg;
                  sm_content := truncate200 (content msg);
                  sm_timestamp := timestamp msg |})
         <$> lastN 5 (messages session) |}.

(** A text without sentence separators, and a text with a character that
    [trim] does not remove. *)
Fixpoint sepFree (s : string) : bool :=
  match s with
  | EmptyString => true
  | String c s' => negb (JS.isSep c) && sepFree s'
  end.

Fixpoint hasInk (s : string) : bool :=
  match s with
  | EmptyString => false
  | String c s' => negb (JS.isWhite c) || hasInk s'
  end.

(** A text of 210 characters. *)
Definition longText : string :=
  String.concat "" (replicate 21 "0123456789").

(** A text that triggers every extraction step. *)
Definition busyText : string :=
  "We decide that the business requirement is a system for the team".

(** One call of [addMessage], with what it reads from the clock and from
    the random source. *)
Record AddCall := {
  call_sessionId : string;
  call_message : string;
  call_role : string;
  call_now : Z;
  call_rnd : string
}.

(** A sequence of [addMessage] calls on a memory: the message objects the
    calls return, each with the session id of its call, and the memory the
    calls leave. *)
Fixpoint addMessages (calls : list AddCall) (cm : ConversationMemory)
    : list (string * Message) * ConversationMemory :=
  match calls with
  | [] => ([], cm)
  | c :: rest =>
      let added :=
        addMessage (call_sessionId c) (call_message c) (call_role c)
          (call_now c) (call_rnd c) cm in
      let run := addMessages rest added.2 in
      ((call_sessionId c, added.1) :: run.1, run.2)
  end.

(** The messages appended to one session, oldest first. *)
Definition returnedFor (sessionId : string) (log : list (string * Message))
    : list Message :=
  (filter (λ entry : string * Message, entry.1 = sessionId) log).*2.

Definition messagesOf (cm : ConversationMemory) (sessionId : string) : list Message :=
  match conversations cm !! sessionId with
  | Some session => messages session
  | None => []
  end.

Definition messageCountOf (cm : ConversationMemory) (sessionId : string) : nat :=
  match conversations cm !! sessionId with
  | Some session => messageCount (session_metadata session)
  | None => 0
  end.

(** Fifty-one appends to the session "s1", one per millisecond. *)
Definition fiftyOneCalls : list AddCall :=
  (λ i, {| call_sessionId := "s1"; call_message := "hello"; call_role := "user";
           call_now := Z.of_nat i; call_rnd := "r" |}) <$> seq 1 51.

Definition multiCurrencyText : string :=
  "We need a business requirement that the system must support multi-currency,".

Definition multiCurrencyTextBare : string :=
  "We need a business requirement that the system must support multi-currency".

(** What the guarded push of the three de-duplicated lists does to the list. *)
Definition dedupPush (l : list string) (found : option string) : list string :=
  match found with
  | Some r => if JS.truthy found && negb (JS.arrayIncludes l r) then l ++ [r] else l
  | None => l
  end.

(** The trigger conditions of the extraction steps. *)
Definition businessTrigger (lc : string) : bool :=
  JS.includes lc "business"
  && (JS.includes lc "requirement" || JS.includes lc "process").

Definition technicalTrigger (lc : string) : bool :=
  JS.includes lc "technical" || JS.includes lc "system"
  || JS.includes lc "integration".

Definition stakeholderTrigger (lc : string) : bool :=
  JS.includes lc "stakeholder" || JS.includes lc "team" || JS.includes lc "user".

Definition decisionTrigger (lc : string) : bool :=
  JS.includes lc "decide" || JS.includes lc "choose" || JS.includes lc "select".

(* ===================================================================== *)
(** ** The remaining methods of [ConversationMemory] *)
(* ===================================================================== *)

Definition with_metadata (f : SessionMetadata → SessionMetadata) (s : Session) : Session :=
  {| session_id := session_id s; persona := persona s; messages := messages s;
     session_context := session_context s;
     session_metadata := f (session_metadata s) |}.

(** [addAnalysisResult(sessionId, analysisType, result)]; [None] is the
    [false] returned for an unknown session. *)
Definition addAnalysisResult (sessionId analysisType result : string) (now : Z)
    (rnd : string) (cm : ConversationMemory) : option Artifact * ConversationMemory :=
  match conversations cm !! sessionId with
  | None => (None, cm)
  | Some session =>
      let analysisResult :=
        {| artifact_id := "analysis_" +:+ JS.intToString now +:+ "_" +:+ rnd;
           artifact_type := analysisType;
           artifact_payload := result;
           artifact_timestamp := now |} in
      let session' :=
        with_metadata
          (λ md, {| createdAt := createdAt md;
                    lastActivity := lastActivity md;
                    messageCount := messageCount md;
                    analysisResults := analysisResults md ++ [analysisResult];
                    generatedArtifacts := generatedArtifacts md |}) session in
      (Some analysisResult, with_conversations (insert sessionId session') cm)
  end.

(** [addGeneratedArtifact(sessionId, artifactType, artifact)] *)
Definition addGeneratedArtifact (sessionId artifactType artifact : string) (now : Z)
    (rnd : string) (cm : ConversationMemory) : option Artifact * ConversationMemory :=
  match conversations cm !! sessionId with
  | None => (None, cm)
  | Some session =>
      let generatedArtifact :=
        {| artifact_id := "artifact_" +:+ JS.intToString now +:+ "_" +:+ rnd;
           artifact_type := artifactType;
           artifact_payload := artifact;
           artifact_timestamp := now |} in
      let session' :=
        with_metadata
          (λ md, {| createdAt := createdAt md;
                    lastActivity := lastActivity md;
                    messageCount := messageCount md;
                    analysisResults := analysisResults md;
                    generatedArtifacts := generatedArtifacts md ++ [generatedArtifact] |})
          session in
      (Some generatedArtifact, with_conversations (insert sessionId session') cm)
  end.

(** [openIssues.find(i => i.messageId === issueId)] followed by the two
    assignments to the issue found: the first issue with that message id
    becomes resolved; [None] when there is none. *)
Fixpoint resolveFirst (issueId : string) (now : Z) (issues : list Issue)
    : option (list Issue) :=
  match issues with
  | [] => None
  | i :: rest =>
      if bool_decide (issue_messageId i = issueId) then
        Some ({| issue := issue i;
                 issue_timestamp := issue_timestamp i;
                 status := resolved;
                 issue_messageId := issue_messageId i;
                 resolvedAt := Some now |} :: rest)
      else cons i <$> resolveFirst issueId now rest
  end.

Definition set_openIssues (issues : list Issue) (c : SessionContext) : SessionContext :=
  {| currentProject := currentProject c;
     businessRequirements := businessRequirements c;
     technicalSpecs := technicalSpecs c;
     implementationPhase := implementationPhase c;
     stakeholders := stakeholders c;
     decisions := decisions c;
     openIssues := issues |}.

(** [resolveIssue(sessionId, issueId)] *)
Definition resolveIssue (sessionId issueId : string) (now : Z)
    (cm : ConversationMemory) : bool * ConversationMemory :=
  match conversations cm !! sessionId with
  | None => (false, cm)
  | Some session =>
      match resolveFirst issueId now (openIssues (session_context session)) with
      | Some issues' =>
          (true,
           with_conversations
             (insert sessionId (with_context (set_openIssues issues') session)) cm)
      | None => (false, cm)
      end
  end.

Record ConversationStats := {
  stats_sessionId : string;
  stats_persona : string;
  totalMessages : nat;
  userMessages : nat;
  assistantMessages : nat;
  stats_businessRequirements : nat;
  stats_technicalSpecs : nat;
  stats_decisions : nat;
  stats_openIssues : nat;
  resolvedIssues : nat;
  stats_analysisResults : nat;
  stats_generatedArtifacts : nat;
  sessionDuration : Z;
  currentPhase : Phase
}.

(** [getConversationStats(sessionId)] *)
Definition getConversationStats (sessionId : string) (now : Z)
    (cm : ConversationMemory) : option ConversationStats :=
  match conversations cm !! sessionId with
  | None => None
  | Some session =>
      Some
        {| stats_sessionId := sessionId;
           stats_persona := persona session;
           totalMessages := messageCount (session_metadata session);
           userMessages :=
             length (filter (λ m, role m = "user") (messages session));
           assistantMessages :=
             length (filter (λ m, role m = "assistant") (messages session));
           stats_businessRequirements :=
             length (businessRequirements (session_context session));
           stats_technicalSpecs := length (technicalSpecs (session_context session));
           stats_decisions := length (decisions (session_context session));
           stats_openIssues :=
             length (filter (λ i, status i = open)
                       (openIssues (session_context session)));
           resolvedIssues :=
             length (filter (λ i, status i = resolved)
                       (openIssues (session_context session)));
           stats_analysisResults :=
             length (analysisResults (session_metadata session));
           stats_generatedArtifacts :=
             length (generatedArtifacts (session_metadata session));
           sessionDuration := now - createdAt (session_metadata session);
           currentPhase := implementationPhase (session_context session) |}
  end.

(** [exportSession(sessionId)] *)
Definition exportSession (sessionId : string) (now : Z) (cm : ConversationMemory)
    : option (Z * Session) :=
  match conversations cm !! sessionId with
  | None => None
  | Some session => Some (now, session)
  end.

(** The trigger of the issue step. *)
Definition issueTrigger (lc : string) : bool :=
  JS.includes lc "issue" || JS.includes lc "problem" || JS.includes lc "challenge".

(** An entry as the extraction records it: not empty, without a sentence
    separator, and with no white space at either end. *)
Definition cleanEntry (r : string) : Prop :=
  r ≠ "" ∧ sepFree r = true ∧ JS.trim r = r.

(** The entries of the five lists of a context. *)
Definition contextEntries (c : SessionContext) : list string :=
  businessRequirements c ++ technicalSpecs c ++ stakeholders c
  ++ (decision <$> decisions c) ++ (issue <$> openIssues c).

(** [t] occurs in [s]: [s] is [t] between two other texts. *)
Definition occursIn (t s : string) : Prop :=
  ∃ pre post, s = pre +:+ t +:+ post.

(** A text whose first character, if any, is not white space. *)
Definition noLeadingWhite (s : string) : bool :=
  match s with
  | EmptyString => true
  | String c _ => negb (JS.isWhite c)
  end.

(** Three appends to two sessions. *)
Definition threeCalls : list AddCall :=
  [{| call_sessionId := "s1"; call_message := busyText; call_role := "user";
      call_now := 1; call_rnd := "a" |};
   {| call_sessionId := "s2"; call_message := "There is a problem. Fix it!";
      call_role := "assistant"; call_now := 2; call_rnd := "b" |};
   {| call_sessionId := "s1"; call_message := busyText; call_role := "user";
      call_now := 3; call_rnd := "c" |}].

(** An issue after [issue.status = 'resolved'; issue.resolvedAt = new Date()]. *)
Definition markResolved (now : Z) (i : Issue) : Issue :=
  {| issue := issue i;
     issue_timestamp := issue_timestamp i;
     status := resolved;
     issue_messageId := issue_messageId i;
     resolvedAt := Some now |}.

(** The issues a memory holds for a session id: none for an unknown one. *)
Definition issuesOf (cm : ConversationMemory) (sessionId : string) : list Issue :=
  match conversations cm !! sessionId with
  | Some session => openIssues (session_context session)
  | None => []
  end.

(* ===================================================================== *)
(** ** [GroqService.directChat], [generateResponse] and the ERP reply parser *)
(* ===================================================================== *)

Module GroqDirect.

(** The options of [directChat]; an absent property takes its default.
    The temperature is left out, as in the request of [chat]. *)
Record DirectOptions := {
  opt_model : option string;
  opt_maxTokens : option nat;
  opt_stream : option bool
}.

Record DirectRequest := {
  dreq_messages : list Groq.ChatMessage;
  dreq_model : string;
  dreq_max_tokens : nat;
  dreq_stream : bool
}.

(** What [directChat] returns: the response object itself when streaming
    was asked for, else the content of the first choice, which may be
    [undefined]. A stream is a response object without [choices]. *)
Inductive DirectResult :=
  | ReturnedResponse (response : Groq.ProviderResponse)
  | ReturnedContent (content0 : option string).

Definition directTimeoutMessage : string := "Direct chat timeout after 30 seconds".

Section Direct.

Variable create : DirectRequest → Groq.Settlement.
Variable defaultModel : string.

Definition raceDirect (request : DirectRequest) : Completion Groq.ProviderResponse :=
  match create request with
  | Groq.Settled outcome => outcome
  | Groq.Pending => Throw directTimeoutMessage
  end.

Definition directRequestOf (messages0 : list Groq.ChatMessage) (options : DirectOptions)
    : DirectRequest :=
  {| dreq_messages := messages0;
     dreq_model := default defaultModel (opt_model options);
     dreq_max_tokens := default 4000%nat (opt_maxTokens options);
     dreq_stream := default false (opt_stream options) |}.

(** [directChat(messages, options)]: whatever is thrown inside is thrown
    again with a prefix. *)
Definition directChat (messages0 : list Groq.ChatMessage) (options : DirectOptions)
    : Completion DirectResult :=
  tryCatch
    (response ←! raceDirect (directRequestOf messages0 options) ;;
     if default false (opt_stream options) then Normal (ReturnedResponse response)
     else
       found ←! Groq.firstChoiceContent response ;;
       Normal (ReturnedContent found))
    (λ e, Throw ("Direct chat failed: " +:+ e)).

(** [generateResponse(prompt, options)] *)
Definition generateResponse (prompt : string) (options : DirectOptions)
    : Completion DirectResult :=
  tryCatch
    (directChat [{| Groq.chat_role := "user"; Groq.chat_content := prompt |}] options)
    (λ e, Throw ("Response generation failed: " +:+ e)).

End Direct.

End GroqDirect.

Module ERPReply.

(** [text.split('\n')] *)
Fixpoint splitLines (s : string) : list string :=
  match s with
  | EmptyString => [EmptyString]
  | String c s' =>
      if bool_decide (c = ascii_of_N 10) then EmptyString :: splitLines s'
      else
        match splitLines s' with
        | p :: ps => String c p :: ps
        | [] => [String c EmptyString]
        end
  end.

Inductive SectionName := sec_main | sec_analysis | sec_recommendations | sec_nextSteps.

(** The [sections] object: a property that was never assigned is [None]. *)
Record Sections := {
  main : option string;
  analysis : option string;
  recommendations : option string;
  nextSteps : option string
}.

Definition noSections : Sections :=
  {| main := None; analysis := None; recommendations := None; nextSteps := None |}.

(** [sections[name] = text] *)
Definition setSection (name : SectionName) (text : string) (sections : Sections)
    : Sections :=
  match name with
  | sec_main =>
      {| main := Some text; analysis := analysis sections;
         recommendations := recommendations sections; nextSteps := nextSteps sections |}
  | sec_analysis =>
      {| main := main sections; analysis := Some text;
         recommendations := recommendations sections; nextSteps := nextSteps sections |}
  | sec_recommendations =>
      {| main := main sections; analysis := analysis sections;
         recommendations := Some text; nextSteps := nextSteps sections |}
  | sec_nextSteps =>
      {| main := main sections; analysis := analysis sections;
         recommendations := recommendations sections; nextSteps := Some text |}
  end.

(** The section a line opens, by the [if / else if] chain of the loop. *)
Definition headerOf (line : string) : option SectionName :=
  let lowerLine := JS.toLowerCase line in
  if JS.includes lowerLine "analysis:" || JS.includes lowerLine "## analysis" then
    Some sec_analysis
  else if JS.includes lowerLine "recommendations:"
          || JS.includes lowerLine "## recommendations" then
    Some sec_recommendations
  else if JS.includes lowerLine "next steps:"
          || JS.includes lowerLine "## next steps" then
    Some sec_nextSteps
  else None.

(** The [forEach] over the lines and the assignment after it. *)
Fixpoint scanLines (lines : list string) (sections : Sections)
    (currentSection : SectionName) (currentContent : list string) : Sections :=
  match lines with
  | [] => setSection currentSection (JS.join JS.newline currentContent) sections
  | line :: rest =>
      match headerOf line with
      | Some next =>
          scanLines rest
            (setSection currentSection (JS.join JS.newline currentContent) sections)
            next []
      | None => scanLines rest sections currentSection (currentContent ++ [line])
      end
  end.

(** [extractSections(content)]; [None] is a content that is not a string,
    on which [split] throws and the [catch] stores the content as [main]. *)
Definition extractSections (content0 : option string) : Sections :=
  match content0 with
  | Some text => scanLines (splitLines text) noSections sec_main []
  | None => noSections
  end.

Record ParsedReply := {
  parsed_content : option string;
  parsed_analysis : option string;
  parsed_recommendations : option string;
  parsed_nextSteps : option string
}.

(** [a || b] on texts that may be [undefined]. *)
Definition orElse (a b : option string) : option string :=
  if JS.truthy a then a else b.

(** [parseERPResponse(content, module)]; for [analysis] the value [None] is
    the [null] of the source, for the two lists it is the empty array. *)
Definition parseERPResponse (content0 : option string) : ParsedReply :=
  let sections := extractSections content0 in
  {| parsed_content := orElse (main sections) content0;
     parsed_analysis := orElse (analysis sections) None;
     parsed_recommendations := orElse (recommendations sections) None;
     parsed_nextSteps := orElse (nextSteps sections) None |}.

(** The lines before the first line that opens a section. *)
Fixpoint linesBeforeHeader (lines : list string) : list string :=
  match lines with
  | [] => []
  | line :: rest =>
      match headerOf line with
      | Some _ => []
      | None => line :: linesBeforeHeader rest
      end
  end.

End ERPReply.

(* ===================================================================== *)
(** ** The chat route, with the message arrays as shared objects *)
(* ===================================================================== *)

(** [getConversationHistory] returns the [messages] array of the session
    itself, and [addMessage] pushes onto that array. The chat route holds
    on to the array across the push, so here an array is an object at an
    address, and a session holds the address of its messages. *)
Module Refs.

Record SessionRef := {
  ref_id : string;
  ref_persona : string;
  ref_messages : nat;
  ref_context : SessionContext;
  ref_metadata : SessionMetadata
}.

Record MemoryRef := {
  ref_conversations : gmap string SessionRef;
  arrays : gmap nat (list Message);
  ref_maxHistoryLength : Z;
  ref_sessionTimeout : Z
}.


Definition with_arrays (f : gmap nat (list Message) → gmap nat (list Message))
    (mr : MemoryRef) : MemoryRef :=
  {| ref_conversations := ref_conversations mr;
     arrays := f (arrays mr);
     ref_maxHistoryLength := ref_maxHistoryLength mr;
     ref_sessionTimeout := ref_sessionTimeout mr |}.

Definition with_sessions (f : gmap string SessionRef → gmap string SessionRef)
    (mr : MemoryRef) : MemoryRef :=
  {| ref_conversations := f (ref_conversations mr);
     arrays := arrays mr;
     ref_maxHistoryLength := ref_maxHistoryLength mr;
     ref_sessionTimeout := ref_sessionTimeout mr |}.

(** The contents of the array at an address. *)
Definition readArray (a : nat) (mr : MemoryRef) : list Message :=
  default [] (arrays mr !! a).

(** An array literal or the result of [slice]: a new object. *)
Definition newArray (contents : list Message) (mr : MemoryRef) : nat * MemoryRef :=
  let a := fresh (dom (arrays mr)) in
  (a, with_arrays (insert a contents) mr).

(** [initializeSession(sessionId, persona)] *)
Definition initializeSession (sessionId persona0 : string) (now : Z) (mr : MemoryRef)
    : SessionRef * MemoryRef :=
  let allocated := newArray [] mr in
  let session :=
    {| ref_id := sessionId;
       ref_persona := persona0;
       ref_messages := allocated.1;
       ref_context :=
         {| currentProject := None; businessRequirements := [];
            technicalSpecs := []; implementationPhase := discovery;
            stakeholders := []; decisions := []; openIssues := [] |};
       ref_metadata :=
         {| createdAt := now; lastActivity := now; messageCount := 0;
            analysisResults := []; generatedArtifacts := [] |} |} in
  (session, with_sessions (insert sessionId session) allocated.2).

(** [session.messages.push(messageObj)], which changes the array at [a] in
    place, and the trim, which makes a new array when the cap is exceeded:
    the address the session holds afterwards, and the memory. *)
Definition pushAndTrim (messageObj : Message) (a : nat) (mr1 : MemoryRef)
    : nat * MemoryRef :=
  let mr2 := with_arrays (insert a (readArray a mr1 ++ [messageObj])) mr1 in
  if Z.of_nat (length (readArray a mr2)) >? ref_maxHistoryLength mr2
  then newArray (JS.slice (readArray a mr2) (- ref_maxHistoryLength mr2)) mr2
  else (a, mr2).

(** [addMessage(sessionId, message, role)] *)
Definition addMessage (sessionId message role0 : string) (now : Z) (rnd : string)
    (mr : MemoryRef) : Message * MemoryRef :=
  let found :=
    match ref_conversations mr !! sessionId with
    | Some session => (session, mr)
    | None => initializeSession sessionId "general" now mr
    end in
  let session := found.1 in
  let messageObj :=
    {| msg_id := "msg_" +:+ JS.intToString now +:+ "_" +:+ rnd;
       role := role0;
       content := message;
       timestamp := now;
       msg_metadata :=
         {| snapshot_persona := ref_persona session;
            snapshot_phase := implementationPhase (ref_context session) |} |} in
  let trimmed := pushAndTrim messageObj (ref_messages session) found.2 in
  let session' :=
    {| ref_id := ref_id session;
       ref_persona := ref_persona session;
       ref_messages := trimmed.1;
       ref_context := updateContext messageObj (ref_context session);
       ref_metadata :=
         {| createdAt := createdAt (ref_metadata session);
            lastActivity := now;
            messageCount := S (messageCount (ref_metadata session));
            analysisResults := analysisResults (ref_metadata session);
            generatedArtifacts := generatedArtifacts (ref_metadata session) |} |} in
  (messageObj, with_sessions (insert sessionId session') trimmed.2).

(** [getConversationHistory(sessionId, limit)]: the address of the array
    returned, which is the session's own array when no limit applies. *)
Definition getConversationHistory (sessionId : string) (limit : option Z)
    (mr : MemoryRef) : nat * MemoryRef :=
  match ref_conversations mr !! sessionId with
  | None => newArray [] mr
  | Some session =>
      match limit with
      | Some l =>
          if l =? 0 then (ref_messages session, mr)
          else newArray (JS.slice (readArray (ref_messages session) mr) (- l)) mr
      | None => (ref_messages session, mr)
      end
  end.

(** A session with the contents of its array in place of the address. *)
Definition viewSession (mr : MemoryRef) (session : SessionRef) : Session :=
  {| session_id := ref_id session;
     persona := ref_persona session;
     messages := readArray (ref_messages session) mr;
     session_context := ref_context session;
     session_metadata := ref_metadata session |}.

Definition view (mr : MemoryRef) : ConversationMemory :=
  {| conversations := viewSession mr <$> ref_conversations mr;
     maxHistoryLength := ref_maxHistoryLength mr;
     sessionTimeout := ref_sessionTimeout mr |}.

(** The body of a chat request with a string message and session id; as
    in the options of [chat], a property that is absent is [None] and one
    that is [null] is kept. *)
Record ChatBody := {
  body_message : string;
  body_sessionId : string;
  body_persona : option (Groq.Nullable string);
  body_context : option (Groq.Nullable Groq.PromptContext)
}.


(** What [chat] reads of a stored message. *)
Definition toChatMessage (m : Message) : Groq.ChatMessage :=
  {| Groq.chat_role := role m; Groq.chat_content := content m |}.

Section ChatRoute.

Variable prompts : Groq.PromptLibrary.
Variable create : Groq.ProviderRequest → Groq.Settlement.
Variable defaultModel : string.
Variable responseTime : Z.

(** The handler up to the call of [chat]: the history is fetched, the user
    message is added, and the options are built from the array fetched as
    it is by then. *)
Definition routeOptions (body : ChatBody) (now : Z) (rnd : string) (mr : MemoryRef)
    : Groq.ChatOptions * MemoryRef :=
  let persona0 := default Groq.defaultPersona (body_persona body) in
  let context0 := default Groq.defaultContext (body_context body) in
  let fetched := getConversationHistory (body_sessionId body) None mr in
  let history := fetched.1 in
  let mr2 :=
    (addMessage (body_sessionId body) (body_message body) "user" now rnd fetched.2).2 in
  ({| Groq.opt_persona := Some persona0;
      Groq.opt_context := Some context0;
      Groq.opt_conversationHistory :=
        Some (Groq.JsValue ((λ m, Some (toChatMessage m)) <$> readArray history mr2));
      Groq.opt_maxTokens := None |}, mr2).


End ChatRoute.

End Refs.

(* ===================================================================== *)
(** ** The input validators and the session ids of the auth middleware *)
(* ===================================================================== *)

Module Validators.

(** The values a field of a request body may hold. Numbers are taken to be
    integers, and [VObject] stands for an array or a plain object, which has
    no [trim] member. *)
Inductive Value :=
  | VUndefined
  | VNull
  | VBool (b : bool)
  | VNumber (n : Z)
  | VString (s : string)
  | VObject.

(** [!!v] *)
Definition truthyValue (v : Value) : bool :=
  match v with
  | VUndefined | VNull => false
  | VBool b => b
  | VNumber n => negb (n =? 0)
  | VString s => negb (bool_decide (s = EmptyString))
  | VObject => true
  end.

(** [typeof v !== 'object'] *)
Definition notAnObject (v : Value) : bool :=
  match v with
  | VNull | VObject => false
  | _ => true
  end.

Record MessageValidation := {
  mv_isValid : bool;
  mv_errors : list string;
  mv_sanitized : option string
}.

Definition messageRequired : string := "Message is required".
Definition messageNotString : string := "Message must be a string".
Definition messageEmpty : string := "Message cannot be empty".
Definition messageTooLong : string := "Message too long (max 10,000 characters)".

(** [validateMessage(message)]. On a truthy value that is not a string the
    call [message.trim()] raises a TypeError. *)
Definition validateMessage (message : Value) : Completion MessageValidation :=
  if negb (truthyValue message)
  then Normal {| mv_isValid := false; mv_errors := [messageRequired];
                 mv_sanitized := None |}
  else
    let errors1 :=
      match message with VString _ => [] | _ => [messageNotString] end in
    match message with
    | VString s =>
        let errors2 :=
          errors1 ++ (if (String.length (JS.trim s) =? 0)%nat
                      then [messageEmpty] else []) in
        let errors3 :=
          errors2 ++ (if Z.of_nat (String.length s) >? 10000
                      then [messageTooLong] else []) in
        Normal {| mv_isValid := (length errors3 =? 0)%nat;
                  mv_errors := errors3;
                  mv_sanitized := Some (JS.trim s) |}
    | _ => Throw "message.trim is not a function"
    end.

Record PersonaValidation := {
  pv_isValid : bool;
  pv_errors : option (list string);
  pv_sanitized : string
}.

Definition validPersonas : list string :=
  ["sap_consultant"; "oracle_specialist"; "dynamics_expert"; "erp_architect";
   "implementation_lead"].

(** [validatePersona(persona)] for a persona that is a string or absent. *)
Definition validatePersona (persona : option string) : PersonaValidation :=
  if negb (JS.truthy persona)
  then {| pv_isValid := true; pv_errors := None; pv_sanitized := "sap_consultant" |}
  else
    let name := default "" persona in
    if negb (JS.arrayIncludes validPersonas name)
    then {| pv_isValid := false;
            pv_errors :=
              Some ["Invalid persona. Must be one of: " +:+ JS.join ", " validPersonas];
            pv_sanitized := "sap_consultant" |}
    else {| pv_isValid := true; pv_errors := None; pv_sanitized := name |}.

(** The character classes of the UUID pattern, which is matched without
    regard to case. *)
Definition isDigit (c : ascii) : bool :=
  let n := N_of_ascii c in ((48 <=? n) && (n <=? 57))%N.

Definition isHex (c : ascii) : bool :=
  let n := N_of_ascii c in
  (((48 <=? n) && (n <=? 57)) || ((97 <=? n) && (n <=? 102))
   || ((65 <=? n) && (n <=? 70)))%N.

Definition isDash (c : ascii) : bool := bool_decide (c = "-"%char).
Definition isFour (c : ascii) : bool := bool_decide (c = "4"%char).

Definition isVariant (c : ascii) : bool :=
  bool_decide (c ∈ ["8"; "9"; "a"; "b"; "A"; "B"]%char).

(** [/^[0-9a-f]{8}-[0-9a-f]{4}-4[0-9a-f]{3}-[89ab][0-9a-f]{3}-[0-9a-f]{12}$/i]:
    one class for each of the 36 characters. *)
Definition uuidClasses : list (ascii → bool) :=
  replicate 8 isHex ++ [isDash] ++ replicate 4 isHex ++ [isDash; isFour]
  ++ replicate 3 isHex ++ [isDash; isVariant] ++ replicate 3 isHex ++ [isDash]
  ++ replicate 12 isHex.

Fixpoint matchClasses (classes : list (ascii → bool)) (s : string) : bool :=
  match classes, s with
  | [], EmptyString => true
  | class :: classes', String c s' => class c && matchClasses classes' s'
  | _, _ => false
  end.

(** [uuidRegex.test(conversationId)] *)
Definition uuidTest (conversationId : string) : bool :=
  matchClasses uuidClasses conversationId.

Record ConversationIdValidation := {
  cv_isValid : bool;
  cv_errors : option (list string);
  cv_sanitized : option string
}.

Definition invalidConversationId : string := "Invalid conversation ID format".

(** [validateConversationId(conversationId)] for an id that is a string or
    absent. *)
Definition validateConversationId (conversationId : option string)
    : ConversationIdValidation :=
  if negb (JS.truthy conversationId)
  then {| cv_isValid := true; cv_errors := None; cv_sanitized := None |}
  else
    let id := default "" conversationId in
    if negb (uuidTest id)
    then {| cv_isValid := false; cv_errors := Some [invalidConversationId];
            cv_sanitized := None |}
    else {| cv_isValid := true; cv_errors := None; cv_sanitized := Some id |}.

(** The request data [validateChatInput] reads, for data that is an object. *)
Record ChatInput := {
  in_message : Value;
  in_persona : option string;
  in_sessionId : option string;
  in_conversationId : option string;
  in_context : Value
}.

Record SanitizedChatInput := {
  san_message : Value;
  san_persona : string;
  san_sessionId : option string;
  san_context : Value
}.

Record ChatInputValidation := {
  civ_isValid : bool;
  civ_errors : list string;
  civ_sanitized : SanitizedChatInput
}.

(** [a || b] on ids *)
Definition orElseId (a b : option string) : option string :=
  if JS.truthy a then a else b.

(** [validateChatInput(data)] *)
Definition validateChatInput (data : ChatInput) : Completion ChatInputValidation :=
  messageValidation ←! validateMessage (in_message data) ;;
  let errors1 :=
    if negb (mv_isValid messageValidation) then mv_errors messageValidation else [] in
  let personaValidation := validatePersona (in_persona data) in
  let errors2 :=
    errors1 ++ (if negb (pv_isValid personaValidation)
                then default [] (pv_errors personaValidation) else []) in
  let conversationValidation :=
    validateConversationId (orElseId (in_sessionId data) (in_conversationId data)) in
  let errors3 :=
    errors2 ++ (if negb (cv_isValid conversationValidation)
                then default [] (cv_errors conversationValidation) else []) in
  let errors4 :=
    errors3 ++ (if truthyValue (in_context data) && notAnObject (in_context data)
                then ["Context must be an object"] else []) in
  Normal {| civ_isValid := (length errors4 =? 0)%nat;
            civ_errors := errors4;
            civ_sanitized :=
              {| san_message :=
                   if JS.truthy (mv_sanitized messageValidation)
                   then VString (default "" (mv_sanitized messageValidation))
                   else in_message data;
                 san_persona := pv_sanitized personaValidation;
                 san_sessionId := cv_sanitized conversationValidation;
                 san_context := in_context data |} |}.

End Validators.

Module Auth.

(** [generateSessionId()]: [now] is [Date.now()] and [rnd] is
    [Math.random().toString(36).substring(2)]. *)
Definition generateSessionId (now : Z) (rnd : string) : string :=
  "eva_" +:+ JS.intToString now +:+ "_" +:+ rnd.

Definition isLowerAlnum (c : ascii) : bool :=
  let n := N_of_ascii c in
  (((48 <=? n) && (n <=? 57)) || ((97 <=? n) && (n <=? 122)))%N.

Fixpoint allChars (p : ascii → bool) (s : string) : bool :=
  match s with
  | EmptyString => true
  | String c s' => p c && allChars p s'
  end.

(** What is left of a text after its leading digits. *)
Fixpoint skipDigits (s : string) : string :=
  match s with
  | EmptyString => EmptyString
  | String c s' => if Validators.isDigit c then skipDigits s' else s
  end.

(** [/^eva_\d+_[a-z0-9]+$/.test(sessionId)] *)
Definition isValidSessionId (sessionId : string) : bool :=
  match sessionId with
  | String "e" (String "v" (String "a" (String "_" rest))) =>
      match rest with
      | String d _ =>
          Validators.isDigit d
          && match skipDigits rest with
             | String "_" tail =>
                 negb (bool_decide (tail = EmptyString)) && allChars isLowerAlnum tail
             | _ => false
             end
      | EmptyString => false
      end
  | _ => false
  end.

End Auth.

(* ===================================================================== *)
(** ** The summary text as the specification describes it *)
(* ===================================================================== *)

(** The lines of the items of a section: one line for each item, and one
    empty line when there is none. *)
Definition itemLines {A} (render : A → string) (items : list A) : list string :=
  match items with
  | [] => [""]
  | _ => render <$> items
  end.

(** A section of the summary: an empty line, the heading, and the lines
    of the items. *)
Definition sectionLines {A} (heading : string) (render : A → string)
    (items : list A) : list string :=
  "" :: heading :: itemLines render items.

(** The summary, line by line: the fixed template with the persona, the
    phase and the message count, then the last 5 business requirements,
    the last 3 technical specifications, the last 3 decisions with their
    timestamps, the last 3 of the issues whose status is open with their
    timestamps, and the last 5 messages with their contents cut to 200
    characters. *)
Definition specSummaryLines (dateToString : Z → string) (session : Session)
    : list string :=
  [""; "CONVERSATION CONTEXT:";
   "- Current Persona: " +:+ persona session;
   "- Implementation Phase: "
     +:+ phaseName (implementationPhase (session_context session));
   "- Total Messages: " +:+ JS.natToString (messageCount (session_metadata session))]
  ++ sectionLines "BUSINESS REQUIREMENTS IDENTIFIED:" (λ req, "- " +:+ req)
       (lastN 5 (businessRequirements (session_context session)))
  ++ sectionLines "TECHNICAL SPECIFICATIONS:" (λ spec, "- " +:+ spec)
       (lastN 3 (technicalSpecs (session_context session)))
  ++ sectionLines "RECENT DECISIONS:"
       (λ dec, "- " +:+ decision dec +:+ " ("
                 +:+ dateToString (decision_timestamp dec) +:+ ")")
       (lastN 3 (decisions (session_context session)))
  ++ sectionLines "OPEN ISSUES:"
       (λ i, "- " +:+ issue i +:+ " (" +:+ dateToString (issue_timestamp i) +:+ ")")
       (lastN 3 (filter (λ i, status i = open) (openIssues (session_context session))))
  ++ sectionLines "RECENT CONVERSATION:"
       (λ msg, role msg +:+ ": " +:+ truncate200 (content msg))
       (lastN 5 (messages session))
  ++ ["    "].

Definition specSummaryText (dateToString : Z → string) (session : Session) : string :=
  JS.join JS.newline (specSummaryLines dateToString session).

(** The items the specification lists for the summary of a session; a
    decision and an issue come with their timestamps, a message with its
    role. *)
Definition specSummaryItems (dateToString : Z → string) (session : Session)
    : list string :=
  [persona session;
   phaseName (implementationPhase (session_context session));
   JS.natToString (messageCount (session_metadata session))]
  ++ lastN 5 (businessRequirements (session_context session))
  ++ lastN 3 (technicalSpecs (session_context session))
  ++ (lastN 3 (decisions (session_context session))
        ≫= λ dec, [decision dec; dateToString (decision_timestamp dec)])
  ++ (lastN 3 (filter (λ i, status i = open) (openIssues (session_context session)))
        ≫= λ i, [issue i; dateToString (issue_timestamp i)])
  ++ (lastN 5 (messages session)
        ≫= λ msg, [role msg; truncate200 (content msg)]).

(* ===================================================================== *)
(** ** The built-ins on small inputs *)
(* ===================================================================== *)

Example split_ex1 : JS.splitSentences "a.b" = ["a"; "b"].
Proof. reflexivity. Qed.
Example split_ex2 : JS.splitSentences "Hi there!? ok." = ["Hi there"; " ok"; ""].
Proof. reflexivity. Qed.
Example split_ex3 : JS.splitSentences ".." = [""; ""].
Proof. reflexivity. Qed.
Example trim_ex : JS.trim "  a b  " = "a b".
Proof. reflexivity. Qed.
Example slice_ex1 : JS.slice [1;2;3;4]%nat (-2) = [3;4]%nat.
Proof. reflexivity. Qed.
Example slice_ex2 : JS.slice [1;2;3;4]%nat (-0) = [1;2;3;4]%nat.
Proof. reflexivity. Qed.
Example lower_ex : JS.toLowerCase "Go-LIVE Now" = "go-live now".
Proof. reflexivity. Qed.
Example includes_ex : JS.includes "we must deploy" "deploy" = true.
Proof. reflexivity. Qed.
Example substring_ex : JS.substring "abcdef" 0 3 = "abc".
Proof. reflexivity. Qed.
Example natToString_ex : JS.natToString 51 = "51".
Proof. reflexivity. Qed.

(* ===================================================================== *)
(** ** The extraction on the examples of the specification *)
(* ===================================================================== *)

Example design_then_test :
  let s0 := freshSession "s1" 0 in
  let s1 := updateContextFromMessage s0
              (messageOf "Let's design the architecture" 1 "a" s0) in
  let s2 := updateContextFromMessage s1
              (messageOf "Now let's test and validate" 2 "b" s1) in
  implementationPhase (session_context s1) = design
  ∧ implementationPhase (session_context s2) = testing.
Proof. vm_compute. split; reflexivity. Qed.

Example decision_then_issue :
  let s0 := freshSession "s1" 0 in
  let s1 := updateContextFromMessage s0
              (messageOf "We decided to choose SAP over Oracle" 1 "a" s0) in
  let s2 := updateContextFromMessage s1
              (messageOf "There's an issue with data migration" 2 "b" s1) in
  (decision <$> decisions (session_context s2))
    = ["We decided to choose SAP over Oracle"]
  ∧ ((λ i, (issue i, status i)) <$> openIssues (session_context s2))
    = [("There's an issue with data migration", open)].
Proof. vm_compute. split; reflexivity. Qed.

Example first_sentence_only :
  extractRequirementFromMessage "Hello. We need SAP!  It must scale."
  = Some "We need SAP".
Proof. reflexivity. Qed.

Example addMessage_creates_session :
  let added := addMessage "s1" "Please analyze this" "user" 7 "x1" newConversationMemory in
  msg_id added.1 = "msg_7_x1"
  ∧ snapshot_phase (msg_metadata added.1) = discovery
  ∧ (implementationPhase ∘ session_context <$> conversations added.2 !! "s1")
    = Some requirements
  ∧ (messageCount ∘ session_metadata <$> conversations added.2 !! "s1") = Some 1%nat.
Proof. vm_compute. repeat split; reflexivity. Qed.

(* ===================================================================== *)
(** ** Context extraction: which field each step touches *)
(* ===================================================================== *)

Ltac step_cases := repeat case_match; simpl; repeat split; reflexivity.

Lemma detectPhase_find lc c :
  detectPhase lc c =
  match List.find (checkMatches lc) phaseChecks with
  | Some chk => set_phase chk.1 c
  | None => c
  end.
Proof.
  unfold detectPhase, phaseChecks, checkMatches; simpl.
  repeat case_match; simplify_eq; reflexivity.
Qed.

Lemma find_first_match {A} (P : A → bool) (earlier later : list A) (x : A) :
  P x = true →
  (∀ e, e ∈ earlier → P e = false) →
  List.find P (earlier ++ x :: later) = Some x.
Proof.
  intros Hx. induction earlier as [|e earlier IH]; intros Hearlier; simpl.
  - by rewrite Hx.
  - rewrite (Hearlier e) by left. apply IH.
    intros e' He'. apply Hearlier. by right.
Qed.

Lemma detectPhase_frame lc c :
  businessRequirements (detectPhase lc c) = businessRequirements c
  ∧ technicalSpecs (detectPhase lc c) = technicalSpecs c
  ∧ stakeholders (detectPhase lc c) = stakeholders c
  ∧ decisions (detectPhase lc c) = decisions c
  ∧ openIssues (detectPhase lc c) = openIssues c.
Proof. unfold detectPhase. step_cases. Qed.

Lemma extractBusinessRequirements_frame lc m c :
  implementationPhase (extractBusinessRequirements lc m c) = implementationPhase c
  ∧ technicalSpecs (extractBusinessRequirements lc m c) = technicalSpecs c
  ∧ stakeholders (extractBusinessRequirements lc m c) = stakeholders c
  ∧ decisions (extractBusinessRequirements lc m c) = decisions c
  ∧ openIssues (extractBusinessRequirements lc m c) = openIssues c.
Proof. unfold extractBusinessRequirements. step_cases. Qed.

Lemma extractTechnicalSpecs_frame lc m c :
  implementationPhase (extractTechnicalSpecs lc m c) = implementationPhase c
  ∧ businessRequirements (extractTechnicalSpecs lc m c) = businessRequirements c
  ∧ stakeholders (extractTechnicalSpecs lc m c) = stakeholders c
  ∧ decisions (extractTechnicalSpecs lc m c) = decisions c
  ∧ openIssues (extractTechnicalSpecs lc m c) = openIssues c.
Proof. unfold extractTechnicalSpecs. step_cases. Qed.

Lemma extractStakeholders_frame lc m c :
  implementationPhase (extractStakeholders lc m c) = implementationPhase c
  ∧ businessRequirements (extractStakeholders lc m c) = businessRequirements c
  ∧ technicalSpecs (extractStakeholders lc m c) = technicalSpecs c
  ∧ decisions (extractStakeholders lc m c) = decisions c
  ∧ openIssues (extractStakeholders lc m c) = openIssues c.
Proof. unfold extractStakeholders. step_cases. Qed.

Lemma extractDecisions_frame lc m c :
  implementationPhase (extractDecisions lc m c) = implementationPhase c
  ∧ businessRequirements (extractDecisions lc m c) = businessRequirements c
  ∧ technicalSpecs (extractDecisions lc m c) = technicalSpecs c
  ∧ stakeholders (extractDecisions lc m c) = stakeholders c
  ∧ openIssues (extractDecisions lc m c) = openIssues c.
Proof. unfold extractDecisions. step_cases. Qed.

Lemma extractOpenIssues_frame lc m c :
  implementationPhase (extractOpenIssues lc m c) = implementationPhase c
  ∧ businessRequirements (extractOpenIssues lc m c) = businessRequirements c
  ∧ technicalSpecs (extractOpenIssues lc m c) = technicalSpecs c
  ∧ stakeholders (extractOpenIssues lc m c) = stakeholders c
  ∧ decisions (extractOpenIssues lc m c) = decisions c.
Proof. unfold extractOpenIssues. step_cases. Qed.

(** What each step does to its own field. *)
Lemma extractBusinessRequirements_own lc m c :
  businessRequirements (extractBusinessRequirements lc m c)
  = if businessTrigger lc
    then dedupPush (businessRequirements c) (extractRequirementFromMessage (content m))
    else businessRequirements c.
Proof.
  unfold extractBusinessRequirements, businessTrigger, dedupPush. step_cases.
Qed.

Lemma extractTechnicalSpecs_own lc m c :
  technicalSpecs (extractTechnicalSpecs lc m c)
  = if technicalTrigger lc
    then dedupPush (technicalSpecs c) (extractTechnicalSpecFromMessage (content m))
    else technicalSpecs c.
Proof.
  unfold extractTechnicalSpecs, technicalTrigger, dedupPush. step_cases.
Qed.

Lemma extractStakeholders_own lc m c :
  stakeholders (extractStakeholders lc m c)
  = if stakeholderTrigger lc
    then dedupPush (stakeholders c) (extractStakeholderFromMessage (content m))
    else stakeholders c.
Proof.
  unfold extractStakeholders, stakeholderTrigger, dedupPush. step_cases.
Qed.

Lemma extractDecisions_own lc m c :
  decisions (extractDecisions lc m c)
  = if decisionTrigger lc
    then match extractDecisionFromMessage (content m) with
         | Some d =>
             if JS.truthy (Some d)
             then decisions c ++ [{| decision := d;
                                     decision_timestamp := timestamp m;
                                     decision_messageId := msg_id m |}]
             else decisions c
         | None => decisions c
         end
    else decisions c.
Proof.
  unfold extractDecisions, decisionTrigger. step_cases.
Qed.

(** The same facts for the whole of [updateContext]. *)
Ltac frame_rewrite :=
  repeat first
    [ rewrite (proj1 (extractOpenIssues_frame _ _ _))
    | rewrite (proj1 (proj2 (extractOpenIssues_frame _ _ _)))
    | rewrite (proj1 (proj2 (proj2 (extractOpenIssues_frame _ _ _))))
    | rewrite (proj1 (proj2 (proj2 (proj2 (extractOpenIssues_frame _ _ _)))))
    | rewrite (proj2 (proj2 (proj2 (proj2 (extractOpenIssues_frame _ _ _)))))
    | rewrite (proj1 (extractDecisions_frame _ _ _))
    | rewrite (proj1 (proj2 (extractDecisions_frame _ _ _)))
    | rewrite (proj1 (proj2 (proj2 (extractDecisions_frame _ _ _))))
    | rewrite (proj1 (proj2 (proj2 (proj2 (extractDecisions_frame _ _ _)))))
    | rewrite (proj1 (extractStakeholders_frame _ _ _))
    | rewrite (proj1 (proj2 (extractStakeholders_frame _ _ _)))
    | rewrite (proj1 (proj2 (proj2 (extractStakeholders_frame _ _ _))))
    | rewrite (proj1 (proj2 (proj2 (proj2 (extractStakeholders_frame _ _ _)))))
    | rewrite (proj1 (extractTechnicalSpecs_frame _ _ _))
    | rewrite (proj1 (proj2 (extractTechnicalSpecs_frame _ _ _)))
    | rewrite (proj1 (proj2 (proj2 (extractTechnicalSpecs_frame _ _ _))))
    | rewrite (proj1 (proj2 (proj2 (proj2 (extractTechnicalSpecs_frame _ _ _)))))
    | rewrite (proj1 (extractBusinessRequirements_frame _ _ _))
    | rewrite (proj1 (proj2 (extractBusinessRequirements_frame _ _ _)))
    | rewrite (proj1 (proj2 (proj2 (extractBusinessRequirements_frame _ _ _))))
    | rewrite (proj1 (proj2 (proj2 (proj2 (extractBusinessRequirements_frame _ _ _)))))
    | rewrite (proj1 (detectPhase_frame _ _))
    | rewrite (proj1 (proj2 (detectPhase_frame _ _)))
    | rewrite (proj1 (proj2 (proj2 (detectPhase_frame _ _))))
    | rewrite (proj1 (proj2 (proj2 (proj2 (detectPhase_frame _ _))))) ].

Lemma updateContext_phase m c :
  implementationPhase (updateContext m c)
  = implementationPhase (detectPhase (JS.toLowerCase (content m)) c).
Proof. unfold updateContext. by frame_rewrite. Qed.

Lemma updateContext_businessRequirements m c :
  businessRequirements (updateContext m c)
  = if businessTrigger (JS.toLowerCase (content m))
    then dedupPush (businessRequirements c) (extractRequirementFromMessage (content m))
    else businessRequirements c.
Proof.
  unfold updateContext. frame_rewrite.
  rewrite extractBusinessRequirements_own. by frame_rewrite.
Qed.

Lemma updateContext_technicalSpecs m c :
  technicalSpecs (updateContext m c)
  = if technicalTrigger (JS.toLowerCase (content m))
    then dedupPush (technicalSpecs c) (extractTechnicalSpecFromMessage (content m))
    else technicalSpecs c.
Proof.
  unfold updateContext. frame_rewrite.
  rewrite extractTechnicalSpecs_own. by frame_rewrite.
Qed.

Lemma updateContext_stakeholders m c :
  stakeholders (updateContext m c)
  = if stakeholderTrigger (JS.toLowerCase (content m))
    then dedupPush (stakeholders c) (extractStakeholderFromMessage (content m))
    else stakeholders c.
Proof.
  unfold updateContext. frame_rewrite.
  rewrite extractStakeholders_own. by frame_rewrite.
Qed.

Lemma updateContext_decisions m c :
  decisions (updateContext m c)
  = if decisionTrigger (JS.toLowerCase (content m))
    then match extractDecisionFromMessage (content m) with
         | Some d =>
             if JS.truthy (Some d)
             then decisions c ++ [{| decision := d;
                                     decision_timestamp := timestamp m;
                                     decision_messageId := msg_id m |}]
             else decisions c
         | None => decisions c
         end
    else decisions c.
Proof.
  unfold updateContext. frame_rewrite.
  rewrite extractDecisions_own. by frame_rewrite.
Qed.

(* ===================================================================== *)
(** ** Phase detection *)
(* ===================================================================== *)

(** C1 (as stated, refuted). The text "Please test and then deploy" has a
    term of the testing check and a term of the deployment check, and the
    phase it leaves is testing: the check listed last does not decide. *)
Lemma phase_last_listed_match_does_not_win :
  let session := freshSession "s1" 0 in
  let m := messageOf "Please test and then deploy" 1 "abc" session in
  checkMatches (JS.toLowerCase (content m)) (testing, ("test", "validate")) = true
  ∧ checkMatches (JS.toLowerCase (content m)) (deployment, ("deploy", "go-live")) = true
  ∧ implementationPhase (session_context (updateContextFromMessage session m)) = testing
  ∧ implementationPhase (session_context (updateContextFromMessage session m)) ≠ deployment.
Proof. vm_compute. repeat split; congruence. Qed.

(** C1 (amended). When the lowercased text of a message matches a phase
    check and none of the checks listed before it, that check decides
    [implementationPhase], whatever later checks match as well: among the
    phases a message matches, the one listed first wins. *)
Theorem phase_first_listed_match_wins
    (session : Session) (m : Message)
    (earlier later : list (Phase * (string * string)))
    (chk : Phase * (string * string)) :
  phaseChecks = earlier ++ chk :: later →
  checkMatches (JS.toLowerCase (content m)) chk = true →
  (∀ e, e ∈ earlier → checkMatches (JS.toLowerCase (content m)) e = false) →
  implementationPhase (session_context (updateContextFromMessage session m)) = chk.1.
Proof.
  intros Hsplit Hchk Hearlier.
  unfold updateContextFromMessage, with_context; simpl.
  rewrite updateContext_phase, detectPhase_find, Hsplit.
  by rewrite (find_first_match _ _ _ _ Hchk Hearlier).
Qed.

Lemma phase_first_listed_match_wins_witness :
  let session := freshSession "s1" 0 in
  let m := messageOf "Please test and then deploy" 1 "abc" session in
  implementationPhase (session_context (updateContextFromMessage session m)) = testing.
Proof.
  intros session m.
  apply (phase_first_listed_match_wins session m
           [(requirements, ("requirement", "analyze"));
            (design, ("design", "architect"));
            (implementation, ("implement", "configure"))]
           [(deployment, ("deploy", "go-live"))]
           (testing, ("test", "validate"))).
  - reflexivity.
  - vm_compute. reflexivity.
  - intros e He.
    apply list_elem_of_In in He. simpl in He.
    destruct He as [<- | [<- | [<- | []]]]; vm_compute; reflexivity.
Defined.

(* ===================================================================== *)
(** ** The multi-currency example *)
(* ===================================================================== *)

(** C2 (as stated, refuted). On a fresh session, whose phase is discovery,
    the message changes [implementationPhase]: its text contains the phase
    keyword "requirement". *)
Lemma multiCurrency_changes_phase :
  let session := freshSession "s1" 0 in
  let m := messageOf multiCurrencyText 1 "abc" session in
  implementationPhase (session_context session) = discovery
  ∧ implementationPhase (session_context (updateContextFromMessage session m))
    ≠ implementationPhase (session_context session).
Proof. vm_compute. split; congruence. Qed.

(** C2 (amended). For every session, context extraction on the message
    "We need a business requirement that the system must support
    multi-currency," (with or without the closing comma) sets
    [implementationPhase] to requirements, and leaves in
    [businessRequirements] the old entries followed by the text of the
    message, which contains the word "requirement", unless that text was
    an entry already, in which case the list is unchanged. *)
Theorem multiCurrency_extraction (session : Session) (m : Message) :
  content m = multiCurrencyText ∨ content m = multiCurrencyTextBare →
  let session' := updateContextFromMessage session m in
  implementationPhase (session_context session') = requirements
  ∧ businessRequirements (session_context session')
    = (if bool_decide (content m ∈ businessRequirements (session_context session))
       then businessRequirements (session_context session)
       else businessRequirements (session_context session) ++ [content m])
  ∧ JS.includes (content m) "requirement" = true.
Proof.
  intros Htext session'. subst session'.
  unfold updateContextFromMessage, with_context; simpl.
  rewrite updateContext_phase, updateContext_businessRequirements, detectPhase_find.
  destruct Htext as [-> | ->].
  - change (businessTrigger (JS.toLowerCase multiCurrencyText))
      with true.
    change (extractRequirementFromMessage multiCurrencyText)
      with (Some multiCurrencyText).
    change (List.find (checkMatches (JS.toLowerCase multiCurrencyText)) phaseChecks)
      with (Some (requirements, ("requirement", "analyze"))).
    unfold dedupPush, JS.arrayIncludes; simpl.
    repeat split. by case_bool_decide.
  - change (businessTrigger (JS.toLowerCase multiCurrencyTextBare))
      with true.
    change (extractRequirementFromMessage multiCurrencyTextBare)
      with (Some multiCurrencyTextBare).
    change (List.find (checkMatches (JS.toLowerCase multiCurrencyTextBare)) phaseChecks)
      with (Some (requirements, ("requirement", "analyze"))).
    unfold dedupPush, JS.arrayIncludes; simpl.
    repeat split. by case_bool_decide.
Qed.

Lemma multiCurrency_extraction_witness :
  let session := freshSession "s1" 0 in
  let m := messageOf multiCurrencyText 1 "abc" session in
  implementationPhase (session_context (updateContextFromMessage session m))
    = requirements
  ∧ businessRequirements (session_context (updateContextFromMessage session m))
    = [multiCurrencyText].
Proof.
  intros session m.
  destruct (multiCurrency_extraction session m (or_introl eq_refl))
    as (Hphase & Hreqs & _).
  split; [exact Hphase | exact Hreqs].
Defined.

(* ===================================================================== *)
(** ** Slices *)
(* ===================================================================== *)

Lemma lastN_suffix {A} (n : nat) (l : list A) :
  l = take (length l - n) l ++ lastN n l.
Proof. unfold lastN. by rewrite take_drop. Qed.

Lemma length_lastN {A} (n : nat) (l : list A) :
  length (lastN n l) = Nat.min n (length l).
Proof. unfold lastN. rewrite length_drop. lia. Qed.

Lemma lastN_all {A} (n : nat) (l : list A) :
  (length l ≤ n)%nat → lastN n l = l.
Proof.
  intros Hle. unfold lastN.
  replace (length l - n)%nat with 0%nat by lia. reflexivity.
Qed.

(** [arr.slice(-n)] for a positive [n] is the last [n] elements. *)
Lemma slice_negative {A} (l : list A) (n : Z) :
  0 < n → JS.slice l (- n) = lastN (Z.to_nat n) l.
Proof.
  intros Hn. unfold JS.slice, lastN.
  destruct (Z.ltb_spec (- n) 0) as [_ | ?]; [|lia].
  f_equal. lia.
Qed.

Lemma slice_Zneg {A} (l : list A) (n : positive) :
  JS.slice l (Z.neg n) = lastN (Pos.to_nat n) l.
Proof.
  change (Z.neg n) with (- Z.pos n).
  rewrite slice_negative by lia. reflexivity.
Qed.

(** [arr.slice(-0)] is [arr.slice(0)], the whole array. *)
Lemma slice_zero {A} (l : list A) : JS.slice l (- 0) = l.
Proof.
  unfold JS.slice. change (- 0 <? 0) with false. cbv iota.
  replace (Z.to_nat (Z.min (- 0) (Z.of_nat (length l)))) with 0%nat by lia.
  reflexivity.
Qed.

(* ===================================================================== *)
(** ** Reading the history *)
(* ===================================================================== *)

(** C10. For an existing session, [getConversationHistory] with a positive
    limit returns the last [limit] messages in their order (a suffix of the
    messages, as long as the limit or as the whole list when that is
    shorter), and with the limit 0 it returns all the messages, as it does
    without a limit. *)
Theorem history_limit (cm : ConversationMemory) (sessionId : string) (session : Session) :
  conversations cm !! sessionId = Some session →
  (∀ limit : Z, 0 < limit →
     getConversationHistory sessionId (Some limit) cm
       = lastN (Z.to_nat limit) (messages session)
     ∧ (∃ older, messages session
                 = older ++ getConversationHistory sessionId (Some limit) cm)
     ∧ length (getConversationHistory sessionId (Some limit) cm)
       = Nat.min (Z.to_nat limit) (length (messages session)))
  ∧ getConversationHistory sessionId (Some 0) cm = messages session
  ∧ getConversationHistory sessionId None cm = messages session.
Proof.
  intros Hsession. unfold getConversationHistory. rewrite Hsession.
  split; [|done].
  intros limit Hlimit.
  destruct (Z.eqb_spec limit 0) as [? | _]; [lia|].
  rewrite slice_negative by done.
  split; [done|]. split.
  - eexists. apply lastN_suffix.
  - apply length_lastN.
Qed.

Lemma history_limit_witness :
  let cm := (addMessage "s1" "three" "user" 3 "c"
              (addMessage "s1" "two" "user" 2 "b"
                (addMessage "s1" "one" "user" 1 "a" newConversationMemory).2).2).2 in
  (content <$> getConversationHistory "s1" (Some 2) cm) = ["two"; "three"]
  ∧ (content <$> getConversationHistory "s1" (Some 0) cm) = ["one"; "two"; "three"].
Proof.
  intros cm.
  destruct (conversations cm !! "s1") as [session|] eqn:Hs; [|by vm_compute in Hs].
  destruct (history_limit cm "s1" session Hs) as (Hpos & Hzero & _).
  destruct (Hpos 2 ltac:(lia)) as (Hlast & _ & _).
  rewrite Hlast, Hzero.
  vm_compute in Hs. injection Hs as <-.
  vm_compute. split; reflexivity.
Defined.

(* ===================================================================== *)
(** ** Unknown sessions and the clear handler *)
(* ===================================================================== *)

(** The two reads of the store return the empty array and [null] for a
    session id that is not in it. *)
Lemma unknown_session_reads (cm : ConversationMemory) (sessionId : string)
    (limit : option Z) :
  conversations cm !! sessionId = None →
  getConversationHistory sessionId limit cm = []
  ∧ getSessionContext sessionId cm = None.
Proof.
  intros Hnone. unfold getConversationHistory, getSessionContext.
  by rewrite Hnone.
Qed.

(** C3 (the code at the failing input). The class declares no member
    [clearMemory], so for every session id, present in the store or not,
    the call in the clear handler throws, the handler answers with status
    500, and the store is left as it was: a session that is present is not
    removed. *)
Theorem clear_route_never_clears
    (invoke : ChatRoutes.Member → list string → ConversationMemory
              → Completion unit * ConversationMemory)
    (sessionId : string) (cm : ConversationMemory) :
  ChatRoutes.getMember "clearMemory" = None
  ∧ ChatRoutes.clearRoute invoke sessionId cm
    = ({| ChatRoutes.http_status := 500;
          ChatRoutes.http_body :=
            ChatRoutes.ErrorBody "Failed to clear conversation"
              "Unable to clear conversation history" |}, cm)
  ∧ conversations (ChatRoutes.clearRoute invoke sessionId cm).2 !! sessionId
    = conversations cm !! sessionId.
Proof.
  assert (Hmember : ChatRoutes.getMember "clearMemory" = None) by reflexivity.
  unfold ChatRoutes.clearRoute, ChatRoutes.callMethod.
  rewrite Hmember. done.
Qed.

(* ===================================================================== *)
(** ** The chat orchestrator never throws *)
(* ===================================================================== *)

Section ChatErrors.

Variable prompts : Groq.PromptLibrary.
Variable create : Groq.ProviderRequest → Groq.Settlement.
Variable defaultModel : string.
Variable responseTime : Z.
Variable message : string.
Variable options : Groq.ChatOptions.



End ChatErrors.



(* ===================================================================== *)
(** ** Sweeping expired sessions *)
(* ===================================================================== *)

Lemma lookup_foldl_delete {V} (ks : list string) (m : gmap string V) (k : string) :
  foldl (λ acc key, delete key acc) m ks !! k
  = if bool_decide (k ∈ ks) then None else m !! k.
Proof.
  revert m. induction ks as [|key ks IH]; intros m.
  - done.
  - cbn [foldl]. rewrite IH.
    destruct (decide (k = key)) as [-> | Hne].
    + rewrite lookup_delete_eq.
      rewrite (bool_decide_eq_true_2 (key ∈ key :: ks)) by left.
      by case_bool_decide.
    + rewrite lookup_delete_ne by done.
      apply (f_equal (λ b : bool, if b then None else m !! k)).
      apply bool_decide_ext. rewrite elem_of_cons. tauto.
Qed.

Lemma size_foldl_delete {V} (ks : list string) (m : gmap string V) :
  NoDup ks →
  (∀ k, k ∈ ks → is_Some (m !! k)) →
  (size (foldl (λ acc key, delete key acc) m ks) + length ks)%nat = size m.
Proof.
  revert m. induction ks as [|key ks IH]; intros m Hnodup Hin; simpl.
  - lia.
  - apply NoDup_cons in Hnodup as [Hfresh Hnodup].
    rewrite Nat.add_succ_r, IH; [| done |].
    + rewrite map_size_delete_Some by (apply Hin; left).
      assert (size m ≠ 0%nat).
      { apply map_size_ne_0_lookup. exists key. apply Hin. left. }
      lia.
    + intros k Hk. rewrite lookup_delete_ne by (intros ->; done).
      apply Hin. by right.
Qed.

Lemma bind_if_singleton {A B} (P : A → bool) (f : A → B) (l : list A) :
  l ≫= (λ x, if P x then [f x] else []) = f <$> filter (λ x, P x = true) l.
Proof.
  induction l as [|x l IH]; [done|].
  rewrite filter_cons. csimpl. rewrite IH.
  destruct (P x) eqn:HP.
  - rewrite decide_True by done. done.
  - rewrite decide_False by done. done.
Qed.

Section Sweep.

Variable now : Z.
Variable cm : ConversationMemory.

Let expiredIds : list string :=
  (filter (λ entry : string * Session,
             isExpired now (sessionTimeout cm) entry.2 = true)
          (map_to_list (conversations cm))).*1.

Lemma cleanup_unfold :
  cleanupExpiredSessions now cm
  = (length expiredIds,
     with_conversations
       (λ _, foldl (λ m sessionId, delete sessionId m) (conversations cm) expiredIds)
       cm).
Proof.
  unfold cleanupExpiredSessions, expiredIds.
  by rewrite (bind_if_singleton
                (λ entry : string * Session,
                   isExpired now (sessionTimeout cm) entry.2) fst).
Qed.

Lemma elem_of_expiredIds sessionId :
  sessionId ∈ expiredIds
  ↔ ∃ session, conversations cm !! sessionId = Some session
               ∧ isExpired now (sessionTimeout cm) session = true.
Proof.
  unfold expiredIds. rewrite list_elem_of_fmap. split.
  - intros ([k session] & -> & Hin).
    apply list_elem_of_filter in Hin as [Hexp Hin].
    apply elem_of_map_to_list in Hin. eauto.
  - intros (session & Hlookup & Hexp).
    exists (sessionId, session). split; [done|].
    apply list_elem_of_filter. split; [done|].
    by apply elem_of_map_to_list.
Qed.

Lemma NoDup_expiredIds : NoDup expiredIds.
Proof.
  unfold expiredIds.
  eapply sublist_NoDup; [apply (NoDup_fst_map_to_list (conversations cm))|].
  apply fmap_sublist, sublist_filter.
Qed.

Lemma length_expiredIds :
  length expiredIds
  = size (filter (λ entry : string * Session,
                    isExpired now (sessionTimeout cm) entry.2 = true)
                 (conversations cm)).
Proof.
  rewrite map_filter_alt, map_size_list_to_map.
  - unfold expiredIds. by rewrite length_fmap.
  - apply NoDup_expiredIds.
Qed.

End Sweep.

(** C8. [cleanupExpiredSessions] removes the sessions whose last activity
    lies more than the configured timeout before [now], and only those:
    every other session is found unchanged under its id. It returns the
    number of sessions it removed, and leaves the configuration alone. The
    timeout of a new memory is 24 hours. *)
Theorem sweep_removes_exactly_expired (now : Z) (cm : ConversationMemory) :
  let swept := cleanupExpiredSessions now cm in
  (∀ sessionId,
     conversations swept.2 !! sessionId
     = match conversations cm !! sessionId with
       | Some session =>
           if bool_decide (sessionTimeout cm < now - lastActivity (session_metadata session))
           then None else Some session
       | None => None
       end)
  ∧ swept.1
    = size (filter (λ entry : string * Session,
                      sessionTimeout cm < now - lastActivity (session_metadata entry.2))
                   (conversations cm))
  ∧ (size (conversations swept.2) + swept.1)%nat = size (conversations cm)
  ∧ maxHistoryLength swept.2 = maxHistoryLength cm
  ∧ sessionTimeout swept.2 = sessionTimeout cm
  ∧ sessionTimeout newConversationMemory = 24 * 60 * 60 * 1000.
Proof.
  intros swept. subst swept. rewrite cleanup_unfold. simpl.
  repeat split.
  - intros sessionId. rewrite lookup_foldl_delete.
    destruct (conversations cm !! sessionId) as [session|] eqn:Hlookup.
    + apply (f_equal (λ b : bool, if b then None else Some session)).
      apply bool_decide_ext. rewrite elem_of_expiredIds. unfold isExpired.
      split.
      * intros (session' & Heq & Hexp). simplify_eq. by apply Z.gtb_lt.
      * intros Hexp. exists session. split; [done|]. by apply Z.gtb_lt.
    + by case_bool_decide.
  - rewrite length_expiredIds. f_equal.
    apply map_filter_ext. intros k session _. unfold isExpired; simpl.
    apply Z.gtb_lt.
  - apply size_foldl_delete; [apply NoDup_expiredIds|].
    intros k Hk. apply elem_of_expiredIds in Hk as (session & -> & _). eauto.
Qed.

(* ===================================================================== *)
(** ** Appending messages: the history cap and the message counter *)
(* ===================================================================== *)

Lemma lastN_lastN_app {A} (n : nat) (a b : list A) :
  lastN n (lastN n a ++ b) = lastN n (a ++ b).
Proof.
  destruct (decide (length a ≤ n)%nat) as [Hle | Hgt].
  - by rewrite (lastN_all n a).
  - unfold lastN. rewrite !drop_app, drop_drop, !length_app, !length_drop.
    f_equal; f_equal; lia.
Qed.

(** The trim of [addMessage] keeps the last [maxHistoryLength] messages. *)
Lemma pushMessage_messages (maxLen now : Z) (messageObj : Message) (session : Session) :
  0 < maxLen →
  messages (pushMessage maxLen now messageObj session)
  = lastN (Z.to_nat maxLen) (messages session ++ [messageObj]).
Proof.
  intros Hmax. unfold pushMessage; simpl.
  destruct (Z.gtb_spec (Z.of_nat (length (messages session ++ [messageObj]))) maxLen).
  - by apply slice_negative.
  - symmetry. apply lastN_all. lia.
Qed.

Lemma updateContextFromMessage_messages session m :
  messages (updateContextFromMessage session m) = messages session.
Proof. reflexivity. Qed.

Lemma updateContextFromMessage_metadata session m :
  session_metadata (updateContextFromMessage session m) = session_metadata session.
Proof. reflexivity. Qed.

Section AddMessage.

Variables (sessionId message role0 : string) (now : Z) (rnd : string).
Variable cm : ConversationMemory.

Let added := addMessage sessionId message role0 now rnd cm.

Lemma addMessage_config :
  maxHistoryLength added.2 = maxHistoryLength cm
  ∧ sessionTimeout added.2 = sessionTimeout cm.
Proof.
  unfold added, addMessage.
  destruct (conversations cm !! sessionId); done.
Qed.

Lemma addMessage_other (other : string) :
  other ≠ sessionId →
  conversations added.2 !! other = conversations cm !! other.
Proof.
  intros Hne. unfold added, addMessage.
  destruct (conversations cm !! sessionId); simpl;
    rewrite !lookup_insert_ne by done; done.
Qed.

Lemma addMessage_same :
  0 < maxHistoryLength cm →
  ∃ session,
    conversations added.2 !! sessionId = Some session
    ∧ messages session
      = lastN (Z.to_nat (maxHistoryLength cm)) (messagesOf cm sessionId ++ [added.1])
    ∧ messageCount (session_metadata session) = S (messageCountOf cm sessionId).
Proof.
  intros Hmax. unfold added, addMessage, messagesOf, messageCountOf.
  destruct (conversations cm !! sessionId) as [session|]; simpl;
    rewrite lookup_insert_eq; eexists; (split; [reflexivity|]);
    rewrite updateContextFromMessage_messages, pushMessage_messages by done;
    done.
Qed.

End AddMessage.

Lemma returnedFor_cons_same sessionId m log :
  returnedFor sessionId ((sessionId, m) :: log) = m :: returnedFor sessionId log.
Proof. unfold returnedFor. rewrite filter_cons_True by done. done. Qed.

Lemma returnedFor_cons_other sessionId other m log :
  other ≠ sessionId →
  returnedFor sessionId ((other, m) :: log) = returnedFor sessionId log.
Proof. intros Hne. unfold returnedFor. by rewrite filter_cons_False. Qed.

(** What a run of calls does to one session of a memory whose histories
    respect the cap. *)
Lemma addMessages_session (calls : list AddCall) (cm : ConversationMemory)
    (sessionId : string) :
  0 < maxHistoryLength cm →
  (length (messagesOf cm sessionId) ≤ Z.to_nat (maxHistoryLength cm))%nat →
  let run := addMessages calls cm in
  messagesOf run.2 sessionId
    = lastN (Z.to_nat (maxHistoryLength cm))
        (messagesOf cm sessionId ++ returnedFor sessionId run.1)
  ∧ messageCountOf run.2 sessionId
    = (messageCountOf cm sessionId + length (returnedFor sessionId run.1))%nat
  ∧ (is_Some (conversations run.2 !! sessionId)
     ↔ is_Some (conversations cm !! sessionId) ∨ returnedFor sessionId run.1 ≠ []).
Proof.
  revert cm. induction calls as [|c calls IH]; intros cm Hmax Hlen; simpl.
  - rewrite app_nil_r, lastN_all by done. split; [done|].
    split; [unfold returnedFor; simpl; lia|].
    unfold returnedFor; simpl. tauto.
  - set (added := addMessage (call_sessionId c) (call_message c) (call_role c)
                    (call_now c) (call_rnd c) cm).
    destruct (addMessage_config (call_sessionId c) (call_message c) (call_role c)
                (call_now c) (call_rnd c) cm) as [Hcfg _].
    fold added in Hcfg.
    destruct (decide (call_sessionId c = sessionId)) as [Heq | Hne].
    + destruct (addMessage_same (call_sessionId c) (call_message c) (call_role c)
                  (call_now c) (call_rnd c) cm Hmax)
        as (session & Hlookup & Hmsgs & Hcount).
      fold added in Hlookup, Hmsgs, Hcount. rewrite Heq in Hlookup, Hmsgs, Hcount.
      assert (Hm1 : messagesOf added.2 sessionId
                    = lastN (Z.to_nat (maxHistoryLength cm))
                        (messagesOf cm sessionId ++ [added.1])).
      { unfold messagesOf at 1. by rewrite Hlookup. }
      assert (Hc1 : messageCountOf added.2 sessionId = S (messageCountOf cm sessionId)).
      { unfold messageCountOf at 1. by rewrite Hlookup. }
      destruct (IH added.2) as (IHm & IHc & IHs).
      { by rewrite Hcfg. }
      { rewrite Hcfg, Hm1, length_lastN. lia. }
      rewrite Heq, returnedFor_cons_same.
      rewrite IHm, IHc, IHs, Hcfg, Hm1, Hc1, Hlookup.
      rewrite lastN_lastN_app, <- app_assoc. simpl.
      split; [done|]. split; [lia|].
      split; [intros _; by right | intros _; left; eauto].
    + assert (Hsame : conversations added.2 !! sessionId = conversations cm !! sessionId).
      { apply addMessage_other. done. }
      destruct (IH added.2) as (IHm & IHc & IHs).
      { by rewrite Hcfg. }
      { unfold messagesOf. rewrite Hcfg, Hsame. exact Hlen. }
      rewrite returnedFor_cons_other by done.
      rewrite IHm, IHc, IHs, Hcfg.
      unfold messagesOf, messageCountOf. rewrite Hsame. done.
Qed.

(** C4. After any sequence of [addMessage] calls on a new memory, the
    messages of every session are the last 50 of the messages appended to
    it, in the order of the calls: at most 50, and whatever was trimmed is
    the oldest part of what was appended. *)
Theorem history_is_capped (calls : list AddCall) (sessionId : string)
    (session : Session) :
  let run := addMessages calls newConversationMemory in
  let appended := returnedFor sessionId run.1 in
  conversations run.2 !! sessionId = Some session →
  (length (messages session) ≤ 50)%nat
  ∧ messages session = lastN 50 appended
  ∧ ∃ trimmed, appended = trimmed ++ messages session
               ∧ length trimmed = (length appended - 50)%nat.
Proof.
  intros run appended Hlookup.
  destruct (addMessages_session calls newConversationMemory sessionId)
    as (Hmsgs & _); [done | by (unfold messagesOf; simpl; rewrite lookup_empty; simpl; lia) |].
  fold run in Hmsgs. fold appended in Hmsgs.
  assert (Hm0 : messagesOf newConversationMemory sessionId = []) by done.
  rewrite Hm0 in Hmsgs. unfold messagesOf in Hmsgs. rewrite Hlookup in Hmsgs.
  change (Z.to_nat (maxHistoryLength newConversationMemory)) with 50%nat in Hmsgs.
  simpl in Hmsgs. rewrite Hmsgs. split; [rewrite length_lastN; lia|]. split; [done|].
  exists (take (length appended - 50) appended). split.
  - apply lastN_suffix.
  - rewrite length_take. lia.
Qed.

Lemma history_is_capped_witness :
  ∃ session,
    conversations (addMessages fiftyOneCalls newConversationMemory).2 !! "s1"
      = Some session
    ∧ (length (messages session) ≤ 50)%nat
    ∧ (content <$> returnedFor "s1" (addMessages fiftyOneCalls newConversationMemory).1)
      = replicate 51 "hello".
Proof.
  destruct (conversations (addMessages fiftyOneCalls newConversationMemory).2 !! "s1")
    as [session|] eqn:Hs; [|exfalso; vm_compute in Hs; discriminate].
  exists session.
  destruct (history_is_capped fiftyOneCalls "s1" session Hs) as (Hlen & _).
  split; [reflexivity|]. split; [exact Hlen|]. vm_compute. reflexivity.
Defined.

(** C5. After any sequence of [addMessage] calls on a new memory, a
    session exists exactly when a message was appended to it, and its
    [messageCount] is the number of messages appended to it, while its
    history holds that number of messages or 50, whichever is less. *)
Theorem messageCount_counts_appends (calls : list AddCall) (sessionId : string) :
  let run := addMessages calls newConversationMemory in
  let appended := returnedFor sessionId run.1 in
  (is_Some (conversations run.2 !! sessionId) ↔ appended ≠ [])
  ∧ ∀ session,
      conversations run.2 !! sessionId = Some session →
      messageCount (session_metadata session) = length appended
      ∧ length (messages session) = Nat.min (length appended) 50.
Proof.
  intros run appended.
  destruct (addMessages_session calls newConversationMemory sessionId)
    as (Hmsgs & Hcount & Hsome); [done | by (unfold messagesOf; simpl; rewrite lookup_empty; simpl; lia) |].
  fold run in Hmsgs, Hcount, Hsome. fold appended in Hmsgs, Hcount, Hsome.
  split.
  - rewrite Hsome. simpl. rewrite lookup_empty.
    split; [intros [[? ?] | ?]; done | by right].
  - intros session Hlookup.
    assert (Hm0 : messagesOf newConversationMemory sessionId = []) by done.
    assert (Hc0 : messageCountOf newConversationMemory sessionId = 0%nat) by done.
    rewrite Hm0 in Hmsgs. rewrite Hc0 in Hcount.
    unfold messagesOf in Hmsgs. unfold messageCountOf in Hcount.
    rewrite Hlookup in Hmsgs, Hcount.
    change (Z.to_nat (maxHistoryLength newConversationMemory)) with 50%nat in Hmsgs.
    simpl in Hmsgs, Hcount.
    rewrite Hmsgs, Hcount, length_lastN. lia.
Qed.

Lemma messageCount_counts_appends_witness :
  ∃ session,
    conversations (addMessages fiftyOneCalls newConversationMemory).2 !! "s1"
      = Some session
    ∧ messageCount (session_metadata session) = 51%nat
    ∧ length (messages session) = 50%nat.
Proof.
  destruct (conversations (addMessages fiftyOneCalls newConversationMemory).2 !! "s1")
    as [session|] eqn:Hs; [|exfalso; vm_compute in Hs; discriminate].
  exists session.
  destruct (messageCount_counts_appends fiftyOneCalls "s1") as [_ Hcount].
  destruct (Hcount session Hs) as [Hn Hlen].
  split; [reflexivity|]. split.
  - rewrite Hn. vm_compute. reflexivity.
  - rewrite Hlen. vm_compute. reflexivity.
Defined.

(* ===================================================================== *)
(** ** The context summary *)
(* ===================================================================== *)

Lemma substring_0_all (n : nat) (s : string) :
  (String.length s ≤ n)%nat → String.substring 0 n s = s.
Proof.
  revert n. induction s as [|c s IH]; intros [|n] Hlen; simpl in *;
    try reflexivity; try lia.
  f_equal. apply IH. lia.
Qed.

Lemma substring_0_min (n : nat) (s : string) :
  String.substring 0 (Nat.min n (String.length s)) s = String.substring 0 n s.
Proof.
  revert n. induction s as [|c s IH]; intros [|n]; simpl; try reflexivity.
  f_equal. apply IH.
Qed.

Lemma string_app_empty_r (s : string) : s +:+ "" = s.
Proof.
  induction s as [|c s IH]; [done|].
  change (String c (s +:+ "") = String c s). by rewrite IH.
Qed.

Lemma length_substring_0 (n : nat) (s : string) :
  (n ≤ String.length s)%nat → String.length (String.substring 0 n s) = n.
Proof.
  revert n. induction s as [|c s IH]; intros [|n] Hlen; simpl in *;
    try reflexivity; try lia.
  f_equal. apply IH. lia.
Qed.

Lemma string_length_app (s t : string) :
  String.length (s +:+ t) = (String.length s + String.length t)%nat.
Proof.
  induction s as [|c s IH]; [done|].
  change (S (String.length (s +:+ t)) = S (String.length s + String.length t)).
  by rewrite IH.
Qed.

(** The prefix taken by [substring(0, 200)]. *)
Lemma js_substring_prefix (s : string) (n : nat) :
  JS.substring s 0 n = String.substring 0 n s.
Proof.
  unfold JS.substring.
  replace (Nat.min (Nat.min 0 (String.length s)) (Nat.min n (String.length s)))
    with 0%nat by lia.
  replace (Nat.max (Nat.min 0 (String.length s)) (Nat.min n (String.length s)) - 0)%nat
    with (Nat.min n (String.length s)) by lia.
  apply substring_0_min.
Qed.

Lemma summarizeMessage_truncates (msg : Message) :
  summarizeMessage msg
  = {| sm_role := role msg;
       sm_content := truncate200 (content msg);
       sm_timestamp := timestamp msg |}.
Proof.
  unfold summarizeMessage, truncate200. f_equal.
  rewrite js_substring_prefix.
  destruct (Nat.ltb_spec 200 (String.length (content msg))) as [Hlong | Hshort].
  - rewrite (proj2 (Nat.leb_gt _ _)) by done. reflexivity.
  - rewrite (proj2 (Nat.leb_le _ _)) by done.
    rewrite string_app_empty_r. by apply substring_0_all.
Qed.

Lemma buildSummary_spec (session : Session) :
  buildSummary session = specSummary session.
Proof.
  unfold buildSummary, specSummary.
  rewrite !slice_Zneg.
  change (Pos.to_nat 5) with 5%nat. change (Pos.to_nat 3) with 3%nat.
  f_equal. apply list_fmap_ext. intros _ msg _. apply summarizeMessage_truncates.
Qed.

(* ===================================================================== *)
(** ** Sentences and keywords *)
(* ===================================================================== *)

Lemma isSep_lowerChar (c : ascii) : JS.isSep (JS.lowerChar c) = JS.isSep c.
Proof. destruct c as [[] [] [] [] [] [] [] []]; vm_compute; reflexivity. Qed.

Lemma isWhite_lowerChar (c : ascii) : JS.isWhite (JS.lowerChar c) = JS.isWhite c.
Proof. destruct c as [[] [] [] [] [] [] [] []]; vm_compute; reflexivity. Qed.

Lemma splitSentences_nonempty (s : string) : JS.splitSentences s ≠ [].
Proof.
  induction s as [|c s IH]; simpl; [done|].
  destruct (JS.isSep c).
  - destruct s as [|c' s']; [done|]. destruct (JS.isSep c'); done.
  - destruct (JS.splitSentences s); done.
Qed.

Lemma splitSentences_toLowerCase (s : string) :
  JS.splitSentences (JS.toLowerCase s) = JS.toLowerCase <$> JS.splitSentences s.
Proof.
  induction s as [|c s IH]; [done|].
  cbn [JS.toLowerCase JS.splitSentences]. rewrite IH, isSep_lowerChar.
  destruct (JS.isSep c).
  - destruct s as [|c' s']; [done|].
    cbn [JS.toLowerCase]. rewrite isSep_lowerChar.
    destruct (JS.isSep c'); done.
  - destruct (JS.splitSentences s); done.
Qed.

Lemma startsWith_includes (s kw : string) :
  JS.startsWith s kw = true → JS.includes s kw = true.
Proof. intros H. destruct s; cbn [JS.includes]; rewrite H; done. Qed.

Lemma includes_cons (c : ascii) (s kw : string) :
  JS.includes s kw = true → JS.includes (String c s) kw = true.
Proof. intros H. cbn [JS.includes]. rewrite H. apply orb_true_r. Qed.

Lemma includes_inv (s kw : string) :
  JS.includes s kw = true →
  JS.startsWith s kw = true
  ∨ ∃ c s', s = String c s' ∧ JS.includes s' kw = true.
Proof.
  destruct s as [|c s']; cbn [JS.includes]; intros H%orb_true_iff.
  - destruct H; [by left | done].
  - destruct H; [by left | right; eauto].
Qed.

Lemma startsWith_first_sentence (s kw : string) :
  JS.startsWith s kw = true → sepFree kw = true →
  ∃ p ps, JS.splitSentences s = p :: ps ∧ JS.startsWith p kw = true.
Proof.
  revert kw. induction s as [|b s IH]; intros [|a kw] Hstart Hfree;
    cbn [JS.startsWith sepFree] in *; try done.
  - by exists "", [].
  - destruct (JS.splitSentences (String b s)) as [|p ps] eqn:Hsplit.
    + by apply splitSentences_nonempty in Hsplit.
    + by exists p, ps.
  - apply andb_true_iff in Hstart as [Hab Hstart].
    apply bool_decide_eq_true in Hab as ->.
    apply andb_true_iff in Hfree as [Hb Hfree].
    apply negb_true_iff in Hb.
    destruct (IH kw Hstart Hfree) as (p & ps & Hsplit & Hp).
    exists (String b p), ps. cbn [JS.splitSentences]. rewrite Hb, Hsplit.
    split; [done|]. cbn [JS.startsWith]. rewrite Hp.
    by rewrite bool_decide_eq_true_2.
Qed.

(** A keyword without separators that occurs in a text occurs in one of
    its sentences. *)
Lemma includes_some_sentence (s kw : string) :
  JS.includes s kw = true → sepFree kw = true →
  ∃ p, p ∈ JS.splitSentences s ∧ JS.includes p kw = true.
Proof.
  intros Hinc Hfree. induction s as [|c s IH].
  - exists "". split; [by left | done].
  - apply includes_inv in Hinc as [Hstart | (c' & s' & [= <- <-] & Hinc)].
    + destruct (startsWith_first_sentence _ _ Hstart Hfree) as (p & ps & -> & Hp).
      exists p. split; [by left | by apply startsWith_includes].
    + destruct (IH Hinc) as (q & Hq & Hqinc).
      cbn [JS.splitSentences]. destruct (JS.isSep c).
      * exists q. split; [|done].
        destruct s as [|c2 s2]; [by right|].
        destruct (JS.isSep c2); [done | by right].
      * destruct (JS.splitSentences s) as [|p ps]; [by apply not_elem_of_nil in Hq|].
        apply elem_of_cons in Hq as [-> | Hq].
        -- exists (String c p). split; [by left | by apply includes_cons].
        -- exists q. split; [by right | done].
Qed.

Lemma hasInk_toLowerCase (s : string) : hasInk (JS.toLowerCase s) = hasInk s.
Proof.
  induction s as [|c s IH]; [done|].
  cbn [JS.toLowerCase hasInk]. by rewrite IH, isWhite_lowerChar.
Qed.

Lemma startsWith_hasInk (s kw : string) :
  JS.startsWith s kw = true → hasInk kw = true → hasInk s = true.
Proof.
  revert kw. induction s as [|b s IH]; intros [|a kw] Hstart Hink;
    cbn [JS.startsWith hasInk] in *; try done.
  apply andb_true_iff in Hstart as [Hab Hstart].
  apply bool_decide_eq_true in Hab as ->.
  apply orb_true_iff in Hink as [Hb | Hink].
  - by rewrite Hb.
  - rewrite (IH kw) by done. apply orb_true_r.
Qed.

Lemma includes_hasInk (s kw : string) :
  JS.includes s kw = true → hasInk kw = true → hasInk s = true.
Proof.
  intros Hinc Hink. induction s as [|c s IH].
  - apply includes_inv in Hinc as [Hstart | (? & ? & ? & _)]; [|done].
    by apply (startsWith_hasInk _ kw).
  - apply includes_inv in Hinc as [Hstart | (c' & s' & [= <- <-] & Hinc)].
    + by apply (startsWith_hasInk _ kw).
    + cbn [hasInk]. rewrite IH by done. apply orb_true_r.
Qed.

Lemma hasInk_trimStart (s : string) : hasInk (JS.trimStart s) = hasInk s.
Proof.
  induction s as [|c s IH]; [done|].
  cbn [JS.trimStart hasInk].
  destruct (JS.isWhite c) eqn:Hwhite; cbn [negb orb hasInk];
    [exact IH | by rewrite Hwhite].
Qed.

Lemma trimEnd_empty (s : string) : JS.trimEnd s = "" → hasInk s = false.
Proof.
  induction s as [|c s IH]; [done|].
  cbn [JS.trimEnd hasInk].
  destruct (JS.trimEnd s); [|done].
  destruct (JS.isWhite c); [|done].
  intros _. cbn [negb orb]. by apply IH.
Qed.

(** [trim] leaves something of a text that is not all white space. *)
Lemma trim_nonempty (s : string) : hasInk s = true → JS.trim s ≠ "".
Proof.
  intros Hink Hempty. unfold JS.trim in Hempty.
  apply trimEnd_empty in Hempty. rewrite hasInk_trimStart in Hempty. congruence.
Qed.

Lemma firstMatching_found (k1 k2 k3 : string) (l : list string) :
  (∃ q, q ∈ l ∧ sentenceMatches k1 k2 k3 q = true) →
  ∃ q, q ∈ l ∧ sentenceMatches k1 k2 k3 q = true
       ∧ firstMatching k1 k2 k3 l = Some (JS.trim q).
Proof.
  induction l as [|p l IH]; intros (q & Hq & Hmatch).
  - by apply not_elem_of_nil in Hq.
  - cbn [firstMatching].
    destruct (sentenceMatches k1 k2 k3 p) eqn:Hp.
    + exists p. split; [by left | done].
    + apply elem_of_cons in Hq as [-> | Hq]; [congruence|].
      destruct IH as (q' & Hq' & Hmatch' & Hfirst); [eauto|].
      exists q'. split; [by right | done].
Qed.

Lemma sentenceMatches_hasInk (k1 k2 k3 q : string) :
  hasInk k1 = true → hasInk k2 = true → hasInk k3 = true →
  sentenceMatches k1 k2 k3 q = true → hasInk q = true.
Proof.
  intros H1 H2 H3 Hmatch. unfold sentenceMatches in Hmatch.
  rewrite <- hasInk_toLowerCase.
  apply orb_true_iff in Hmatch as [Hmatch%orb_true_iff | Hmatch];
    [destruct Hmatch as [Hmatch | Hmatch]|];
    eauto using includes_hasInk.
Qed.

(** When one of the three keywords of an extraction helper occurs in the
    lowercased text, the helper returns a sentence, and not an empty one. *)
Lemma keyword_gives_sentence (k1 k2 k3 text : string) :
  sepFree k1 = true → sepFree k2 = true → sepFree k3 = true →
  hasInk k1 = true → hasInk k2 = true → hasInk k3 = true →
  JS.includes (JS.toLowerCase text) k1
  || JS.includes (JS.toLowerCase text) k2
  || JS.includes (JS.toLowerCase text) k3 = true →
  ∃ found, firstMatching k1 k2 k3 (JS.splitSentences text) = Some found
           ∧ JS.truthy (Some found) = true.
Proof.
  intros Hf1 Hf2 Hf3 Hi1 Hi2 Hi3 Htrigger.
  assert (Hsentence : ∃ q, q ∈ JS.splitSentences text
                           ∧ sentenceMatches k1 k2 k3 q = true).
  { assert (Hkw : ∃ kw, JS.includes (JS.toLowerCase text) kw = true
                        ∧ sepFree kw = true
                        ∧ ∀ q, JS.includes (JS.toLowerCase q) kw = true →
                               sentenceMatches k1 k2 k3 q = true).
    { unfold sentenceMatches.
      apply orb_true_iff in Htrigger as [Htrigger%orb_true_iff | Htrigger];
        [destruct Htrigger as [Htrigger | Htrigger]|].
      - exists k1. repeat split; [done..|]. by intros q ->.
      - exists k2. repeat split; [done..|]. intros q ->. by rewrite orb_true_r.
      - exists k3. repeat split; [done..|]. intros q ->. by rewrite orb_true_r. }
    destruct Hkw as (kw & Hinc & Hfree & Hmatches).
    destruct (includes_some_sentence _ _ Hinc Hfree) as (p & Hp & Hpinc).
    rewrite splitSentences_toLowerCase in Hp.
    apply list_elem_of_fmap in Hp as (q & -> & Hq).
    exists q. split; [done | by apply Hmatches]. }
  destruct (firstMatching_found _ _ _ _ Hsentence) as (q & _ & Hmatch & Hfirst).
  exists (JS.trim q). split; [done|].
  unfold JS.truthy. apply negb_true_iff, bool_decide_eq_false.
  apply trim_nonempty. by apply (sentenceMatches_hasInk k1 k2 k3).
Qed.

(** A message that matches the decision trigger appends one decision. *)
Lemma decision_appended (m : Message) (c : SessionContext) :
  decisionTrigger (JS.toLowerCase (content m)) = true →
  ∃ d, extractDecisionFromMessage (content m) = Some d
       ∧ decisions (updateContext m c)
         = decisions c ++ [{| decision := d;
                              decision_timestamp := timestamp m;
                              decision_messageId := msg_id m |}].
Proof.
  intros Htrigger.
  destruct (keyword_gives_sentence "decide" "choose" "select" (content m))
    as (d & Hfound & Htruthy); [done..|].
  exists d. split; [done|].
  rewrite updateContext_decisions, Htrigger.
  unfold extractDecisionFromMessage. by rewrite Hfound, Htruthy.
Qed.

(** Two guarded pushes of the same sentence add it at most once. *)
Lemma dedupPush_twice (l : list string) (r : string) (t1 t2 : bool) :
  let l1 := if t1 then dedupPush l (Some r) else l in
  let l2 := if t2 then dedupPush l1 (Some r) else l1 in
  (r ∈ l → l2 = l) ∧ (l2 = l ∨ l2 = l ++ [r]).
Proof.
  assert (Hpush : ∀ k, (r ∈ k → dedupPush k (Some r) = k)
                       ∧ (dedupPush k (Some r) = k ∨ dedupPush k (Some r) = k ++ [r])).
  { intros k. unfold dedupPush, JS.arrayIncludes.
    destruct (JS.truthy (Some r)); simpl; [|by split; [|left]].
    case_bool_decide; simpl; [by split; [|left] | by split; [|right]]. }
  intros l1 l2. subst l1 l2.
  destruct (Hpush l) as [Hin1 Hor1].
  destruct t1, t2; try (split; [done | by left]); try done.
  destruct Hor1 as [Hsame | Hadded].
  - rewrite Hsame. done.
  - rewrite Hadded in *.
    destruct (Hpush (l ++ [r])) as [Hin2 _].
    rewrite Hin2 by (apply elem_of_app; right; by left).
    split; [exact Hin1 | by right].
Qed.

(* ===================================================================== *)
(** ** De-duplicated lists and the decision log *)
(* ===================================================================== *)

(** C9. Take any session and two messages, extracted one after the other.
    When both yield the same requirement sentence, [businessRequirements]
    ends as it was or with that one sentence appended, and as it was when
    the sentence was an entry already (membership is equality of strings);
    the same holds of [technicalSpecs] and of [stakeholders] with their
    helpers. When both messages match the decision trigger, each appends an
    entry to [decisions], so two messages with the same decision text leave
    two entries with that text. *)
Theorem dedupe_lists_and_decision_log (session : Session) (m1 m2 : Message) :
  let before := session_context session in
  let after :=
    session_context
      (updateContextFromMessage (updateContextFromMessage session m1) m2) in
  (∀ r, extractRequirementFromMessage (content m1) = Some r →
        extractRequirementFromMessage (content m2) = Some r →
        (r ∈ businessRequirements before →
           businessRequirements after = businessRequirements before)
        ∧ (businessRequirements after = businessRequirements before
           ∨ businessRequirements after = businessRequirements before ++ [r]))
  ∧ (∀ r, extractTechnicalSpecFromMessage (content m1) = Some r →
          extractTechnicalSpecFromMessage (content m2) = Some r →
          (r ∈ technicalSpecs before → technicalSpecs after = technicalSpecs before)
          ∧ (technicalSpecs after = technicalSpecs before
             ∨ technicalSpecs after = technicalSpecs before ++ [r]))
  ∧ (∀ r, extractStakeholderFromMessage (content m1) = Some r →
          extractStakeholderFromMessage (content m2) = Some r →
          (r ∈ stakeholders before → stakeholders after = stakeholders before)
          ∧ (stakeholders after = stakeholders before
             ∨ stakeholders after = stakeholders before ++ [r]))
  ∧ (decisionTrigger (JS.toLowerCase (content m1)) = true →
     decisionTrigger (JS.toLowerCase (content m2)) = true →
     ∃ d1 d2,
       extractDecisionFromMessage (content m1) = Some d1
       ∧ extractDecisionFromMessage (content m2) = Some d2
       ∧ decisions after
         = decisions before
           ++ [{| decision := d1; decision_timestamp := timestamp m1;
                  decision_messageId := msg_id m1 |};
               {| decision := d2; decision_timestamp := timestamp m2;
                  decision_messageId := msg_id m2 |}]).
Proof.
  intros before after. subst before after.
  unfold updateContextFromMessage, with_context; simpl.
  set (c := session_context session).
  split; [|split; [|split]].
  - intros r Hr1 Hr2.
    rewrite !updateContext_businessRequirements, Hr1, Hr2.
    apply dedupPush_twice.
  - intros r Hr1 Hr2.
    rewrite !updateContext_technicalSpecs, Hr1, Hr2.
    apply dedupPush_twice.
  - intros r Hr1 Hr2.
    rewrite !updateContext_stakeholders, Hr1, Hr2.
    apply dedupPush_twice.
  - intros Ht1 Ht2.
    destruct (decision_appended m1 c Ht1) as (d1 & Hd1 & Happ1).
    destruct (decision_appended m2 (updateContext m1 c) Ht2) as (d2 & Hd2 & Happ2).
    exists d1, d2. split; [done|]. split; [done|].
    by rewrite Happ2, Happ1, <- app_assoc.
Qed.

Lemma dedupe_lists_and_decision_log_witness :
  let session := freshSession "s1" 0 in
  let m1 := messageOf busyText 1 "a" session in
  let m2 := messageOf busyText 2 "b" session in
  let after :=
    session_context
      (updateContextFromMessage (updateContextFromMessage session m1) m2) in
  (businessRequirements after = [] ∨ businessRequirements after = [] ++ [busyText])
  ∧ ∃ d1 d2,
      extractDecisionFromMessage busyText = Some d1
      ∧ extractDecisionFromMessage busyText = Some d2
      ∧ decisions after
        = [] ++ [{| decision := d1; decision_timestamp := 1;
                    decision_messageId := msg_id m1 |};
                 {| decision := d2; decision_timestamp := 2;
                    decision_messageId := msg_id m2 |}].
Proof.
  intros session m1 m2 after.
  destruct (dedupe_lists_and_decision_log session m1 m2)
    as (Hreq & _ & _ & Hdec).
  split.
  - apply (Hreq busyText); vm_compute; reflexivity.
  - apply Hdec; vm_compute; reflexivity.
Defined.

(* ===================================================================== *)
(** ** More on context extraction *)
(* ===================================================================== *)

Lemma extractOpenIssues_own lc m c :
  openIssues (extractOpenIssues lc m c)
  = if issueTrigger lc
    then match extractIssueFromMessage (content m) with
         | Some i =>
             if JS.truthy (Some i)
             then openIssues c ++ [{| issue := i;
                                      issue_timestamp := timestamp m;
                                      status := open;
                                      issue_messageId := msg_id m;
                                      resolvedAt := None |}]
             else openIssues c
         | None => openIssues c
         end
    else openIssues c.
Proof.
  unfold extractOpenIssues, issueTrigger. step_cases.
Qed.

Lemma updateContext_openIssues m c :
  openIssues (updateContext m c)
  = if issueTrigger (JS.toLowerCase (content m))
    then match extractIssueFromMessage (content m) with
         | Some i =>
             if JS.truthy (Some i)
             then openIssues c ++ [{| issue := i;
                                      issue_timestamp := timestamp m;
                                      status := open;
                                      issue_messageId := msg_id m;
                                      resolvedAt := None |}]
             else openIssues c
         | None => openIssues c
         end
    else openIssues c.
Proof.
  unfold updateContext. rewrite extractOpenIssues_own.
  rewrite (proj2 (proj2 (proj2 (proj2 (extractDecisions_frame _ _ _))))).
  rewrite (proj2 (proj2 (proj2 (proj2 (extractStakeholders_frame _ _ _))))).
  rewrite (proj2 (proj2 (proj2 (proj2 (extractTechnicalSpecs_frame _ _ _))))).
  rewrite (proj2 (proj2 (proj2 (proj2 (extractBusinessRequirements_frame _ _ _))))).
  rewrite (proj2 (proj2 (proj2 (proj2 (detectPhase_frame _ _))))).
  reflexivity.
Qed.

Lemma updateContext_currentProject m c :
  currentProject (updateContext m c) = currentProject c.
Proof.
  unfold updateContext.
  assert (H1 : ∀ lc c', currentProject (detectPhase lc c') = currentProject c')
    by (intros; unfold detectPhase; step_cases).
  assert (H2 : ∀ lc c', currentProject (extractBusinessRequirements lc m c')
                        = currentProject c')
    by (intros; unfold extractBusinessRequirements; step_cases).
  assert (H3 : ∀ lc c', currentProject (extractTechnicalSpecs lc m c')
                        = currentProject c')
    by (intros; unfold extractTechnicalSpecs; step_cases).
  assert (H4 : ∀ lc c', currentProject (extractStakeholders lc m c')
                        = currentProject c')
    by (intros; unfold extractStakeholders; step_cases).
  assert (H5 : ∀ lc c', currentProject (extractDecisions lc m c') = currentProject c')
    by (intros; unfold extractDecisions; step_cases).
  assert (H6 : ∀ lc c', currentProject (extractOpenIssues lc m c') = currentProject c')
    by (intros; unfold extractOpenIssues; step_cases).
  by rewrite H6, H5, H4, H3, H2, H1.
Qed.

(** X1. A message without any phase keyword leaves the phase as it was, and
    no message moves a session to the discovery phase: when the phase is
    discovery after a message, it was discovery before and the message
    matched no phase check. *)
Theorem phase_unmatched_or_left_discovery (m : Message) (c : SessionContext) :
  ((∀ chk, chk ∈ phaseChecks →
       checkMatches (JS.toLowerCase (content m)) chk = false) →
   implementationPhase (updateContext m c) = implementationPhase c)
  ∧ (implementationPhase (updateContext m c) = discovery →
     implementationPhase c = discovery
     ∧ ∀ chk, chk ∈ phaseChecks →
         checkMatches (JS.toLowerCase (content m)) chk = false).
Proof.
  rewrite updateContext_phase, detectPhase_find.
  destruct (List.find (checkMatches (JS.toLowerCase (content m))) phaseChecks)
    as [chk|] eqn:Hfind.
  - apply find_some in Hfind as [Hin Hmatch]. split.
    + intros Hnone. rewrite (Hnone chk) in Hmatch; [done|].
      by apply list_elem_of_In.
    + simpl. intros Hphase. exfalso.
      unfold phaseChecks in Hin. simpl in Hin.
      destruct Hin as [<- | [<- | [<- | [<- | [<- | []]]]]]; discriminate.
  - split; [done|]. intros Hphase. split; [done|].
    intros chk Hin. apply list_elem_of_In in Hin.
    by apply (find_none _ _ Hfind).
Qed.

Lemma phase_unmatched_or_left_discovery_witness :
  let m := messageOf "Thanks, that helps" 1 "a" (freshSession "s1" 0) in
  let c := session_context (freshSession "s1" 0) in
  implementationPhase (updateContext m c) = implementationPhase c.
Proof.
  intros m c.
  apply (proj1 (phase_unmatched_or_left_discovery m c)).
  intros chk Hin. apply list_elem_of_In in Hin. simpl in Hin.
  destruct Hin as [<- | [<- | [<- | [<- | [<- | []]]]]]; vm_compute; reflexivity.
Defined.

Lemma dedupPush_prefix (l : list string) (found : option string) :
  l `prefix_of` dedupPush l found
  ∧ (length (dedupPush l found) ≤ S (length l))%nat.
Proof.
  unfold dedupPush. destruct found as [r|]; [|split; [done | lia]].
  destruct (JS.truthy (Some r) && negb (JS.arrayIncludes l r)).
  - split; [by exists [r] | rewrite length_app; simpl; lia].
  - split; [done | lia].
Qed.

(** X2. Extraction never removes or rewrites what a context holds: after
    any message each of the five lists starts with its old entries and has
    at most one entry more, and [currentProject] is left alone. *)
Theorem extraction_only_appends (m : Message) (c : SessionContext) :
  let c' := updateContext m c in
  (businessRequirements c `prefix_of` businessRequirements c'
   ∧ length (businessRequirements c') ≤ S (length (businessRequirements c)))%nat
  ∧ (technicalSpecs c `prefix_of` technicalSpecs c'
     ∧ length (technicalSpecs c') ≤ S (length (technicalSpecs c)))%nat
  ∧ (stakeholders c `prefix_of` stakeholders c'
     ∧ length (stakeholders c') ≤ S (length (stakeholders c)))%nat
  ∧ (decisions c `prefix_of` decisions c'
     ∧ length (decisions c') ≤ S (length (decisions c)))%nat
  ∧ (openIssues c `prefix_of` openIssues c'
     ∧ length (openIssues c') ≤ S (length (openIssues c)))%nat
  ∧ currentProject c' = currentProject c.
Proof.
  intros c'. subst c'.
  rewrite updateContext_businessRequirements, updateContext_technicalSpecs,
    updateContext_stakeholders, updateContext_decisions, updateContext_openIssues,
    updateContext_currentProject.
  repeat split.
  all: repeat case_match; try done; try lia;
    try apply dedupPush_prefix; try (by eexists); rewrite ?length_app; simpl; lia.
Qed.

(* ===================================================================== *)
(** ** More on strings: pieces, trimming, occurrence *)
(* ===================================================================== *)

Lemma string_app_cons (c : ascii) (s t : string) :
  String c s +:+ t = String c (s +:+ t).
Proof. reflexivity. Qed.

Lemma string_app_empty_l (s : string) : "" +:+ s = s.
Proof. reflexivity. Qed.

Lemma string_app_assoc (s t u : string) : (s +:+ t) +:+ u = s +:+ t +:+ u.
Proof.
  induction s as [|c s IH]; [done|].
  by rewrite !string_app_cons, IH.
Qed.

Lemma occursIn_refl (s : string) : occursIn s s.
Proof. exists "", "". by rewrite string_app_empty_l, string_app_empty_r. Qed.

Lemma occursIn_trans (r s t : string) : occursIn r s → occursIn s t → occursIn r t.
Proof.
  intros (pre1 & post1 & ->) (pre2 & post2 & ->).
  exists (pre2 +:+ pre1), (post1 +:+ post2).
  by rewrite !string_app_assoc.
Qed.

Lemma occursIn_cons (c : ascii) (r s : string) : occursIn r s → occursIn r (String c s).
Proof. intros (pre & post & ->). by exists (String c pre), post. Qed.

Lemma occursIn_prefix (p rest : string) : occursIn p (p +:+ rest).
Proof. by exists "", rest. Qed.

Lemma trimStart_suffix (s : string) : ∃ pre, s = pre +:+ JS.trimStart s.
Proof.
  induction s as [|c s [pre IH]]; [by exists ""|].
  cbn [JS.trimStart]. destruct (JS.isWhite c).
  - exists (String c pre). by rewrite string_app_cons, <- IH.
  - by exists "".
Qed.

Lemma trimEnd_prefix (s : string) : ∃ post, s = JS.trimEnd s +:+ post.
Proof.
  induction s as [|c s [post IH]]; [by exists ""|].
  cbn [JS.trimEnd]. destruct (JS.trimEnd s) as [|c' t] eqn:Ht.
  - destruct (JS.isWhite c).
    + by exists (String c s).
    + exists post. by rewrite string_app_cons, <- IH.
  - exists post. by rewrite string_app_cons, <- IH.
Qed.

Lemma trim_occursIn (s : string) : occursIn (JS.trim s) s.
Proof.
  unfold JS.trim.
  destruct (trimStart_suffix s) as [pre Hpre].
  destruct (trimEnd_prefix (JS.trimStart s)) as [post Hpost].
  exists pre, post. by rewrite <- Hpost.
Qed.

Lemma splitSentences_head_sep (s : string) (c : ascii) :
  JS.isSep c = true → ∃ ps, JS.splitSentences (String c s) = "" :: ps.
Proof.
  revert c. induction s as [|c' s IH]; intros c Hc.
  - cbn [JS.splitSentences]. rewrite Hc. by eexists.
  - change (JS.splitSentences (String c (String c' s)))
      with (if JS.isSep c
            then if JS.isSep c' then JS.splitSentences (String c' s)
                 else "" :: JS.splitSentences (String c' s)
            else match JS.splitSentences (String c' s) with
                 | p :: ps => String c p :: ps
                 | [] => [String c ""]
                 end).
    rewrite Hc. destruct (JS.isSep c') eqn:Hc'; [by apply IH | by eexists].
Qed.

(** The first sentence is a prefix of the text, and every sentence occurs
    in the text. *)
Lemma splitSentences_occur (s : string) :
  ∃ p ps, JS.splitSentences s = p :: ps
          ∧ (∃ rest, s = p +:+ rest)
          ∧ ∀ q, q ∈ ps → occursIn q s.
Proof.
  induction s as [|c s (p & ps & Hsplit & [rest Hrest] & Hps)].
  - exists "", []. split; [done|]. split; [by exists ""|].
    intros q Hq. by apply not_elem_of_nil in Hq.
  - assert (Hall : ∀ q, q ∈ p :: ps → occursIn q (String c s)).
    { intros q [-> | Hq]%elem_of_cons.
      - apply occursIn_cons. rewrite Hrest. apply occursIn_prefix.
      - by apply occursIn_cons, Hps. }
    destruct (JS.isSep c) eqn:Hc.
    + destruct (splitSentences_head_sep s c Hc) as [ps' Hhead].
      exists "", ps'. split; [done|]. split; [by exists (String c s)|].
      intros q Hq. apply Hall.
      cbn [JS.splitSentences] in Hhead. rewrite Hc, Hsplit in Hhead.
      destruct s as [|c' s'].
      * by simplify_eq.
      * destruct (JS.isSep c'); simplify_eq; [by right | done].
    + exists (String c p), ps. cbn [JS.splitSentences]. rewrite Hc, Hsplit.
      split; [done|]. split.
      * exists rest. by rewrite string_app_cons, <- Hrest.
      * intros q Hq. apply Hall. by right.
Qed.

Lemma sentence_occursIn (s q : string) : q ∈ JS.splitSentences s → occursIn q s.
Proof.
  destruct (splitSentences_occur s) as (p & ps & -> & [rest Hrest] & Hps).
  intros [-> | Hq]%elem_of_cons; [|by apply Hps].
  rewrite Hrest. apply occursIn_prefix.
Qed.

Lemma splitSentences_sepFree (s q : string) :
  q ∈ JS.splitSentences s → sepFree q = true.
Proof.
  revert q. induction s as [|c s IH]; intros q Hq.
  - apply list_elem_of_singleton in Hq as ->. done.
  - cbn [JS.splitSentences] in Hq. destruct (JS.isSep c) eqn:Hc.
    + destruct s as [|c' s'].
      * apply elem_of_cons in Hq as [-> | Hq]; [done | by apply IH].
      * destruct (JS.isSep c'); [by apply IH|].
        apply elem_of_cons in Hq as [-> | Hq]; [done | by apply IH].
    + destruct (JS.splitSentences s) as [|p ps].
      * apply list_elem_of_singleton in Hq as ->.
        cbn [sepFree]. by rewrite Hc.
      * apply elem_of_cons in Hq as [-> | Hq].
        -- cbn [sepFree]. rewrite Hc. cbn [negb andb]. apply IH. by left.
        -- apply IH. by right.
Qed.

Lemma sepFree_trimStart (s : string) : sepFree s = true → sepFree (JS.trimStart s) = true.
Proof.
  induction s as [|c s IH]; [done|].
  cbn [sepFree JS.trimStart]. intros [Hc Hs]%andb_true_iff.
  destruct (JS.isWhite c); [by apply IH|].
  cbn [sepFree]. by rewrite Hc, Hs.
Qed.

Lemma sepFree_trimEnd (s : string) : sepFree s = true → sepFree (JS.trimEnd s) = true.
Proof.
  induction s as [|c s IH]; [done|].
  cbn [sepFree JS.trimEnd]. intros [Hc Hs]%andb_true_iff.
  specialize (IH Hs).
  destruct (JS.trimEnd s) as [|c' t].
  - destruct (JS.isWhite c); [done|]. cbn [sepFree]. by rewrite Hc.
  - cbn [sepFree] in *. by rewrite Hc, IH.
Qed.

Lemma noLeadingWhite_trimStart (s : string) : noLeadingWhite (JS.trimStart s) = true.
Proof.
  induction s as [|c s IH]; [done|].
  cbn [JS.trimStart]. destruct (JS.isWhite c) eqn:Hc; [done|].
  cbn [noLeadingWhite]. by rewrite Hc.
Qed.

Lemma trimStart_id (s : string) : noLeadingWhite s = true → JS.trimStart s = s.
Proof.
  destruct s as [|c s]; [done|].
  cbn [noLeadingWhite JS.trimStart]. by intros ->%negb_true_iff.
Qed.

Lemma noLeadingWhite_trimEnd (s : string) :
  noLeadingWhite s = true → noLeadingWhite (JS.trimEnd s) = true.
Proof.
  destruct s as [|c s]; [done|].
  cbn [noLeadingWhite JS.trimEnd]. intros Hc.
  destruct (JS.trimEnd s); [|done].
  apply negb_true_iff in Hc. rewrite Hc. cbn [noLeadingWhite]. by rewrite Hc.
Qed.

Lemma trimEnd_cons (c : ascii) (s : string) :
  JS.trimEnd (String c s)
  = match JS.trimEnd s with
    | EmptyString => if JS.isWhite c then EmptyString else String c EmptyString
    | t => String c t
    end.
Proof. reflexivity. Qed.

Lemma trimEnd_idempotent (s : string) : JS.trimEnd (JS.trimEnd s) = JS.trimEnd s.
Proof.
  induction s as [|c s IH]; [done|].
  rewrite trimEnd_cons. destruct (JS.trimEnd s) as [|c' t] eqn:Ht.
  - destruct (JS.isWhite c) eqn:Hc; [done|].
    rewrite trimEnd_cons. cbn [JS.trimEnd]. by rewrite Hc.
  - rewrite trimEnd_cons, IH. done.
Qed.

(** [trim] is idempotent. *)
Lemma trim_idempotent (s : string) : JS.trim (JS.trim s) = JS.trim s.
Proof.
  unfold JS.trim.
  rewrite (trimStart_id (JS.trimEnd (JS.trimStart s))).
  - apply trimEnd_idempotent.
  - apply noLeadingWhite_trimEnd, noLeadingWhite_trimStart.
Qed.

Lemma firstMatching_Some (k1 k2 k3 : string) (l : list string) (r : string) :
  firstMatching k1 k2 k3 l = Some r →
  ∃ q, q ∈ l ∧ sentenceMatches k1 k2 k3 q = true ∧ r = JS.trim q.
Proof.
  induction l as [|p l IH]; [done|].
  cbn [firstMatching]. destruct (sentenceMatches k1 k2 k3 p) eqn:Hp.
  - intros [= <-]. exists p. split; [by left | done].
  - intros (q & Hq & Hmatch & ->)%IH. exists q. split; [by right | done].
Qed.

(** What a helper returns is a trimmed sentence of the text. *)
Lemma extracted_sentence (k1 k2 k3 text r : string) :
  firstMatching k1 k2 k3 (JS.splitSentences text) = Some r →
  sepFree r = true ∧ JS.trim r = r ∧ occursIn r text.
Proof.
  intros (q & Hq & _ & ->)%firstMatching_Some.
  split; [|split].
  - unfold JS.trim. apply sepFree_trimEnd, sepFree_trimStart.
    by apply (splitSentences_sepFree text).
  - apply trim_idempotent.
  - eapply occursIn_trans; [apply trim_occursIn | by apply sentence_occursIn].
Qed.

(* ===================================================================== *)
(** ** What extraction records *)
(* ===================================================================== *)

(** X3. Every message whose lowercased text contains "issue", "problem" or
    "challenge" appends exactly one entry to [openIssues]: the first
    sentence with such a word, with status open, no resolution time, and
    the id and timestamp of the message. *)
Theorem issue_recorded_open (m : Message) (c : SessionContext) :
  issueTrigger (JS.toLowerCase (content m)) = true →
  ∃ i, extractIssueFromMessage (content m) = Some i
       ∧ openIssues (updateContext m c)
         = openIssues c ++ [{| issue := i;
                               issue_timestamp := timestamp m;
                               status := open;
                               issue_messageId := msg_id m;
                               resolvedAt := None |}].
Proof.
  intros Htrigger.
  destruct (keyword_gives_sentence "issue" "problem" "challenge" (content m))
    as (i & Hfound & Htruthy); [done..|].
  exists i. split; [done|].
  rewrite updateContext_openIssues, Htrigger.
  unfold extractIssueFromMessage. by rewrite Hfound, Htruthy.
Qed.

Lemma issue_recorded_open_witness :
  let s0 := freshSession "s1" 0 in
  let m := messageOf "All fine. There's an issue with data migration!" 1 "a" s0 in
  ∃ i, extractIssueFromMessage (content m) = Some i
       ∧ openIssues (updateContext m (session_context s0))
         = [] ++ [{| issue := i; issue_timestamp := 1; status := open;
                     issue_messageId := "msg_1_a"; resolvedAt := None |}].
Proof.
  intros s0 m.
  apply (issue_recorded_open m (session_context s0)).
  vm_compute. reflexivity.
Defined.

Lemma truthy_nonempty (r : string) : JS.truthy (Some r) = true → r ≠ "".
Proof. unfold JS.truthy. by intros ?%negb_true_iff%bool_decide_eq_false. Qed.

Lemma elem_of_dedupPush (l : list string) (found : option string) (r : string) :
  r ∈ dedupPush l found → r ∈ l ∨ (r ≠ "" ∧ found = Some r).
Proof.
  unfold dedupPush. destruct found as [r'|]; [|by left].
  destruct (JS.truthy (Some r')) eqn:Htruthy; cbn [andb]; [|by left].
  destruct (negb (JS.arrayIncludes l r')); [|by left].
  intros [Hr | Hr%list_elem_of_singleton]%elem_of_app; [by left|].
  subst r'. right. split; [by apply truthy_nonempty | done].
Qed.

(** An entry of a context after a message was there before, or is what one
    of the helpers returned for the text of the message. *)
Lemma updateContext_entries (m : Message) (c : SessionContext) (r : string) :
  r ∈ contextEntries (updateContext m c) →
  r ∈ contextEntries c
  ∨ (r ≠ ""
     ∧ ∃ k1 k2 k3,
         firstMatching k1 k2 k3 (JS.splitSentences (content m)) = Some r).
Proof.
  unfold contextEntries.
  rewrite updateContext_businessRequirements, updateContext_technicalSpecs,
    updateContext_stakeholders, updateContext_decisions, updateContext_openIssues.
  rewrite !elem_of_app.
  intros [Hr | [Hr | [Hr | [Hr | Hr]]]].
  - destruct (businessTrigger _); [|tauto].
    apply elem_of_dedupPush in Hr as [Hr | [Hne Hr]]; [tauto|].
    right. split; [done|]. by exists "requirement", "need", "must".
  - destruct (technicalTrigger _); [|tauto].
    apply elem_of_dedupPush in Hr as [Hr | [Hne Hr]]; [tauto|].
    right. split; [done|]. by exists "system", "technical", "integration".
  - destruct (stakeholderTrigger _); [|tauto].
    apply elem_of_dedupPush in Hr as [Hr | [Hne Hr]]; [tauto|].
    right. split; [done|]. by exists "team", "user", "stakeholder".
  - destruct (decisionTrigger _); [|tauto].
    destruct (extractDecisionFromMessage (content m)) as [d|] eqn:Hd;
      [|tauto].
    destruct (JS.truthy (Some d)) eqn:Htruthy;
      [|tauto].
    rewrite fmap_app in Hr.
    apply elem_of_app in Hr as [Hr | Hr%list_elem_of_singleton];
      [tauto|].
    simpl in Hr. subst r. right. split; [by apply truthy_nonempty|].
    by exists "decide", "choose", "select".
  - destruct (issueTrigger _); [|tauto].
    destruct (extractIssueFromMessage (content m)) as [i|] eqn:Hi;
      [|tauto].
    destruct (JS.truthy (Some i)) eqn:Htruthy;
      [|tauto].
    rewrite fmap_app in Hr.
    apply elem_of_app in Hr as [Hr | Hr%list_elem_of_singleton];
      [tauto|].
    simpl in Hr. subst r. right. split; [by apply truthy_nonempty|].
    by exists "issue", "problem", "challenge".
Qed.

(** X4. Whatever a message adds to a context is text of that message: an
    entry of the five lists after the message that was not there before
    occurs, character for character, in the content of the message. *)
Theorem new_entries_occur_in_message (m : Message) (c : SessionContext) (r : string) :
  r ∈ contextEntries (updateContext m c) →
  r ∉ contextEntries c →
  occursIn r (content m) ∧ JS.includes (content m) r = true.
Proof.
  intros Hafter Hbefore.
  apply updateContext_entries in Hafter as [? | (_ & k1 & k2 & k3 & Hfound)]; [done|].
  apply extracted_sentence in Hfound as (_ & _ & Hoccurs).
  split; [done|].
  destruct Hoccurs as (pre & post & ->).
  clear. induction pre as [|a pre IH].
  - rewrite string_app_empty_l. apply startsWith_includes.
    induction r as [|b r IHr]; [done|].
    rewrite string_app_cons. cbn [JS.startsWith].
    by rewrite bool_decide_eq_true_2, IHr.
  - rewrite string_app_cons. by apply includes_cons.
Qed.

Lemma new_entries_occur_in_message_witness :
  let s0 := freshSession "s1" 0 in
  let m := messageOf "Hello team.  We decided to choose SAP ! Bye" 1 "a" s0 in
  occursIn "We decided to choose SAP" (content m)
  ∧ JS.includes (content m) "We decided to choose SAP" = true.
Proof.
  intros s0 m.
  apply (new_entries_occur_in_message m (session_context s0)).
  - vm_compute. apply list_elem_of_In. simpl. tauto.
  - vm_compute. apply not_elem_of_nil.
Defined.

(* ===================================================================== *)
(** ** Invariants of the sessions of a memory *)
(* ===================================================================== *)

(** The session [addMessage] writes: built from the session found, or from
    a fresh one. *)
Lemma addMessage_written (sessionId message role0 : string) (now : Z) (rnd : string)
    (cm : ConversationMemory) :
  let added := addMessage sessionId message role0 now rnd cm in
  ∃ base,
    (conversations cm !! sessionId = Some base
     ∨ (conversations cm !! sessionId = None ∧ base = freshSession sessionId now))
    ∧ conversations added.2 !! sessionId
      = Some (updateContextFromMessage
                (pushMessage (maxHistoryLength cm) now added.1 base) added.1)
    ∧ added.1 = {| msg_id := "msg_" +:+ JS.intToString now +:+ "_" +:+ rnd;
                   role := role0;
                   content := message;
                   timestamp := now;
                   msg_metadata :=
                     {| snapshot_persona := persona base;
                        snapshot_phase := implementationPhase (session_context base) |} |}.
Proof.
  unfold addMessage.
  destruct (conversations cm !! sessionId) as [session|] eqn:Hlookup; simpl.
  - exists session. rewrite lookup_insert_eq. split; [by left | done].
  - exists (freshSession sessionId now). rewrite lookup_insert_eq.
    split; [by right | done].
Qed.

(** A property of sessions that fresh sessions have and that appending a
    message keeps holds of every session after a run of [addMessage]
    calls. *)
Lemma addMessages_invariant (P : Session → Prop) :
  (∀ sessionId now, P (freshSession sessionId now)) →
  (∀ maxLen now m session,
     P session → P (updateContextFromMessage (pushMessage maxLen now m session) m)) →
  ∀ calls cm,
    (∀ sessionId session, conversations cm !! sessionId = Some session → P session) →
    ∀ sessionId session,
      conversations (addMessages calls cm).2 !! sessionId = Some session → P session.
Proof.
  intros Hfresh Hstep calls.
  induction calls as [|c calls IH]; intros cm Hcm sessionId session; simpl; [apply Hcm|].
  apply IH. clear sessionId session. intros sessionId session Hlookup.
  destruct (decide (sessionId = call_sessionId c)) as [-> | Hne].
  - destruct (addMessage_written (call_sessionId c) (call_message c) (call_role c)
                (call_now c) (call_rnd c) cm) as (base & Hbase & Hwritten & _).
    rewrite Hwritten in Hlookup. injection Hlookup as <-.
    apply Hstep. destruct Hbase as [Hbase | [_ ->]]; [by eapply Hcm | apply Hfresh].
  - rewrite addMessage_other in Hlookup by done. by eapply Hcm.
Qed.

Lemma addMessages_from_new (P : Session → Prop) :
  (∀ sessionId now, P (freshSession sessionId now)) →
  (∀ maxLen now m session,
     P session → P (updateContextFromMessage (pushMessage maxLen now m session) m)) →
  ∀ calls sessionId session,
    conversations (addMessages calls newConversationMemory).2 !! sessionId
      = Some session →
    P session.
Proof.
  intros Hfresh Hstep calls. apply (addMessages_invariant P Hfresh Hstep).
  intros sessionId session Hlookup. simpl in Hlookup.
  by rewrite lookup_empty in Hlookup.
Qed.

Lemma NoDup_dedupPush (l : list string) (found : option string) :
  NoDup l → NoDup (dedupPush l found).
Proof.
  intros Hl. unfold dedupPush, JS.arrayIncludes. destruct found as [r|]; [|done].
  destruct (JS.truthy (Some r)); cbn [andb]; [|done].
  case_bool_decide as Hin; cbn [negb]; [done|].
  apply NoDup_app. split; [done|]. split; [|apply NoDup_singleton].
  intros x Hx ->%list_elem_of_singleton. done.
Qed.

(** X5. After any sequence of [addMessage] calls on a new memory, no
    session lists a business requirement, a technical specification or a
    stakeholder twice. *)
Theorem deduplicated_lists_have_no_duplicates (calls : list AddCall)
    (sessionId : string) (session : Session) :
  conversations (addMessages calls newConversationMemory).2 !! sessionId
    = Some session →
  NoDup (businessRequirements (session_context session))
  ∧ NoDup (technicalSpecs (session_context session))
  ∧ NoDup (stakeholders (session_context session)).
Proof.
  revert sessionId session.
  apply (addMessages_from_new
           (λ s, NoDup (businessRequirements (session_context s))
                 ∧ NoDup (technicalSpecs (session_context s))
                 ∧ NoDup (stakeholders (session_context s)))).
  - intros sessionId now. simpl. repeat split; apply NoDup_nil_2.
  - intros maxLen now m session (Hb & Ht & Hs).
    unfold updateContextFromMessage, with_context; simpl.
    rewrite updateContext_businessRequirements, updateContext_technicalSpecs,
      updateContext_stakeholders.
    repeat split; case_match; auto using NoDup_dedupPush.
Qed.

Lemma deduplicated_lists_have_no_duplicates_witness :
  ∃ session,
    conversations (addMessages threeCalls newConversationMemory).2 !! "s1"
      = Some session
    ∧ NoDup (businessRequirements (session_context session))
    ∧ businessRequirements (session_context session) = [busyText].
Proof.
  destruct (conversations (addMessages threeCalls newConversationMemory).2 !! "s1")
    as [session|] eqn:Hs; [|exfalso; vm_compute in Hs; discriminate].
  exists session. split; [reflexivity|].
  split.
  - exact (proj1 (deduplicated_lists_have_no_duplicates threeCalls "s1" session Hs)).
  - vm_compute in Hs. injection Hs as <-. reflexivity.
Defined.

(** X6. After any sequence of [addMessage] calls on a new memory, every
    entry of the five lists of every session is a non-empty text without
    ".", "!" or "?" and without white space at its ends, and
    [currentProject] is still [null]. *)
Theorem recorded_entries_are_clean (calls : list AddCall)
    (sessionId : string) (session : Session) :
  conversations (addMessages calls newConversationMemory).2 !! sessionId
    = Some session →
  (∀ r, r ∈ contextEntries (session_context session) → cleanEntry r)
  ∧ currentProject (session_context session) = None.
Proof.
  revert sessionId session.
  apply (addMessages_from_new
           (λ s, (∀ r, r ∈ contextEntries (session_context s) → cleanEntry r)
                 ∧ currentProject (session_context s) = None)).
  - intros sessionId now. split; [|done].
    intros r Hr. by apply not_elem_of_nil in Hr.
  - intros maxLen now m session [Hclean Hproject].
    unfold updateContextFromMessage, with_context; simpl.
    rewrite updateContext_currentProject. split; [|done].
    intros r [Hr | (Hne & k1 & k2 & k3 & Hfound)]%updateContext_entries;
      [by apply Hclean|].
    apply extracted_sentence in Hfound as (Hfree & Htrim & _).
    by repeat split.
Qed.

Lemma recorded_entries_are_clean_witness :
  ∃ session,
    conversations (addMessages threeCalls newConversationMemory).2 !! "s2"
      = Some session
    ∧ cleanEntry "There is a problem"
    ∧ (issue <$> openIssues (session_context session)) = ["There is a problem"].
Proof.
  destruct (conversations (addMessages threeCalls newConversationMemory).2 !! "s2")
    as [session|] eqn:Hs; [|exfalso; vm_compute in Hs; discriminate].
  exists session. split; [reflexivity|].
  assert (Hissues : (issue <$> openIssues (session_context session))
                    = ["There is a problem"]).
  { vm_compute in Hs. injection Hs as <-. reflexivity. }
  split; [|exact Hissues].
  apply (proj1 (recorded_entries_are_clean threeCalls "s2" session Hs)).
  unfold contextEntries. rewrite Hissues.
  rewrite !elem_of_app. do 4 right. by left.
Defined.

(* ===================================================================== *)
(** ** Writing and reading back *)
(* ===================================================================== *)

Lemma lastN_snoc_one {A} (n : nat) (l : list A) (x : A) :
  (0 < n)%nat → lastN 1 (lastN n (l ++ [x])) = [x].
Proof.
  intros Hn.
  assert (Hkeep : ∃ k, lastN n (l ++ [x]) = k ++ [x]).
  { exists (drop (length l + 1 - n) l). unfold lastN.
    rewrite length_app. simpl. rewrite drop_app_le by lia. done. }
  destruct Hkeep as [k ->].
  unfold lastN. rewrite length_app. simpl.
  replace (length k + 1 - 1)%nat with (length k) by lia.
  apply drop_app_length.
Qed.

(** X7. With a positive history cap, the message [addMessage] returns is
    the newest message of the session, whether the session existed or was
    created by the call: a history read with limit 1 gives exactly that
    message. It carries the given text and role, the time of the call, and
    the persona and phase the session had before the call (general and
    discovery for a new session), not those its own text produces. *)
Theorem addMessage_then_history (sessionId message role0 : string) (now : Z)
    (rnd : string) (cm : ConversationMemory) :
  0 < maxHistoryLength cm →
  let added := addMessage sessionId message role0 now rnd cm in
  getConversationHistory sessionId (Some 1) added.2 = [added.1]
  ∧ content added.1 = message
  ∧ role added.1 = role0
  ∧ timestamp added.1 = now
  ∧ snapshot_persona (msg_metadata added.1)
    = match conversations cm !! sessionId with
      | Some before => persona before
      | None => "general"
      end
  ∧ snapshot_phase (msg_metadata added.1)
    = match conversations cm !! sessionId with
      | Some before => implementationPhase (session_context before)
      | None => discovery
      end.
Proof.
  intros Hmax added.
  destruct (addMessage_written sessionId message role0 now rnd cm)
    as (base & Hbase & Hwritten & Hobj).
  fold added in Hwritten, Hobj.
  split.
  - unfold getConversationHistory. rewrite Hwritten.
    change (1 =? 0) with false. cbv iota.
    rewrite updateContextFromMessage_messages, pushMessage_messages by done.
    rewrite (slice_negative _ 1) by lia.
    apply lastN_snoc_one. lia.
  - rewrite Hobj. simpl.
    destruct Hbase as [-> | [-> ->]]; done.
Qed.

Lemma addMessage_then_history_witness :
  let added := addMessage "s9" "Please analyze this" "user" 5 "z" newConversationMemory in
  getConversationHistory "s9" (Some 1) added.2 = [added.1]
  ∧ snapshot_phase (msg_metadata added.1) = discovery.
Proof.
  intros added.
  destruct (addMessage_then_history "s9" "Please analyze this" "user" 5 "z"
              newConversationMemory) as (Hread & _ & _ & _ & _ & Hphase).
  - simpl. lia.
  - split; [exact Hread | exact Hphase].
Defined.

(** X8. A negative limit does not limit: for an existing session,
    [getConversationHistory] with the limit [-k] returns the messages
    without their first [k], that is [slice(k)]. *)
Theorem history_negative_limit (cm : ConversationMemory) (sessionId : string)
    (session : Session) (k : Z) :
  conversations cm !! sessionId = Some session →
  0 < k →
  getConversationHistory sessionId (Some (- k)) cm
  = drop (Z.to_nat k) (messages session).
Proof.
  intros Hsession Hk. unfold getConversationHistory. rewrite Hsession.
  destruct (Z.eqb_spec (- k) 0) as [? | _]; [lia|].
  unfold JS.slice. rewrite Z.opp_involutive.
  destruct (Z.ltb_spec k 0) as [? | _]; [lia|].
  destruct (decide (k ≤ Z.of_nat (length (messages session)))) as [Hle | Hgt].
  - by rewrite Z.min_l.
  - rewrite Z.min_r by lia. rewrite Nat2Z.id.
    rewrite !drop_ge by lia. done.
Qed.

Lemma history_negative_limit_witness :
  let cm := (addMessage "s1" "three" "user" 3 "c"
              (addMessage "s1" "two" "user" 2 "b"
                (addMessage "s1" "one" "user" 1 "a" newConversationMemory).2).2).2 in
  (content <$> getConversationHistory "s1" (Some (-1)) cm) = ["two"; "three"].
Proof.
  intros cm.
  destruct (conversations cm !! "s1") as [session|] eqn:Hs; [|by vm_compute in Hs].
  pose proof (history_negative_limit cm "s1" session 1 Hs ltac:(lia)) as Hread.
  change (- (1)) with (-1) in Hread. rewrite Hread.
  vm_compute in Hs. injection Hs as <-. reflexivity.
Defined.

(* ===================================================================== *)
(** ** Resolving issues *)
(* ===================================================================== *)

Lemma resolveFirst_None (issueId : string) (now : Z) (issues : list Issue) :
  resolveFirst issueId now issues = None
  ↔ ∀ i, i ∈ issues → issue_messageId i ≠ issueId.
Proof.
  induction issues as [|i issues IH]; cbn [resolveFirst].
  - split; [|done]. intros _ i Hi. by apply not_elem_of_nil in Hi.
  - case_bool_decide as Hid.
    + split; [done|]. intros Hnone. exfalso. apply (Hnone i); [by left | done].
    + rewrite fmap_None, IH. split.
      * intros Hrest j [-> | Hj]%elem_of_cons; [done | by apply Hrest].
      * intros Hall j Hj. apply Hall. by right.
Qed.

Lemma resolveFirst_Some (issueId : string) (now : Z) (issues issues' : list Issue) :
  resolveFirst issueId now issues = Some issues' →
  ∃ pre i post,
    issues = pre ++ i :: post
    ∧ (∀ j, j ∈ pre → issue_messageId j ≠ issueId)
    ∧ issue_messageId i = issueId
    ∧ issues' = pre ++ markResolved now i :: post.
Proof.
  revert issues'. induction issues as [|i issues IH]; intros issues'; cbn [resolveFirst];
    [done|].
  case_bool_decide as Hid.
  - intros [= <-]. exists [], i, issues. repeat split; [|done].
    intros j Hj. by apply not_elem_of_nil in Hj.
  - intros (rest & Hrest & ->)%fmap_Some.
    destruct (IH rest Hrest) as (pre & i' & post & -> & Hpre & Hi' & ->).
    exists (i :: pre), i', post. repeat split; [|done].
    intros j [-> | Hj]%elem_of_cons; [done | by apply Hpre].
Qed.

(** X9. [resolveIssue] changes one issue or nothing. It returns false, and
    leaves the memory as it was, exactly when the session is unknown or no
    issue of it comes from the given message. Otherwise it returns true and
    the first issue with that message id, whatever its status was, is now
    resolved at the time of the call; the other issues, their order, the
    rest of the session (its last activity included) and every other
    session are unchanged. *)
Theorem resolveIssue_changes_first_match (sessionId issueId : string) (now : Z)
    (cm : ConversationMemory) :
  let result := resolveIssue sessionId issueId now cm in
  (result.1 = false → result.2 = cm)
  ∧ (result.1 = false
     ↔ ∀ i, i ∈ issuesOf cm sessionId → issue_messageId i ≠ issueId)
  ∧ (result.1 = true →
     ∃ session pre i post,
       conversations cm !! sessionId = Some session
       ∧ openIssues (session_context session) = pre ++ i :: post
       ∧ (∀ j, j ∈ pre → issue_messageId j ≠ issueId)
       ∧ issue_messageId i = issueId
       ∧ conversations result.2 !! sessionId
         = Some (with_context (set_openIssues (pre ++ markResolved now i :: post))
                   session)
       ∧ ∀ other, other ≠ sessionId →
           conversations result.2 !! other = conversations cm !! other).
Proof.
  unfold resolveIssue, issuesOf.
  destruct (conversations cm !! sessionId) as [session|] eqn:Hlookup; simpl.
  - destruct (resolveFirst issueId now (openIssues (session_context session)))
      as [issues'|] eqn:Hresolve; simpl.
    + split; [done|]. split.
      * split; [done|]. intros Hnone.
        pose proof (proj2 (resolveFirst_None issueId now _) Hnone). congruence.
      * intros _.
        destruct (resolveFirst_Some _ _ _ _ Hresolve)
          as (pre & i & post & Hissues & Hpre & Hi & ->).
        exists session, pre, i, post. rewrite lookup_insert_eq.
        repeat split; try done.
        intros other Hne. by rewrite lookup_insert_ne.
    + split; [done|]. split; [|done].
      split; [|done]. intros _.
      exact (proj1 (resolveFirst_None issueId now _) Hresolve).
  - split; [done|]. split; [|done].
    split; [|done]. intros _ i Hi. by apply not_elem_of_nil in Hi.
Qed.

Lemma resolveIssue_changes_first_match_witness :
  let cm := (addMessages threeCalls newConversationMemory).2 in
  (resolveIssue "s2" "msg_9_zz" 10 cm).2 = cm
  ∧ ∃ session, conversations (resolveIssue "s2" "msg_2_b" 10 cm).2 !! "s2" = Some session.
Proof.
  intros cm. split.
  - apply (proj1 (resolveIssue_changes_first_match "s2" "msg_9_zz" 10 cm)).
    vm_compute. reflexivity.
  - destruct (proj2 (proj2 (resolveIssue_changes_first_match "s2" "msg_2_b" 10 cm)))
      as (session & pre & i & post & _ & _ & _ & _ & Hafter & _).
    + vm_compute. reflexivity.
    + eexists. exact Hafter.
Defined.

Lemma resolveFirst_snoc (issueId : string) (now : Z) (issues : list Issue)
    (i : Issue) :
  (∀ j, j ∈ issues → issue_messageId j ≠ issueId) →
  issue_messageId i = issueId →
  resolveFirst issueId now (issues ++ [i]) = Some (issues ++ [markResolved now i]).
Proof.
  intros Hfresh Hi.
  induction issues as [|j l IH]; cbn [resolveFirst app].
  - by rewrite bool_decide_eq_true_2.
  - rewrite bool_decide_eq_false_2 by (apply Hfresh; by left).
    rewrite IH; [done|]. intros k Hk. apply Hfresh. by right.
Qed.

(** X10. An issue reported by a message can be resolved with the id of the
    message object [addMessage] returned. When the text matches the issue
    trigger and no older issue of the session carries the same message id,
    [resolveIssue] with that id returns true, and afterwards the open issues
    of the session are those that were open before the message; the new
    issue is kept, last in the list, as resolved at the time of the call. *)
Theorem issue_reported_then_resolved (sessionId text role0 : string) (now : Z)
    (rnd : string) (later : Z) (cm : ConversationMemory) :
  issueTrigger (JS.toLowerCase text) = true →
  (∀ i, i ∈ issuesOf cm sessionId →
        issue_messageId i ≠ "msg_" +:+ JS.intToString now +:+ "_" +:+ rnd) →
  let added := addMessage sessionId text role0 now rnd cm in
  let result := resolveIssue sessionId (msg_id added.1) later added.2 in
  result.1 = true
  ∧ filter (λ i, status i = open) (issuesOf result.2 sessionId)
    = filter (λ i, status i = open) (issuesOf cm sessionId)
  ∧ ∃ i, extractIssueFromMessage text = Some i
         ∧ issuesOf result.2 sessionId
           = issuesOf cm sessionId
             ++ [{| issue := i; issue_timestamp := now; status := resolved;
                    issue_messageId := msg_id added.1;
                    resolvedAt := Some later |}].
Proof.
  intros Htrigger Hfresh added result.
  destruct (addMessage_written sessionId text role0 now rnd cm)
    as (base & Hbase & Hwritten & Hobj).
  fold added in Hwritten, Hobj.
  assert (Hid : msg_id added.1 = "msg_" +:+ JS.intToString now +:+ "_" +:+ rnd)
    by (by rewrite Hobj).
  assert (Hcontent : content added.1 = text) by (by rewrite Hobj).
  assert (Htime : timestamp added.1 = now) by (by rewrite Hobj).
  assert (Hold : issuesOf cm sessionId = openIssues (session_context base)).
  { unfold issuesOf. destruct Hbase as [-> | [-> ->]]; done. }
  destruct (issue_recorded_open added.1 (session_context base)) as (i & Hi & Hissues).
  { by rewrite Hcontent. }
  rewrite Hcontent in Hi. rewrite Htime in Hissues.
  set (newIssue := {| issue := i; issue_timestamp := now; status := open;
                      issue_messageId := msg_id added.1; resolvedAt := None |}) in *.
  assert (Hresolve : resolveFirst (msg_id added.1) later
                       (openIssues (session_context base) ++ [newIssue])
                     = Some (openIssues (session_context base)
                             ++ [markResolved later newIssue])).
  { apply resolveFirst_snoc; [|done].
    rewrite <- Hold, Hid. exact Hfresh. }
  set (written := updateContextFromMessage
                    (pushMessage (maxHistoryLength cm) now added.1 base) added.1)
    in *.
  assert (Hwrittenissues : openIssues (session_context written)
                           = openIssues (session_context base) ++ [newIssue])
    by exact Hissues.
  assert (Hresult : result
                    = (true,
                       with_conversations
                         (insert sessionId
                            (with_context
                               (set_openIssues
                                  (openIssues (session_context base)
                                   ++ [markResolved later newIssue])) written))
                         added.2)).
  { subst result. unfold resolveIssue.
    by rewrite Hwritten, Hwrittenissues, Hresolve. }
  rewrite Hresult. cbn [fst snd].
  split; [done|].
  assert (Hafter : issuesOf
                     (with_conversations
                        (insert sessionId
                           (with_context
                              (set_openIssues
                                 (openIssues (session_context base)
                                  ++ [markResolved later newIssue])) written))
                        added.2) sessionId
                   = issuesOf cm sessionId ++ [markResolved later newIssue]).
  { unfold issuesOf at 1. cbn [conversations with_conversations].
    rewrite lookup_insert_eq. by rewrite Hold. }
  rewrite Hafter. split.
  - rewrite filter_app, filter_cons_False by done.
    by rewrite filter_nil, app_nil_r.
  - exists i. done.
Qed.

Lemma issue_reported_then_resolved_witness :
  let added := addMessage "s1" "We have a problem here" "user" 4 "d"
                 newConversationMemory in
  (resolveIssue "s1" (msg_id added.1) 9 added.2).1 = true.
Proof.
  intros added.
  apply (issue_reported_then_resolved "s1" "We have a problem here" "user" 4 "d" 9
           newConversationMemory).
  - vm_compute. reflexivity.
  - intros i Hi. vm_compute in Hi. by apply not_elem_of_nil in Hi.
Defined.

(* ===================================================================== *)
(** ** Statistics, personas and expiry *)
(* ===================================================================== *)

Lemma length_filter_disjoint {A} (P Q : A → Prop)
    `{!∀ x, base.Decision (P x)} `{!∀ x, base.Decision (Q x)} (l : list A) :
  (∀ x, P x → ¬ Q x) →
  (length (filter P l) + length (filter Q l) ≤ length l)%nat.
Proof.
  intros Hdisjoint. induction l as [|x l IH]; [done|].
  rewrite !filter_cons. destruct (decide (P x)) as [HP | HP].
  - rewrite decide_False by auto. simpl. lia.
  - destruct (decide (Q x)); simpl; lia.
Qed.

Lemma length_filter_status (l : list Issue) :
  (length (filter (λ i, status i = open) l)
   + length (filter (λ i, status i = resolved) l))%nat = length l.
Proof.
  induction l as [|i l IH]; [done|].
  rewrite !filter_cons. destruct (status i) eqn:Hstatus.
  - rewrite decide_True, decide_False by done. simpl. lia.
  - rewrite decide_False, decide_True by done. simpl. lia.
Qed.

(** X11. After any sequence of [addMessage] calls on a new memory, the
    statistics of a session report as [totalMessages] the number of
    messages ever appended to it, while the user and assistant messages
    they count are among the retained ones, so their sum is at most that
    number and at most 50; the open and the resolved issues together are
    all the issues recorded, and the duration is the time since creation. *)
Theorem stats_over_a_run (calls : list AddCall) (sessionId : string) (now : Z)
    (stats : ConversationStats) :
  let run := addMessages calls newConversationMemory in
  getConversationStats sessionId now run.2 = Some stats →
  totalMessages stats = length (returnedFor sessionId run.1)
  ∧ (userMessages stats + assistantMessages stats
     ≤ Nat.min (totalMessages stats) 50)%nat
  ∧ (stats_openIssues stats + resolvedIssues stats)%nat
    = length (issuesOf run.2 sessionId)
  ∧ ∃ session, conversations run.2 !! sessionId = Some session
               ∧ sessionDuration stats = now - createdAt (session_metadata session).
Proof.
  intros run Hstats. unfold getConversationStats in Hstats.
  destruct (conversations run.2 !! sessionId) as [session|] eqn:Hlookup; [|done].
  injection Hstats as <-. cbn.
  destruct (addMessages_session calls newConversationMemory sessionId)
    as (Hmsgs & Hcount & _);
    [done | by (unfold messagesOf; simpl; rewrite lookup_empty; simpl; lia) |].
  fold run in Hmsgs, Hcount.
  assert (Hm0 : messagesOf newConversationMemory sessionId = []) by done.
  assert (Hc0 : messageCountOf newConversationMemory sessionId = 0%nat) by done.
  rewrite Hm0 in Hmsgs. rewrite Hc0 in Hcount.
  unfold messagesOf in Hmsgs. unfold messageCountOf in Hcount.
  rewrite Hlookup in Hmsgs, Hcount.
  change (Z.to_nat (maxHistoryLength newConversationMemory)) with 50%nat in Hmsgs.
  simpl in Hmsgs, Hcount.
  split; [done|]. split.
  - pose proof (length_filter_disjoint (λ m, role m = "user")
                  (λ m, role m = "assistant") (messages session)) as Hroles.
    rewrite Hmsgs in Hroles at 3. rewrite length_lastN in Hroles.
    rewrite Hcount, Nat.min_comm. apply Hroles. intros m -> ?. done.
  - split; [|by exists session].
    unfold issuesOf. rewrite Hlookup. apply length_filter_status.
Qed.

Lemma stats_over_a_run_witness :
  ∃ stats,
    getConversationStats "s1" 100 (addMessages fiftyOneCalls newConversationMemory).2
      = Some stats
    ∧ totalMessages stats = 51%nat
    ∧ (userMessages stats + assistantMessages stats ≤ 50)%nat.
Proof.
  destruct (getConversationStats "s1" 100
              (addMessages fiftyOneCalls newConversationMemory).2)
    as [stats|] eqn:Hs; [|exfalso; vm_compute in Hs; discriminate].
  exists stats. split; [reflexivity|].
  destruct (stats_over_a_run fiftyOneCalls "s1" 100 stats Hs) as (Htotal & Hsum & _).
  split.
  - rewrite Htotal. vm_compute. reflexivity.
  - lia.
Defined.

(** X12. Changing the persona of a session does not touch its history:
    the messages, with the persona each recorded when it was written, and
    the context stay as they were. The next message of the session records
    the new persona, and the change counts as activity. *)
Theorem persona_change_applies_to_later_messages (sessionId newPersona : string)
    (now : Z) (cm : ConversationMemory) (session : Session) :
  conversations cm !! sessionId = Some session →
  let changed := updatePersona sessionId newPersona now cm in
  changed.1 = true
  ∧ (∃ session', conversations changed.2 !! sessionId = Some session'
       ∧ messages session' = messages session
       ∧ session_context session' = session_context session
       ∧ persona session' = newPersona
       ∧ lastActivity (session_metadata session') = now
       ∧ messageCount (session_metadata session')
         = messageCount (session_metadata session))
  ∧ ∀ text role0 later rnd,
      snapshot_persona
        (msg_metadata (addMessage sessionId text role0 later rnd changed.2).1)
      = newPersona.
Proof.
  intros Hlookup changed. subst changed. unfold updatePersona. rewrite Hlookup.
  cbn [fst snd]. split; [done|]. split.
  - eexists. cbn [conversations with_conversations].
    rewrite lookup_insert_eq. split; [reflexivity|]. done.
  - intros text role0 later rnd.
    unfold addMessage. cbn [conversations with_conversations].
    rewrite lookup_insert_eq. done.
Qed.

Lemma persona_change_applies_to_later_messages_witness :
  let cm := (addMessage "s1" "hello" "user" 1 "a" newConversationMemory).2 in
  let changed := updatePersona "s1" "sap_consultant" 2 cm in
  snapshot_persona (msg_metadata (addMessage "s1" "again" "user" 3 "b" changed.2).1)
  = "sap_consultant".
Proof.
  intros cm changed.
  destruct (conversations cm !! "s1") as [session|] eqn:Hs; [|by vm_compute in Hs].
  destruct (persona_change_applies_to_later_messages "s1" "sap_consultant" 2 cm
              session Hs) as (_ & _ & Hlater).
  apply Hlater.
Defined.

Lemma cleanup_lookup (now : Z) (cm : ConversationMemory) (sessionId : string) :
  conversations (cleanupExpiredSessions now cm).2 !! sessionId
  = match conversations cm !! sessionId with
    | Some session =>
        if isExpired now (sessionTimeout cm) session then None else Some session
    | None => None
    end.
Proof.
  rewrite cleanup_unfold. cbn [snd conversations with_conversations].
  rewrite lookup_foldl_delete.
  destruct (conversations cm !! sessionId) as [session|] eqn:Hlookup.
  - destruct (isExpired now (sessionTimeout cm) session) eqn:Hexp.
    + rewrite bool_decide_eq_true_2; [done|].
      apply elem_of_expiredIds. eauto.
    + rewrite bool_decide_eq_false_2; [done|].
      intros (session' & Heq & Hexp')%elem_of_expiredIds. simplify_eq. congruence.
  - by case_bool_decide.
Qed.

Lemma cleanup_size (now : Z) (cm : ConversationMemory) :
  (size (conversations (cleanupExpiredSessions now cm).2)
   + (cleanupExpiredSessions now cm).1)%nat = size (conversations cm).
Proof.
  rewrite cleanup_unfold. cbn [fst snd conversations with_conversations].
  apply size_foldl_delete; [apply NoDup_expiredIds|].
  intros k Hk. apply elem_of_expiredIds in Hk as (session & -> & _). eauto.
Qed.

Lemma cleanup_config (now : Z) (cm : ConversationMemory) :
  sessionTimeout (cleanupExpiredSessions now cm).2 = sessionTimeout cm
  ∧ maxHistoryLength (cleanupExpiredSessions now cm).2 = maxHistoryLength cm.
Proof. done. Qed.

Lemma size_same_keys {V} (m1 m2 : gmap string V) :
  (∀ k, is_Some (m1 !! k) ↔ is_Some (m2 !! k)) → size m1 = size m2.
Proof.
  intros Hkeys. rewrite <- !size_dom. f_equal.
  apply set_eq. intros k. by rewrite !elem_of_dom.
Qed.

(** Two memories with the same sessions, each last active at the same time
    in both, are swept alike. *)
Lemma cleanup_same_activity (now : Z) (cm1 cm2 : ConversationMemory) :
  sessionTimeout cm1 = sessionTimeout cm2 →
  (∀ k, match conversations cm1 !! k, conversations cm2 !! k with
        | Some s1, Some s2 =>
            lastActivity (session_metadata s1) = lastActivity (session_metadata s2)
        | None, None => True
        | _, _ => False
        end) →
  (cleanupExpiredSessions now cm1).1 = (cleanupExpiredSessions now cm2).1
  ∧ ∀ k, is_Some (conversations (cleanupExpiredSessions now cm1).2 !! k)
         ↔ is_Some (conversations (cleanupExpiredSessions now cm2).2 !! k).
Proof.
  intros Htimeout Hsame.
  assert (Hkept : ∀ k, is_Some (conversations (cleanupExpiredSessions now cm1).2 !! k)
                       ↔ is_Some (conversations (cleanupExpiredSessions now cm2).2 !! k)).
  { intros k. rewrite !cleanup_lookup. specialize (Hsame k).
    destruct (conversations cm1 !! k) as [s1|], (conversations cm2 !! k) as [s2|];
      try done.
    unfold isExpired. rewrite Hsame, Htimeout.
    by destruct (_ >? _). }
  split; [|done].
  pose proof (cleanup_size now cm1) as H1.
  pose proof (cleanup_size now cm2) as H2.
  rewrite (size_same_keys _ _ Hkept) in H1.
  assert (size (conversations cm1) = size (conversations cm2)); [|lia].
  apply size_same_keys. intros k. specialize (Hsame k).
  destruct (conversations cm1 !! k), (conversations cm2 !! k); done.
Qed.

Lemma memory_eq (cm1 cm2 : ConversationMemory) :
  conversations cm1 = conversations cm2 →
  maxHistoryLength cm1 = maxHistoryLength cm2 →
  sessionTimeout cm1 = sessionTimeout cm2 →
  cm1 = cm2.
Proof. destruct cm1, cm2; simpl; by intros -> -> ->. Qed.

(** A write that replaces one session by one with the same last activity
    leaves the sweep as it was. *)
Lemma cleanup_after_quiet_write (now : Z) (cm : ConversationMemory)
    (sessionId : string) (session session' : Session) :
  conversations cm !! sessionId = Some session →
  lastActivity (session_metadata session') = lastActivity (session_metadata session) →
  let cm' := with_conversations (insert sessionId session') cm in
  (cleanupExpiredSessions now cm').1 = (cleanupExpiredSessions now cm).1
  ∧ ∀ k, is_Some (conversations (cleanupExpiredSessions now cm').2 !! k)
         ↔ is_Some (conversations (cleanupExpiredSessions now cm).2 !! k).
Proof.
  intros Hlookup Hactivity cm'. apply cleanup_same_activity; [done|].
  intros k. subst cm'. cbn [conversations with_conversations].
  destruct (decide (k = sessionId)) as [-> | Hne].
  - by rewrite lookup_insert_eq, Hlookup.
  - rewrite lookup_insert_ne by done. by destruct (conversations cm !! k).
Qed.

(** X13. Recording an analysis result or a generated artifact, or resolving
    an issue, is not activity: whatever the outcome of such a call, a sweep
    after it removes the same sessions, and as many, as a sweep without
    it. *)
Theorem records_do_not_postpone_expiry (sessionId kind payload issueId : string)
    (now : Z) (rnd : string) (sweepTime : Z) (cm : ConversationMemory) :
  ∀ cm',
    cm' = (addAnalysisResult sessionId kind payload now rnd cm).2
    ∨ cm' = (addGeneratedArtifact sessionId kind payload now rnd cm).2
    ∨ cm' = (resolveIssue sessionId issueId now cm).2 →
    (cleanupExpiredSessions sweepTime cm').1 = (cleanupExpiredSessions sweepTime cm).1
    ∧ ∀ k, is_Some (conversations (cleanupExpiredSessions sweepTime cm').2 !! k)
           ↔ is_Some (conversations (cleanupExpiredSessions sweepTime cm).2 !! k).
Proof.
  intros cm' [-> | [-> | ->]].
  - unfold addAnalysisResult.
    destruct (conversations cm !! sessionId) as [session|] eqn:Hlookup; [|done].
    cbn [snd]. by eapply cleanup_after_quiet_write.
  - unfold addGeneratedArtifact.
    destruct (conversations cm !! sessionId) as [session|] eqn:Hlookup; [|done].
    cbn [snd]. by eapply cleanup_after_quiet_write.
  - unfold resolveIssue.
    destruct (conversations cm !! sessionId) as [session|] eqn:Hlookup; [|done].
    destruct (resolveFirst _ _ _); [|done].
    cbn [snd]. by eapply cleanup_after_quiet_write.
Qed.

Lemma records_do_not_postpone_expiry_witness :
  let cm := (addMessage "s1" "hello" "user" 0 "a" newConversationMemory).2 in
  let cm' := (addAnalysisResult "s1" "gap" "report" 86400000 "b" cm).2 in
  (cleanupExpiredSessions 86400001 cm').1 = (cleanupExpiredSessions 86400001 cm).1.
Proof.
  intros cm cm'.
  apply (records_do_not_postpone_expiry "s1" "gap" "report" "" 86400000 "b"
           86400001 cm cm').
  by left.
Defined.

(** X14. A message is activity: a sweep that runs no later than the
    timeout after an [addMessage] call keeps the session the call wrote,
    with everything in it. *)
Theorem message_keeps_session_alive (sessionId message role0 : string) (now : Z)
    (rnd : string) (sweepTime : Z) (cm : ConversationMemory) :
  sweepTime - now ≤ sessionTimeout cm →
  let added := addMessage sessionId message role0 now rnd cm in
  is_Some (conversations added.2 !! sessionId)
  ∧ conversations (cleanupExpiredSessions sweepTime added.2).2 !! sessionId
    = conversations added.2 !! sessionId.
Proof.
  intros Hsoon added.
  destruct (addMessage_written sessionId message role0 now rnd cm)
    as (base & _ & Hwritten & _).
  fold added in Hwritten.
  split; [by rewrite Hwritten|].
  rewrite cleanup_lookup, Hwritten.
  destruct (addMessage_config sessionId message role0 now rnd cm) as [_ Htimeout].
  fold added in Htimeout. rewrite Htimeout.
  unfold isExpired. cbn.
  destruct (Z.gtb_spec (sweepTime - now) (sessionTimeout cm)); [lia | done].
Qed.

Lemma message_keeps_session_alive_witness :
  let added := addMessage "s1" "hello" "user" 1000 "a" newConversationMemory in
  conversations (cleanupExpiredSessions 86401000 added.2).2 !! "s1"
  = conversations added.2 !! "s1".
Proof.
  intros added.
  apply (message_keeps_session_alive "s1" "hello" "user" 1000 "a" 86401000
           newConversationMemory).
  simpl. lia.
Defined.

(** X15. Sweeps compose: a sweep at a time after an earlier sweep leaves
    the memory a single sweep at the later time leaves, and the two counts
    add up to the count of that single sweep. A second sweep at the same
    time removes nothing and returns 0. *)
Theorem sweeps_compose (earlier later : Z) (cm : ConversationMemory) :
  earlier ≤ later →
  let first := cleanupExpiredSessions earlier cm in
  let second := cleanupExpiredSessions later first.2 in
  second.2 = (cleanupExpiredSessions later cm).2
  ∧ (first.1 + second.1)%nat = (cleanupExpiredSessions later cm).1
  ∧ cleanupExpiredSessions earlier first.2 = (0%nat, first.2).
Proof.
  intros Hle first second.
  assert (Hcompose : ∀ t, earlier ≤ t →
            conversations (cleanupExpiredSessions t first.2).2
            = conversations (cleanupExpiredSessions t cm).2).
  { intros t Ht. apply map_eq. intros k. subst first.
    rewrite !cleanup_lookup.
    destruct (conversations cm !! k) as [session|]; [|done].
    unfold isExpired. cbn [sessionTimeout snd cleanupExpiredSessions with_conversations].
    destruct (Z.gtb_spec (earlier - lastActivity (session_metadata session))
                (sessionTimeout cm)) as [Hexp1 | Hlive1];
      destruct (Z.gtb_spec (t - lastActivity (session_metadata session))
                  (sessionTimeout cm)) as [Hexp2 | Hlive2]; try done.
    lia. }
  assert (Hmem : ∀ t, earlier ≤ t →
            (cleanupExpiredSessions t first.2).2 = (cleanupExpiredSessions t cm).2).
  { intros t Ht. apply memory_eq; [by apply Hcompose | done..]. }
  split; [by apply Hmem|].
  pose proof (cleanup_size earlier cm) as H1.
  pose proof (cleanup_size later first.2) as H12.
  pose proof (cleanup_size later cm) as H2.
  pose proof (cleanup_size earlier first.2) as H11.
  fold first in H1.
  rewrite (Hcompose later Hle) in H12.
  rewrite (Hcompose earlier ltac:(lia)) in H11. fold first in H11.
  subst second.
  split; [lia|].
  apply injective_projections.
  - cbn [fst]. lia.
  - cbn [snd]. rewrite (Hmem earlier ltac:(lia)). done.
Qed.

Lemma sweeps_compose_witness :
  let cm := (addMessage "s1" "hello" "user" 0 "a" newConversationMemory).2 in
  cleanupExpiredSessions 90000000 (cleanupExpiredSessions 90000000 cm).2
  = (0%nat, (cleanupExpiredSessions 90000000 cm).2).
Proof.
  intros cm.
  exact (proj2 (proj2 (sweeps_compose 90000000 90000000 cm ltac:(lia)))).
Defined.

(* ===================================================================== *)
(** ** The chat service on success, and the direct calls *)
(* ===================================================================== *)

Lemma mapC_entries (entries : list Groq.ChatMessage) :
  mapC (λ msg : option Groq.ChatMessage,
          match msg with
          | Some m => Normal {| Groq.chat_role := Groq.chat_role m;
                                Groq.chat_content := Groq.chat_content m |}
          | None => Throw "Cannot read properties of undefined (reading 'role')"
          end) (Some <$> entries)
  = Normal entries.
Proof.
  induction entries as [|[r c] entries IH]; [done|].
  cbn [fmap list_fmap mapC bindC]. cbn [fmap list_fmap] in IH. by rewrite IH.
Qed.

(** X16. When the history is an array without a [null] entry and the
    provider answers in time with a non-empty content in its first choice,
    [chat] asks the provider for the system prompt, the history as it is,
    and the message as the last, user, entry. With a context that is not
    [null] it returns that content unchanged, without the error flag, with
    the persona, the model, the token count of the response (0 when
    absent) and the context type (general when absent), and with
    suggestions that depend on the persona only. With a context that is
    [null], which the default of the pattern does not replace, reading its
    type for the metadata throws after the provider has answered, and
    [chat] returns the apology with that error. *)
Theorem chat_returns_provider_content
    (prompts : Groq.PromptLibrary)
    (create : Groq.ProviderRequest → Groq.Settlement)
    (defaultModel : string) (responseTime : Z)
    (message : string) (options : Groq.ChatOptions)
    (entries : list Groq.ChatMessage)
    (response : Groq.ProviderResponse) (c : Groq.Choice) (others : list Groq.Choice)
    (text : string) :
  let persona0 := default Groq.defaultPersona (Groq.opt_persona options) in
  let context0 := default Groq.defaultContext (Groq.opt_context options) in
  default (Groq.JsValue []) (Groq.opt_conversationHistory options)
    = Groq.JsValue (Some <$> entries) →
  create
    {| Groq.req_messages :=
         {| Groq.chat_role := "system";
            Groq.chat_content := Groq.getSystemPrompt prompts persona0 context0 |}
         :: entries
         ++ [{| Groq.chat_role := "user"; Groq.chat_content := message |}];
       Groq.req_model := defaultModel;
       Groq.req_max_tokens :=
         default (Groq.JsValue 4000%nat) (Groq.opt_maxTokens options) |}
    = Groq.Settled (Normal response) →
  Groq.choices response = Some (c :: others) →
  Groq.choice_message c = Some {| Groq.choice_content := Some text |} →
  text ≠ "" →
  Groq.chat prompts create defaultModel responseTime message options
  = Normal
      match context0 with
      | Groq.JsNull => Groq.errorReply Groq.nullTypeMessage
      | Groq.JsValue given =>
          {| Groq.reply_content := text;
             Groq.reply_metadata :=
               Groq.ReplyInfo persona0 defaultModel
                 (match Groq.usage response with
                  | Some u => default 0%nat (Groq.total_tokens u)
                  | None => 0%nat
                  end)
                 responseTime
                 (match Groq.context_type given with
                  | Some t => if bool_decide (t = "") then "general" else t
                  | None => "general"
                  end);
             Groq.suggestions :=
               if bool_decide (persona0 = Groq.JsValue "sap_consultant")
               then Groq.generateSAPSuggestions
               else if bool_decide (persona0 = Groq.JsValue "erp_analyst")
                    then Groq.generateAnalysisSuggestions
                    else [] |}
      end.
Proof.
  intros persona0 context0 Hhistory Hcreate Hchoices Hmessage Htext.
  unfold Groq.chat, Groq.chatBody, Groq.builtMessages, Groq.buildDirectMessages.
  fold persona0 context0. rewrite Hhistory, mapC_entries. cbn [bindC].
  unfold Groq.raceWithTimeout, Groq.requestOf. rewrite Hcreate. cbn [bindC].
  unfold Groq.firstChoiceContent. rewrite Hchoices, Hmessage. cbn [bindC Groq.choice_content].
  unfold JS.truthy at 1. rewrite bool_decide_eq_false_2 by done. cbn [negb].
  destruct context0 as [|given]; [reflexivity|].
  cbn [Groq.readContextType bindC tryCatch Groq.processResponse fst snd].
  do 2 f_equal. f_equal.
  destruct (Groq.context_type given) as [t|]; [|done].
  unfold JS.truthy. by destruct (bool_decide (t = "")).
Qed.

Lemma chat_returns_provider_content_witness :
  let prompts :=
    {| Groq.sapConsultantPrompt := None; Groq.erpAnalystPrompt := None;
       Groq.technicalArchitectPrompt := None; Groq.businessAnalystPrompt := None;
       Groq.implementationSpecialistPrompt := None;
       Groq.generalERPPrompt := None |} in
  let response :=
    {| Groq.choices :=
         Some [{| Groq.choice_message :=
                    Some {| Groq.choice_content := Some "Use transaction SE38." |} |}];
       Groq.usage := None |} in
  let options context0 :=
    {| Groq.opt_persona := Some (Groq.JsValue "sap_consultant");
       Groq.opt_context := context0;
       Groq.opt_conversationHistory := None; Groq.opt_maxTokens := None |} in
  Groq.chat prompts (λ _, Groq.Settled (Normal response)) "llama3-70b-8192" 12
    "How do I run a report?" (options None)
  = Normal {| Groq.reply_content := "Use transaction SE38.";
              Groq.reply_metadata :=
                Groq.ReplyInfo (Groq.JsValue "sap_consultant") "llama3-70b-8192"
                  0 12 "general";
              Groq.suggestions := Groq.generateSAPSuggestions |}
  ∧ Groq.chat prompts (λ _, Groq.Settled (Normal response)) "llama3-70b-8192" 12
      "How do I run a report?" (options (Some Groq.JsNull))
    = Normal (Groq.errorReply Groq.nullTypeMessage).
Proof.
  intros prompts response options.
  pose (first := {| Groq.choice_message :=
                      Some {| Groq.choice_content := Some "Use transaction SE38." |} |}).
  split.
  - rewrite (chat_returns_provider_content prompts
               (λ _, Groq.Settled (Normal response)) "llama3-70b-8192" 12
               "How do I run a report?" (options None) [] response first []
               "Use transaction SE38."); done.
  - rewrite (chat_returns_provider_content prompts
               (λ _, Groq.Settled (Normal response)) "llama3-70b-8192" 12
               "How do I run a report?" (options (Some Groq.JsNull)) [] response
               first [] "Use transaction SE38."); done.
Defined.

(** X17. [generateResponse] has no fallback reply. It returns normally
    exactly when the provider answers in time and, unless streaming was
    asked for, the answer has a [choices] array; it then returns the
    content of the first choice even when that is missing or empty. In
    every other case it throws, with the cause behind the two prefixes
    "Response generation failed: Direct chat failed: ", the cause of a
    late provider being the 30-second timeout. *)
Theorem generateResponse_outcomes
    (create : GroqDirect.DirectRequest → Groq.Settlement) (defaultModel : string)
    (prompt : string) (options : GroqDirect.DirectOptions) :
  let request :=
    GroqDirect.directRequestOf defaultModel
      [{| Groq.chat_role := "user"; Groq.chat_content := prompt |}] options in
  let failure cause :=
    Throw ("Response generation failed: " +:+ "Direct chat failed: " +:+ cause) in
  GroqDirect.generateResponse create defaultModel prompt options
  = match create request with
    | Groq.Pending => failure GroqDirect.directTimeoutMessage
    | Groq.Settled (Throw e) => failure e
    | Groq.Settled (Normal response) =>
        if default false (GroqDirect.opt_stream options)
        then Normal (GroqDirect.ReturnedResponse response)
        else match Groq.choices response with
             | None => failure "Cannot read properties of undefined (reading '0')"
             | Some [] => Normal (GroqDirect.ReturnedContent None)
             | Some (c :: _) =>
                 Normal (GroqDirect.ReturnedContent
                           (match Groq.choice_message c with
                            | Some m => Groq.choice_content m
                            | None => None
                            end))
             end
    end.
Proof.
  intros request failure.
  unfold GroqDirect.generateResponse, GroqDirect.directChat, GroqDirect.raceDirect.
  fold request.
  destruct (create request) as [[response | e] |]; cbn [bindC tryCatch]; try done.
  destruct (default false (GroqDirect.opt_stream options)); [done|].
  unfold Groq.firstChoiceContent.
  destruct (Groq.choices response) as [[|c cs]|]; done.
Qed.

(* ===================================================================== *)
(** ** The ERP reply parser *)
(* ===================================================================== *)

Lemma splitLines_nonempty (s : string) : ERPReply.splitLines s ≠ [].
Proof.
  induction s as [|c s IH]; cbn [ERPReply.splitLines]; [done|].
  case_bool_decide; [done|]. by destruct (ERPReply.splitLines s).
Qed.

Lemma join_cons_cons (sep x y : string) (l : list string) :
  JS.join sep (x :: y :: l) = x +:+ sep +:+ JS.join sep (y :: l).
Proof. reflexivity. Qed.

(** Joining the lines of a text with line feeds gives the text back. *)
Lemma join_splitLines (s : string) : JS.join JS.newline (ERPReply.splitLines s) = s.
Proof.
  induction s as [|c s IH]; [done|].
  cbn [ERPReply.splitLines].
  destruct (ERPReply.splitLines s) as [|p ps] eqn:Hsplit;
    [by apply splitLines_nonempty in Hsplit|].
  case_bool_decide as Hc.
  - rewrite join_cons_cons, IH, Hc. reflexivity.
  - destruct ps as [|q ps].
    + cbn in IH. cbn. by rewrite IH.
    + rewrite join_cons_cons in *. rewrite string_app_cons. by rewrite IH.
Qed.

Lemma headerOf_not_main (line : string) : ERPReply.headerOf line ≠ Some ERPReply.sec_main.
Proof. unfold ERPReply.headerOf. repeat case_match; done. Qed.

Lemma scanLines_main_kept (lines : list string) (sections : ERPReply.Sections)
    (current : ERPReply.SectionName) (acc : list string) :
  current ≠ ERPReply.sec_main →
  ERPReply.main (ERPReply.scanLines lines sections current acc)
  = ERPReply.main sections.
Proof.
  revert sections current acc.
  induction lines as [|line lines IH]; intros sections current acc Hcurrent;
    cbn [ERPReply.scanLines].
  - by destruct current.
  - destruct (ERPReply.headerOf line) as [next|] eqn:Hheader.
    + rewrite IH; [by destruct current|].
      intros ->. by apply headerOf_not_main in Hheader.
    + by apply IH.
Qed.

Lemma scanLines_main (lines : list string) (sections : ERPReply.Sections)
    (acc : list string) :
  ERPReply.main (ERPReply.scanLines lines sections ERPReply.sec_main acc)
  = Some (JS.join JS.newline (acc ++ ERPReply.linesBeforeHeader lines)).
Proof.
  revert sections acc.
  induction lines as [|line lines IH]; intros sections acc;
    cbn [ERPReply.scanLines ERPReply.linesBeforeHeader].
  - by rewrite app_nil_r.
  - destruct (ERPReply.headerOf line) as [next|] eqn:Hheader.
    + rewrite scanLines_main_kept, app_nil_r; [done|].
      intros ->. by apply headerOf_not_main in Hheader.
    + by rewrite IH, <- app_assoc.
Qed.

Lemma scanLines_no_header (lines : list string) (sections : ERPReply.Sections)
    (current : ERPReply.SectionName) (acc : list string) :
  (∀ line, line ∈ lines → ERPReply.headerOf line = None) →
  ERPReply.scanLines lines sections current acc
  = ERPReply.setSection current (JS.join JS.newline (acc ++ lines)) sections.
Proof.
  revert acc. induction lines as [|line lines IH]; intros acc Hnone;
    cbn [ERPReply.scanLines].
  - by rewrite app_nil_r.
  - rewrite (Hnone line) by left.
    rewrite IH, <- app_assoc; [done|].
    intros l Hl. apply Hnone. by right.
Qed.

(** X18. [extractSections] stores as [main] exactly the lines of the reply
    that come before the first line opening a section, joined again; a
    later section never overwrites it. So [parseERPResponse] returns that
    text as content, or the whole reply when that text is empty; and for a
    reply without any such line it returns the reply unchanged, with no
    analysis, recommendations or next steps. *)
Theorem parseERPResponse_main_section (text : string) :
  let before :=
    JS.join JS.newline (ERPReply.linesBeforeHeader (ERPReply.splitLines text)) in
  ERPReply.main (ERPReply.extractSections (Some text)) = Some before
  ∧ ERPReply.parsed_content (ERPReply.parseERPResponse (Some text))
    = Some (if bool_decide (before = "") then text else before)
  ∧ ((∀ line, line ∈ ERPReply.splitLines text → ERPReply.headerOf line = None) →
     ERPReply.parseERPResponse (Some text)
     = {| ERPReply.parsed_content := Some text;
          ERPReply.parsed_analysis := None;
          ERPReply.parsed_recommendations := None;
          ERPReply.parsed_nextSteps := None |}).
Proof.
  intros before.
  assert (Hmain : ERPReply.main (ERPReply.extractSections (Some text)) = Some before).
  { unfold ERPReply.extractSections. by rewrite scanLines_main. }
  split; [done|]. split.
  - unfold ERPReply.parseERPResponse. cbn [ERPReply.parsed_content].
    rewrite Hmain. unfold ERPReply.orElse, JS.truthy.
    by destruct (bool_decide (before = "")).
  - intros Hnone. unfold ERPReply.parseERPResponse, ERPReply.extractSections.
    rewrite scanLines_no_header by done.
    cbn. rewrite join_splitLines.
    unfold ERPReply.orElse, JS.truthy.
    destruct (bool_decide (text = "")) eqn:Hempty; cbn; [|done].
    apply bool_decide_eq_true in Hempty. by rewrite Hempty.
Qed.

Lemma parseERPResponse_main_section_witness :
  let text := "SAP fits." +:+ JS.newline +:+ "Use S/4HANA" in
  ERPReply.parseERPResponse (Some text)
  = {| ERPReply.parsed_content := Some text;
       ERPReply.parsed_analysis := None;
       ERPReply.parsed_recommendations := None;
       ERPReply.parsed_nextSteps := None |}.
Proof.
  intros text.
  apply (proj2 (proj2 (parseERPResponse_main_section text))).
  intros line Hline. vm_compute in Hline.
  apply list_elem_of_In in Hline. simpl in Hline.
  destruct Hline as [<- | [<- | []]]; vm_compute; reflexivity.
Defined.

Example parse_with_sections :
  let text := "Intro" +:+ JS.newline +:+ "## Analysis" +:+ JS.newline +:+ "slow"
              +:+ JS.newline +:+ "Next steps: soon" +:+ JS.newline +:+ "go" in
  ERPReply.extractSections (Some text)
  = {| ERPReply.main := Some "Intro"; ERPReply.analysis := Some "slow";
       ERPReply.recommendations := None; ERPReply.nextSteps := Some "go" |}.
Proof. vm_compute. reflexivity. Qed.

(* ===================================================================== *)
(** ** The chat route and the shared history array *)
(* ===================================================================== *)

Lemma ref_readArray_insert (a b : nat) (contents : list Message) (mr : Refs.MemoryRef) :
  Refs.readArray b (Refs.with_arrays (insert a contents) mr)
  = if decide (a = b) then contents else Refs.readArray b mr.
Proof.
  unfold Refs.readArray, Refs.with_arrays. cbn [Refs.arrays].
  destruct (decide (a = b)) as [-> | Hne].
  - by rewrite lookup_insert_eq.
  - by rewrite lookup_insert_ne.
Qed.

Lemma ref_readArray_sessions f (a : nat) (mr : Refs.MemoryRef) :
  Refs.readArray a (Refs.with_sessions f mr) = Refs.readArray a mr.
Proof. reflexivity. Qed.

Lemma ref_fresh_not_allocated (a : nat) (mr : Refs.MemoryRef) :
  a ∈ dom (Refs.arrays mr) → fresh (dom (Refs.arrays mr)) ≠ a.
Proof. intros Ha Heq. apply (is_fresh (dom (Refs.arrays mr))). by rewrite Heq. Qed.

(** The push and the trim, on the contents: the array at [a] gets the
    message, the session's array is the trimmed one, other arrays stay. *)
Lemma ref_pushAndTrim (messageObj : Message) (a : nat) (mr1 : Refs.MemoryRef) :
  let trimmed := Refs.pushAndTrim messageObj a mr1 in
  let pushed := Refs.readArray a mr1 ++ [messageObj] in
  Refs.readArray trimmed.1 trimmed.2
  = (if Z.of_nat (length pushed) >? Refs.ref_maxHistoryLength mr1
     then JS.slice pushed (- Refs.ref_maxHistoryLength mr1)
     else pushed)
  ∧ Refs.readArray a trimmed.2 = pushed
  ∧ Refs.ref_conversations trimmed.2 = Refs.ref_conversations mr1
  ∧ Refs.ref_maxHistoryLength trimmed.2 = Refs.ref_maxHistoryLength mr1
  ∧ Refs.ref_sessionTimeout trimmed.2 = Refs.ref_sessionTimeout mr1
  ∧ ∀ b, b ≠ a → b ∈ dom (Refs.arrays mr1) →
         Refs.readArray b trimmed.2 = Refs.readArray b mr1.
Proof.
  intros trimmed pushed. subst trimmed. unfold Refs.pushAndTrim.
  fold pushed.
  set (mr2 := Refs.with_arrays (insert a pushed) mr1).
  assert (Hpushed : Refs.readArray a mr2 = pushed).
  { subst mr2. by rewrite ref_readArray_insert, decide_True. }
  assert (Hother : ∀ b, b ≠ a → Refs.readArray b mr2 = Refs.readArray b mr1).
  { intros b Hb. subst mr2. by rewrite ref_readArray_insert, decide_False. }
  assert (Hdom : ∀ b, b = a ∨ b ∈ dom (Refs.arrays mr1) → b ∈ dom (Refs.arrays mr2)).
  { intros b Hb. subst mr2. unfold Refs.with_arrays. cbn [Refs.arrays].
    rewrite dom_insert. set_solver. }
  rewrite Hpushed.
  change (Refs.ref_maxHistoryLength mr2) with (Refs.ref_maxHistoryLength mr1).
  destruct (_ >? _).
  - unfold Refs.newArray. cbn [fst snd].
    rewrite ref_readArray_insert, decide_True by done.
    split; [done|]. split.
    + rewrite ref_readArray_insert, decide_False; [done|].
      apply ref_fresh_not_allocated, Hdom. by left.
    + repeat split; try done.
      intros b Hb Hbdom. rewrite ref_readArray_insert, decide_False.
      * by apply Hother.
      * apply ref_fresh_not_allocated, Hdom. by right.
  - cbn [fst snd]. repeat split; try done.
    intros b Hb _. by apply Hother.
Qed.

Lemma ref_view_lookup (mr : Refs.MemoryRef) (sessionId : string) :
  conversations (Refs.view mr) !! sessionId
  = Refs.viewSession mr <$> Refs.ref_conversations mr !! sessionId.
Proof. unfold Refs.view. cbn [conversations]. apply lookup_fmap. Qed.

(** The reference-level [addMessage] returns the message, and writes the
    session, that [addMessage] on the contents does. The array a session
    had before the call holds one message more after it, and for a session
    that did not exist the arrays that did are left alone. *)
Lemma ref_addMessage_written (sessionId message role0 : string) (now : Z)
    (rnd : string) (mr : Refs.MemoryRef) :
  let added := Refs.addMessage sessionId message role0 now rnd mr in
  let pure := addMessage sessionId message role0 now rnd (Refs.view mr) in
  added.1 = pure.1
  ∧ conversations (Refs.view added.2) !! sessionId = conversations pure.2 !! sessionId
  ∧ Refs.ref_maxHistoryLength added.2 = Refs.ref_maxHistoryLength mr
  ∧ (∀ session, Refs.ref_conversations mr !! sessionId = Some session →
       Refs.readArray (Refs.ref_messages session) added.2
       = Refs.readArray (Refs.ref_messages session) mr ++ [added.1])
  ∧ (Refs.ref_conversations mr !! sessionId = None →
     ∀ b, b ∈ dom (Refs.arrays mr) → Refs.readArray b added.2 = Refs.readArray b mr).
Proof.
  intros added pure.
  destruct (addMessage_written sessionId message role0 now rnd (Refs.view mr))
    as (base & Hbase & Hpurewritten & Hpureobj).
  fold pure in Hpurewritten, Hpureobj.
  rewrite Hpurewritten, Hpureobj. clear Hpurewritten Hpureobj pure.
  rewrite ref_view_lookup in Hbase.
  subst added. unfold Refs.addMessage.
  destruct (Refs.ref_conversations mr !! sessionId) as [session|] eqn:Hlookup;
    cbn [fmap option_fmap option_map] in Hbase; cbn [fst snd].
  - destruct Hbase as [[= <-] | [? _]]; [|done].
    set (obj := {| msg_id := _; role := role0; content := message; timestamp := now;
                   msg_metadata := _ |}).
    pose proof (ref_pushAndTrim obj (Refs.ref_messages session) mr)
      as (Hread & Hold & _ & Hmax & _ & _).
    split; [done|]. split.
    + rewrite ref_view_lookup. cbn [Refs.ref_conversations Refs.with_sessions].
      rewrite lookup_insert_eq. cbn [fmap option_fmap option_map].
      f_equal. unfold Refs.viewSession, updateContextFromMessage, with_context,
        pushMessage.
      cbn [Refs.ref_id Refs.ref_persona Refs.ref_messages Refs.ref_context
           Refs.ref_metadata session_id persona messages session_context
           session_metadata].
      f_equal. rewrite ref_readArray_sessions. exact Hread.
    + split; [exact Hmax|]. split; [|done].
      intros session' [= <-]. rewrite ref_readArray_sessions. exact Hold.
  - destruct Hbase as [? | [_ ->]]; [done|].
    unfold Refs.initializeSession. cbn [fst snd Refs.ref_messages Refs.ref_persona
      Refs.ref_context Refs.ref_metadata Refs.ref_id].
    set (a := (Refs.newArray [] mr).1).
    set (mr1 := Refs.with_sessions _ (Refs.newArray [] mr).2).
    set (obj := {| msg_id := _; role := role0; content := message; timestamp := now;
                   msg_metadata := _ |}).
    assert (Hempty : Refs.readArray a mr1 = []).
    { subst mr1 a. unfold Refs.newArray. cbn [fst snd].
      by rewrite ref_readArray_sessions, ref_readArray_insert, decide_True. }
    pose proof (ref_pushAndTrim obj a mr1) as (Hread & _ & _ & Hmax & _ & Hothers).
    rewrite Hempty in Hread.
    split; [done|]. split.
    + rewrite ref_view_lookup. cbn [Refs.ref_conversations Refs.with_sessions].
      rewrite lookup_insert_eq. cbn [fmap option_fmap option_map].
      f_equal. unfold Refs.viewSession, updateContextFromMessage, with_context,
        pushMessage, freshSession, initializeSession.
      cbn [Refs.ref_id Refs.ref_persona Refs.ref_messages Refs.ref_context
           Refs.ref_metadata session_id persona messages session_context
           session_metadata fst].
      f_equal. rewrite ref_readArray_sessions. exact Hread.
    + split; [exact Hmax|]. split; [done|].
      intros _ b Hb.
      assert (Hba : b ≠ a).
      { subst a. unfold Refs.newArray. cbn [fst]. intros ->.
        by apply (is_fresh (dom (Refs.arrays mr))). }
      rewrite ref_readArray_sessions, Hothers; [|done|].
      * subst mr1. unfold Refs.newArray. cbn [snd].
        rewrite ref_readArray_sessions, ref_readArray_insert, decide_False; [done|].
        intros Heq. apply Hba. subst a. unfold Refs.newArray. cbn [fst]. done.
      * subst mr1. unfold Refs.newArray, Refs.with_arrays, Refs.with_sessions.
        cbn [snd Refs.arrays]. rewrite dom_insert. set_solver.
Qed.

Lemma ref_getHistory_unlimited (sessionId : string) (mr : Refs.MemoryRef) :
  let fetched := Refs.getConversationHistory sessionId None mr in
  Refs.ref_conversations fetched.2 = Refs.ref_conversations mr
  ∧ Refs.ref_maxHistoryLength fetched.2 = Refs.ref_maxHistoryLength mr
  ∧ conversations (Refs.view fetched.2) !! sessionId
    = conversations (Refs.view mr) !! sessionId
  ∧ match Refs.ref_conversations mr !! sessionId with
    | Some session => fetched = (Refs.ref_messages session, mr)
    | None => fetched.1 ∈ dom (Refs.arrays fetched.2)
              ∧ Refs.readArray fetched.1 fetched.2 = []
    end.
Proof.
  intros fetched. subst fetched. unfold Refs.getConversationHistory.
  destruct (Refs.ref_conversations mr !! sessionId) as [session|] eqn:Hlookup; [done|].
  unfold Refs.newArray. cbn [fst snd]. split; [done|]. split; [done|]. split.
  - rewrite !ref_view_lookup. cbn [Refs.ref_conversations Refs.with_arrays].
    by rewrite Hlookup.
  - split.
    + unfold Refs.with_arrays. cbn [Refs.arrays]. rewrite dom_insert. set_solver.
    + by rewrite ref_readArray_insert, decide_True.
Qed.

Lemma fmap_some_entries (l : list Message) :
  (λ m, Some (Refs.toChatMessage m)) <$> l = Some <$> (Refs.toChatMessage <$> l).
Proof. by rewrite <- list_fmap_compose. Qed.

(** X19. The chat route fetches the history before it adds the user
    message, but the array it fetched is the session's own, and it is read
    only when the provider request is built. For a session that exists the
    request therefore holds the system prompt, the stored messages, and the
    new user message twice: once as the last entry of the history and once
    as the current message. For a session that does not exist yet the
    fetched array is a new empty one, and the request holds the system
    prompt and the message only. *)
Theorem route_request_repeats_user_message (prompts : Groq.PromptLibrary)
    (body : Refs.ChatBody) (now : Z) (rnd : string) (mr : Refs.MemoryRef) :
  let persona0 := default Groq.defaultPersona (Refs.body_persona body) in
  let context0 := default Groq.defaultContext (Refs.body_context body) in
  let system :=
    {| Groq.chat_role := "system";
       Groq.chat_content := Groq.getSystemPrompt prompts persona0 context0 |} in
  let user :=
    {| Groq.chat_role := "user"; Groq.chat_content := Refs.body_message body |} in
  Groq.builtMessages prompts (Refs.body_message body)
    (Refs.routeOptions body now rnd mr).1
  = Normal
      match Refs.ref_conversations mr !! Refs.body_sessionId body with
      | Some session =>
          system
          :: (Refs.toChatMessage <$> Refs.readArray (Refs.ref_messages session) mr)
          ++ [user; user]
      | None => [system; user]
      end.
Proof.
  intros persona0 context0 system user.
  unfold Refs.routeOptions. cbn [fst].
  unfold Groq.builtMessages, Groq.buildDirectMessages.
  cbn [Groq.opt_persona Groq.opt_context Groq.opt_conversationHistory default
       from_option].
  unfold id. fold persona0 context0.
  rewrite fmap_some_entries, mapC_entries. cbn [bindC]. f_equal.
  pose proof (ref_getHistory_unlimited (Refs.body_sessionId body) mr)
    as (Hconv & _ & _ & Hfetched).
  set (fetched := Refs.getConversationHistory (Refs.body_sessionId body) None mr) in *.
  pose proof (ref_addMessage_written (Refs.body_sessionId body)
                (Refs.body_message body) "user" now rnd fetched.2)
    as (Hobj & _ & _ & Hknown & Hunknown).
  rewrite Hconv in Hknown, Hunknown.
  destruct (Refs.ref_conversations mr !! Refs.body_sessionId body)
    as [session|] eqn:Hlookup.
  - rewrite Hfetched in *. cbn [fst snd] in *.
    rewrite (Hknown session eq_refl), fmap_app.
    destruct (addMessage_written (Refs.body_sessionId body) (Refs.body_message body)
                "user" now rnd (Refs.view mr)) as (base & _ & _ & Hpure).
    rewrite Hobj, Hpure. cbn. by rewrite <- app_assoc.
  - destruct Hfetched as [Hdom Hempty].
    by rewrite Hunknown, Hempty.
Qed.







(* ===================================================================== *)
(** ** The validators and the session ids *)
(* ===================================================================== *)

(** X21. [validateMessage] never reports that the message must be a string:
    a value that is not a string is either falsy, and reported as missing,
    or it reaches [message.trim()], which raises before anything is
    returned. It returns a result exactly for falsy values and strings. *)
Theorem validateMessage_never_reports_type (v : Validators.Value) :
  (∀ r, Validators.validateMessage v = Normal r →
        Validators.messageNotString ∉ Validators.mv_errors r)
  ∧ ((∃ r, Validators.validateMessage v = Normal r)
     ↔ Validators.truthyValue v = false ∨ ∃ s, v = Validators.VString s).
Proof.
  split.
  - intros r. unfold Validators.validateMessage.
    destruct (Validators.truthyValue v) eqn:Htruthy; cbn [negb].
    + destruct v; try discriminate. intros [= <-]. cbn [Validators.mv_errors].
      repeat case_match; cbn; rewrite ?elem_of_cons, ?elem_of_nil;
        intros Hin; repeat destruct Hin as [Hin | Hin]; first [discriminate | done].
    + intros [= <-]. cbn. rewrite elem_of_cons, elem_of_nil.
      intros [Hin | []]. discriminate.
  - unfold Validators.validateMessage.
    destruct (Validators.truthyValue v) eqn:Htruthy; cbn [negb].
    + destruct v; split; intros H; try (by destruct H as [? ?]);
        try (destruct H as [? | [? ?]]; discriminate); eauto.
    + split; eauto.
Qed.

Lemma length_trim_le (s : string) :
  (String.length (JS.trim s) ≤ String.length s)%nat.
Proof.
  destruct (trim_occursIn s) as (pre & post & Hs).
  rewrite Hs at 2. rewrite !string_length_app. lia.
Qed.

Lemma string_length_zero (s : string) : (String.length s =? 0)%nat = true ↔ s = "".
Proof. destruct s; cbn; split; intros; done. Qed.

(** X22. For a string message, [validateMessage] accepts exactly the
    messages of at most 10000 characters that are not only white space;
    the sanitized value of an accepted message is its trimmed text, and
    validating that text again gives the same result. *)
Theorem validateMessage_sanitized_revalidates (s : string)
    (r : Validators.MessageValidation) :
  Validators.validateMessage (Validators.VString s) = Normal r →
  (Validators.mv_isValid r = true
   ↔ JS.trim s ≠ "" ∧ Z.of_nat (String.length s) ≤ 10000)
  ∧ (Validators.mv_isValid r = true →
     Validators.mv_errors r = []
     ∧ Validators.mv_sanitized r = Some (JS.trim s)
     ∧ Validators.validateMessage (Validators.VString (JS.trim s)) = Normal r).
Proof.
  unfold Validators.validateMessage at 1. cbn [Validators.truthyValue].
  destruct (decide (s = "")) as [-> | Hne].
  { intros [= <-]. cbn. split; [|done]. split; [done | by intros [[] _]]. }
  rewrite bool_decide_eq_false_2 by done. cbn [negb].
  destruct (String.length (JS.trim s) =? 0)%nat eqn:Hempty.
  { apply string_length_zero in Hempty. intros [= <-].
    split; [|by repeat case_match].
    split; [by repeat case_match | by intros [[] _]]. }
  assert (Htrim : JS.trim s ≠ "").
  { intros Heq. apply string_length_zero in Heq. congruence. }
  destruct (Z.gtb_spec (Z.of_nat (String.length s)) 10000) as [Hlong | Hshort].
  { intros [= <-]. cbn. split; [|done]. split; [done | lia]. }
  intros [= <-]. cbn. split; [done|]. intros _. split; [done|]. split; [done|].
  unfold Validators.validateMessage. cbn [Validators.truthyValue].
  rewrite bool_decide_eq_false_2 by done. cbn [negb].
  rewrite trim_idempotent, Hempty.
  pose proof (length_trim_le s).
  destruct (Z.gtb_spec (Z.of_nat (String.length (JS.trim s))) 10000); [lia|].
  done.
Qed.

Lemma validateMessage_sanitized_revalidates_witness :
  let r := {| Validators.mv_isValid := true; Validators.mv_errors := [];
              Validators.mv_sanitized := Some "post the invoice" |} in
  Validators.validateMessage (Validators.VString "  post the invoice  ") = Normal r
  ∧ Validators.validateMessage (Validators.VString "post the invoice") = Normal r.
Proof.
  intros r.
  assert (Hfirst : Validators.validateMessage
                     (Validators.VString "  post the invoice  ") = Normal r)
    by reflexivity.
  split; [exact Hfirst|].
  destruct (validateMessage_sanitized_revalidates "  post the invoice  " r Hfirst)
    as [_ Hagain].
  destruct (Hagain eq_refl) as (_ & _ & Hsame). exact Hsame.
Defined.

Lemma string_of_uint_digits (d : Decimal.uint) :
  Auth.allChars Validators.isDigit (NilEmpty.string_of_uint d) = true.
Proof. induction d; cbn [NilEmpty.string_of_uint Auth.allChars]; done. Qed.

Lemma intToString_digits (now : Z) :
  0 ≤ now →
  ∃ d ds, JS.intToString now = String d ds
          ∧ Validators.isDigit d = true
          ∧ Auth.allChars Validators.isDigit ds = true.
Proof.
  intros Hnow. unfold JS.intToString.
  destruct now as [|p|p]; [by exists "0"%char, "" | | lia].
  cbn [Z.to_int NilEmpty.string_of_int].
  pose proof (string_of_uint_digits (Pos.to_uint p)) as Hdigits.
  pose proof (Unsigned.to_uint_nonnil p) as Hnonnil.
  destruct (Pos.to_uint p) eqn:Hd; [done | | | | | | | | | |];
    cbn [NilEmpty.string_of_uint Auth.allChars] in *;
    eexists _, _; (split; [reflexivity|]); split; done.
Qed.

Lemma skipDigits_separator (ds tail : string) :
  Auth.allChars Validators.isDigit ds = true →
  Auth.skipDigits (ds +:+ String "_" tail) = String "_" tail.
Proof.
  induction ds as [|c ds IH]; [done|].
  cbn [Auth.allChars]. intros [Hc Hds]%andb_true_iff.
  rewrite string_app_cons. cbn [Auth.skipDigits]. rewrite Hc. by apply IH.
Qed.

Lemma generateSessionId_unfold (now : Z) (rnd : string) :
  Auth.generateSessionId now rnd
  = String "e" (String "v" (String "a" (String "_"
      (JS.intToString now +:+ String "_" rnd)))).
Proof. reflexivity. Qed.

(** X23. A session id made by [generateSessionId] at a non-negative clock
    value passes [isValidSessionId] exactly when the random part is not
    empty and holds only digits and lower-case letters; with an empty
    random part, which [Math.random() === 0] gives, the id made is not
    valid. *)
Theorem generated_session_id_validity (now : Z) (rnd : string) :
  0 ≤ now →
  Auth.isValidSessionId (Auth.generateSessionId now rnd)
  = negb (bool_decide (rnd = "")) && Auth.allChars Auth.isLowerAlnum rnd.
Proof.
  intros Hnow. rewrite generateSessionId_unfold.
  destruct (intToString_digits now Hnow) as (d & ds & Hdigits & Hd & Hds).
  rewrite Hdigits. cbn [Auth.isValidSessionId].
  rewrite string_app_cons, Hd. cbn [andb].
  rewrite <- string_app_cons, skipDigits_separator; [done|].
  cbn [Auth.allChars]. by rewrite Hd, Hds.
Qed.

Lemma generated_session_id_validity_witness :
  Auth.isValidSessionId (Auth.generateSessionId 1700000000000 "k3x9") = true
  ∧ Auth.isValidSessionId (Auth.generateSessionId 1700000000000 "") = false.
Proof.
  split.
  - rewrite (generated_session_id_validity 1700000000000 "k3x9"); [reflexivity | lia].
  - rewrite (generated_session_id_validity 1700000000000 ""); [reflexivity | lia].
Defined.

Lemma generated_not_uuid (now : Z) (rnd : string) :
  Validators.uuidTest (Auth.generateSessionId now rnd) = false.
Proof. rewrite generateSessionId_unfold. reflexivity. Qed.

(** X24. No session id made by [generateSessionId] is a UUID, so
    [validateChatInput] never accepts request data that carries such an id
    as its [sessionId]: whenever it returns, the data is invalid, the
    errors hold the conversation id error, and the sanitized session id is
    [null]. *)
Theorem generated_session_id_fails_chat_validation (now : Z) (rnd : string)
    (data : Validators.ChatInput) (r : Validators.ChatInputValidation) :
  Validators.in_sessionId data = Some (Auth.generateSessionId now rnd) →
  Validators.validateChatInput data = Normal r →
  Validators.civ_isValid r = false
  ∧ Validators.invalidConversationId ∈ Validators.civ_errors r
  ∧ Validators.san_sessionId (Validators.civ_sanitized r) = None.
Proof.
  intros Hid. unfold Validators.validateChatInput.
  destruct (Validators.validateMessage (Validators.in_message data))
    as [messageValidation | e]; [|done].
  cbn [bindC]. rewrite Hid.
  assert (Hconv : Validators.validateConversationId
                    (Validators.orElseId (Some (Auth.generateSessionId now rnd))
                       (Validators.in_conversationId data))
                  = {| Validators.cv_isValid := false;
                       Validators.cv_errors := Some [Validators.invalidConversationId];
                       Validators.cv_sanitized := None |}).
  { unfold Validators.orElseId, Validators.validateConversationId.
    rewrite generateSessionId_unfold. cbn [JS.truthy].
    rewrite bool_decide_eq_false_2 by done. cbn [negb default from_option].
    unfold id. rewrite <- generateSessionId_unfold, generated_not_uuid. done. }
  rewrite Hconv. intros [= <-].
  cbn [Validators.civ_isValid Validators.civ_errors Validators.civ_sanitized
       Validators.san_sessionId Validators.cv_isValid Validators.cv_errors
       Validators.cv_sanitized negb default from_option].
  unfold id. split; [|split; [|done]].
  - apply Nat.eqb_neq. rewrite !length_app. cbn [length]. lia.
  - rewrite !elem_of_app. left. right. rewrite elem_of_cons. by left.
Qed.

Lemma generated_session_id_fails_chat_validation_witness :
  let data :=
    {| Validators.in_message := Validators.VString "post the invoice";
       Validators.in_persona := Some "sap_consultant";
       Validators.in_sessionId := Some (Auth.generateSessionId 1700000000000 "k3x9");
       Validators.in_conversationId := None;
       Validators.in_context := Validators.VUndefined |} in
  ∃ r, Validators.validateChatInput data = Normal r
       ∧ Validators.civ_isValid r = false
       ∧ Validators.civ_errors r = [Validators.invalidConversationId].
Proof.
  intros data.
  destruct (Validators.validateChatInput data) as [r|e] eqn:Hrun; [|discriminate].
  exists r. split; [reflexivity|].
  destruct (generated_session_id_fails_chat_validation 1700000000000 "k3x9" data r
              eq_refl Hrun) as (Hinvalid & _ & _).
  split; [exact Hinvalid|]. by injection Hrun as <-.
Defined.

Example uuid_accepted :
  Validators.validateConversationId (Some "123E4567-e89b-42d3-A456-426614174000")
  = {| Validators.cv_isValid := true; Validators.cv_errors := None;
       Validators.cv_sanitized := Some "123E4567-e89b-42d3-A456-426614174000" |}.
Proof. reflexivity. Qed.


Lemma validatePersona_sanitized (persona : option string) :
  Validators.pv_sanitized (Validators.validatePersona persona)
  ∈ Validators.validPersonas.
Proof.
  unfold Validators.validatePersona.
  destruct (JS.truthy persona); cbn [negb Validators.pv_sanitized];
    [|by apply elem_of_cons; left].
  unfold JS.arrayIncludes.
  destruct (bool_decide_reflect (default "" persona ∈ Validators.validPersonas));
    cbn [negb Validators.pv_sanitized]; [done | by apply elem_of_cons; left].
Qed.

(** X25. The persona [validatePersona] hands on is always one of its five
    names, and of these only [sap_consultant] has a prompt of its own in
    [getSystemPrompt]: for each of the other four the system prompt is the
    one of the general persona. None of the other personas that
    [getSystemPrompt] knows is ever handed on. *)
Theorem validated_persona_prompt (prompts : Groq.PromptLibrary)
    (persona : option string) (context0 : Groq.Nullable Groq.PromptContext) :
  let sanitized := Validators.pv_sanitized (Validators.validatePersona persona) in
  (sanitized ∉ ["erp_analyst"; "technical_architect"; "business_analyst";
                "implementation_specialist"; "general"])
  ∧ Groq.getSystemPrompt prompts (Groq.JsValue sanitized) context0
    = Groq.getSystemPrompt prompts
        (Groq.JsValue (if bool_decide (sanitized = "sap_consultant")
                       then "sap_consultant" else "general")) context0.
Proof.
  intros sanitized.
  pose proof (validatePersona_sanitized persona) as Hin. fold sanitized in Hin.
  unfold Validators.validPersonas in Hin.
  rewrite !elem_of_cons, elem_of_nil in Hin.
  destruct Hin as [-> | [-> | [-> | [-> | [-> | []]]]]];
    (split; [|reflexivity]);
    rewrite !elem_of_cons, elem_of_nil; intros Hin;
    repeat destruct Hin as [Hin | Hin]; first [discriminate | done].
Qed.

(* ===================================================================== *)
(** ** The text of the context summary *)
(* ===================================================================== *)

Lemma join_app_cons (sep x y : string) (xs l : list string) :
  JS.join sep ((x :: xs) ++ y :: l)
  = JS.join sep (x :: xs) +:+ sep +:+ JS.join sep (y :: l).
Proof.
  revert x. induction xs as [|x' xs IH]; intros x; [reflexivity|].
  change ((x :: x' :: xs) ++ y :: l) with (x :: ((x' :: xs) ++ y :: l)).
  change ((x' :: xs) ++ y :: l) with (x' :: (xs ++ y :: l)).
  rewrite !join_cons_cons.
  change (x' :: (xs ++ y :: l)) with ((x' :: xs) ++ y :: l).
  by rewrite IH, !string_app_assoc.
Qed.

Lemma join_itemLines_cons {A} (sep h y : string) (render : A → string)
    (items : list A) (l : list string) :
  JS.join sep (h :: itemLines render items ++ y :: l)
  = h +:+ sep +:+ JS.join sep (render <$> items) +:+ sep +:+ JS.join sep (y :: l).
Proof.
  destruct items as [|a items]; [reflexivity|].
  unfold itemLines. cbn [fmap list_fmap].
  change (h :: (render a :: (render <$> items)) ++ y :: l)
    with (h :: render a :: ((render <$> items) ++ y :: l)).
  rewrite join_cons_cons.
  change (render a :: ((render <$> items) ++ y :: l))
    with ((render a :: (render <$> items)) ++ y :: l).
  by rewrite join_app_cons.
Qed.

Lemma renderSummary_lines (dateToString : Z → string) (session : Session) :
  renderSummary dateToString (specSummary session)
  = specSummaryText dateToString session.
Proof.
  unfold specSummaryText, specSummaryLines, sectionLines, renderSummary, specSummary.
  cbn [sum_persona sum_phase sum_messageCount sum_businessRequirements
       sum_technicalSpecs sum_recentDecisions sum_openIssues sum_recentMessages
       app].
  rewrite <- list_fmap_compose.
  repeat (rewrite join_cons_cons || rewrite join_itemLines_cons).
  rewrite !string_app_assoc.
  reflexivity.
Qed.

Lemma occursIn_join (sep x : string) (l : list string) :
  x ∈ l → occursIn x (JS.join sep l).
Proof.
  induction l as [|y l IH]; [by intros ?%elem_of_nil|].
  intros [-> | Hin]%elem_of_cons.
  - destruct l as [|z l]; [apply occursIn_refl|].
    rewrite join_cons_cons. apply occursIn_prefix.
  - destruct l as [|z l]; [by apply elem_of_nil in Hin|].
    rewrite join_cons_cons.
    destruct (IH Hin) as (pre & post & ->).
    exists (y +:+ sep +:+ pre), post. by rewrite !string_app_assoc.
Qed.

Lemma elem_of_sectionLines {A} (heading : string) (render : A → string)
    (items : list A) (a : A) :
  a ∈ items → render a ∈ sectionLines heading render items.
Proof.
  intros Hin. unfold sectionLines, itemLines.
  do 2 (apply elem_of_cons; right).
  destruct items as [|b items]; [by apply elem_of_nil in Hin|].
  by apply list_elem_of_fmap_2.
Qed.

Lemma occursIn_middle (pre s post : string) : occursIn s (pre +:+ s +:+ post).
Proof. by exists pre, post. Qed.

Lemma occursIn_suffix (pre s : string) : occursIn s (pre +:+ s).
Proof. exists pre, "". by rewrite string_app_empty_r. Qed.

(** Every item the specification lists is part of a line of the summary. *)
Lemma specSummaryItems_lines (dateToString : Z → string) (session : Session)
    (item : string) :
  item ∈ specSummaryItems dateToString session →
  ∃ line, line ∈ specSummaryLines dateToString session ∧ occursIn item line.
Proof.
  unfold specSummaryItems, specSummaryLines.
  rewrite !elem_of_app, !elem_of_cons, elem_of_nil, !list_elem_of_bind.
  intros [[-> | [-> | [-> | []]]]
         | [Hreq | [Hspec | [(dec & Hitem & Hdec) | [(i & Hitem & Hi)
                                                    | (msg & Hitem & Hmsg)]]]]].
  - eexists. split; [|apply occursIn_suffix].
    rewrite !elem_of_app, !elem_of_cons. tauto.
  - eexists. split; [|apply occursIn_suffix].
    rewrite !elem_of_app, !elem_of_cons. tauto.
  - eexists. split; [|apply occursIn_suffix].
    rewrite !elem_of_app, !elem_of_cons. tauto.
  - eexists. split; [|apply (occursIn_suffix "- ")].
    pose proof (elem_of_sectionLines "BUSINESS REQUIREMENTS IDENTIFIED:"
                  (λ req, "- " +:+ req) _ _ Hreq).
    rewrite !elem_of_app. tauto.
  - eexists. split; [|apply (occursIn_suffix "- ")].
    pose proof (elem_of_sectionLines "TECHNICAL SPECIFICATIONS:"
                  (λ spec, "- " +:+ spec) _ _ Hspec).
    rewrite !elem_of_app. tauto.
  - pose proof (elem_of_sectionLines "RECENT DECISIONS:"
                  (λ dec, "- " +:+ decision dec +:+ " ("
                            +:+ dateToString (decision_timestamp dec) +:+ ")")
                  _ _ Hdec) as Hline.
    eexists. split; [rewrite !elem_of_app; right; right; right; left; exact Hline|].
    cbn beta.
    rewrite !elem_of_cons, elem_of_nil in Hitem.
    destruct Hitem as [-> | [-> | []]].
    + apply occursIn_middle.
    + exists ("- " +:+ decision dec +:+ " ("), ")". by rewrite !string_app_assoc.
  - pose proof (elem_of_sectionLines "OPEN ISSUES:"
                  (λ i, "- " +:+ issue i +:+ " ("
                          +:+ dateToString (issue_timestamp i) +:+ ")")
                  _ _ Hi) as Hline.
    eexists.
    split; [rewrite !elem_of_app; right; right; right; right; left; exact Hline|].
    cbn beta.
    rewrite !elem_of_cons, elem_of_nil in Hitem.
    destruct Hitem as [-> | [-> | []]].
    + apply occursIn_middle.
    + exists ("- " +:+ issue i +:+ " ("), ")". by rewrite !string_app_assoc.
  - pose proof (elem_of_sectionLines "RECENT CONVERSATION:"
                  (λ msg, role msg +:+ ": " +:+ truncate200 (content msg))
                  _ _ Hmsg) as Hline.
    eexists.
    split; [rewrite !elem_of_app; right; right; right; right; right; left;
            exact Hline|].
    cbn beta.
    rewrite !elem_of_cons, elem_of_nil in Hitem.
    destruct Hitem as [-> | [-> | []]].
    + apply occursIn_prefix.
    + exists (role msg +:+ ": "), "".
      by rewrite string_app_empty_r, string_app_assoc.
Qed.

(** C6. For an existing session the summary text is the fixed template,
    line by line, that holds the persona, the phase, the message count,
    the last 5 business requirements, the last 3 technical specifications,
    the last 3 decisions with their timestamps, the last 3 of the issues
    whose status is open, and the last 5 messages, each with its content
    cut to 200 characters and followed by "..." exactly when it was
    longer; each of these items occurs in the text, and the text has
    nothing besides the template and the items. *)
Theorem summary_contents (dateToString : Z → string) (cm : ConversationMemory)
    (sessionId : string) (session : Session) :
  conversations cm !! sessionId = Some session →
  generateContextSummary dateToString sessionId cm
    = specSummaryText dateToString session
  ∧ ∀ item, item ∈ specSummaryItems dateToString session →
      occursIn item (generateContextSummary dateToString sessionId cm).
Proof.
  intros Hlookup.
  assert (Htext : generateContextSummary dateToString sessionId cm
                  = specSummaryText dateToString session).
  { unfold generateContextSummary. rewrite Hlookup, buildSummary_spec.
    apply renderSummary_lines. }
  split; [exact Htext|].
  intros item Hitem. rewrite Htext.
  destruct (specSummaryItems_lines dateToString session item Hitem)
    as (line & Hline & Hoccurs).
  eapply occursIn_trans; [exact Hoccurs|].
  by apply occursIn_join.
Qed.

Lemma summary_contents_witness :
  let cm := (addMessage "s1" longText "user" 1 "r" newConversationMemory).2 in
  ∃ session,
    conversations cm !! "s1" = Some session
    ∧ generateContextSummary (λ _, "today") "s1" cm
      = specSummaryText (λ _, "today") session
    ∧ occursIn (String.substring 0 200 longText +:+ "...")
        (generateContextSummary (λ _, "today") "s1" cm).
Proof.
  intros cm.
  destruct (conversations cm !! "s1") as [session|] eqn:Hs;
    [|exfalso; vm_compute in Hs; discriminate].
  exists session. split; [reflexivity|].
  destruct (summary_contents (λ _, "today") cm "s1" session Hs) as [Htext Hitems].
  split; [exact Htext|].
  apply Hitems.
  assert (Hsession : Some session = conversations cm !! "s1") by done.
  vm_compute in Hsession. injection Hsession as ->.
  vm_compute. repeat constructor.
Defined.
